(** * Secret Santa manager: matching, reminders, onboarding

    A shallow embedding of [server/routes.ts], [server/storage.ts] and the
    exclusion dialog of the client, with the properties of the
    specification stated over it.

    Conventions.
    - A JavaScript string is a [string]; [null]/[undefined] is [None].
    - A [Date] is its millisecond count since the epoch, a [Z]; where a
      computation can answer the Invalid Date, the date is an [option Z]
      and [None] is the Invalid Date.
    - [Math.random], the Slack HTTP API and the database are explicit
      parts of the state that the handlers thread through. *)

From Stdlib Require Import ZArith String Ascii List Lia Bool.
From stdpp Require Import base option list strings gmap.

Local Open Scope string_scope.
Local Open Scope list_scope.
Local Open Scope nat_scope.

(* ===================================================================== *)
(** * 1. The matching engine ([generateMatching]) *)
(* ===================================================================== *)

Module Matching.

(** [{ participantId, excludedParticipantId }] *)
Record ExclusionPair := mkExclusionPair {
  participantId : string;
  excludedParticipantId : string
}.

(** [{ giverId, receiverId }] *)
Record Pair := mkPair {
  giverId : string;
  receiverId : string
}.

(** The random source behind [Math.random]: an arbitrary sequence of
    numbers and the position of the next one to be drawn. *)
Record Rng := mkRng {
  source : nat → nat;
  cursor : nat
}.

(** [Math.floor(Math.random() * k)]: some index below [k]. *)
Definition randomBelow (k : nat) (g : Rng) : nat * Rng :=
  (source g (cursor g) mod k, mkRng (source g) (S (cursor g))).

(** The key [`${giverId}-${receiverId}`] stored in the exclusion set. *)
Definition exclusionKey (giver receiver : string) : string :=
  giver +:+ "-" +:+ receiver.

(** [for (const pair of exclusionPairs) exclusionSet.add(...)] *)
Definition buildExclusionSet (exclusionPairs : list ExclusionPair) : gset string :=
  foldl (λ acc pair,
           acc ∪ {[ exclusionKey (participantId pair) (excludedParticipantId pair) ]})
        ∅ exclusionPairs.

Definition isValidAssignment (exclusionSet : gset string)
    (giver receiver : string) : bool :=
  if decide (giver = receiver) then false
  else if decide (exclusionKey giver receiver ∈ exclusionSet) then false
  else true.

Section Shuffle.
Context {A : Type}.

(** [[result[i], result[j]] = [result[j], result[i]]] *)
Definition swap (result : list A) (i j : nat) : list A :=
  match result !! i, result !! j with
  | Some x, Some y => <[j:=x]> (<[i:=y]> result)
  | _, _ => result
  end.

(** The body of the Fisher-Yates loop, for [i], [i-1], ..., [1]. *)
Fixpoint shuffleFrom (i : nat) (result : list A) (g : Rng) : list A * Rng :=
  match i with
  | O => (result, g)
  | S i' =>
      let '(j, g1) := randomBelow (i + 1) g in
      shuffleFrom i' (swap result i j) g1
  end.

Definition shuffle (array : list A) (g : Rng) : list A * Rng :=
  shuffleFrom (length array - 1) array g.
End Shuffle.

(** The [for (const receiver of shuffledReceivers)] loop of
    [findAssignment]; [recurse] is the search on the remaining givers. *)
Definition tryReceivers (exclusionSet : gset string)
    (recurse : list string → list Pair → Rng → option (list Pair) * Rng)
    (giver : string) (receivers : list string) (current : list Pair)
  : list string → Rng → option (list Pair) * Rng :=
  fix loop (candidates : list string) (g : Rng) :=
    match candidates with
    | [] => (None, g)
    | receiver :: rest =>
        if isValidAssignment exclusionSet giver receiver then
          let remainingReceivers :=
            filter (λ r, r ≠ receiver) receivers in
          let '(result, g1) :=
            recurse remainingReceivers (current ++ [mkPair giver receiver]) g in
          match result with
          | Some found => (Some found, g1)
          | None => loop rest g1
          end
        else loop rest g
    end.

Fixpoint findAssignment (exclusionSet : gset string)
    (givers receivers : list string) (current : list Pair) (g : Rng)
  : option (list Pair) * Rng :=
  match givers with
  | [] => (Some current, g)
  | giver :: remainingGivers =>
      let '(shuffledReceivers, g1) := shuffle receivers g in
      tryReceivers exclusionSet (findAssignment exclusionSet remainingGivers)
        giver receivers current shuffledReceivers g1
  end.

(** The attempt budget of the restart loop. *)
Definition MAX_ATTEMPTS : nat := 100.

(** [for (let attempt = 0; attempt < 100; attempt++)], with [remaining]
    the attempts still allowed.  Besides the result the loop reports how
    many attempts it started. *)
Fixpoint attemptLoop (exclusionSet : gset string) (participantIds : list string)
    (remaining attempt : nat) (g : Rng) : option (list Pair) * nat * Rng :=
  match remaining with
  | O => (None, attempt, g)
  | S remaining' =>
      let '(shuffledGivers, g1) := shuffle participantIds g in
      let '(shuffledReceivers, g2) := shuffle participantIds g1 in
      let '(result, g3) :=
        findAssignment exclusionSet shuffledGivers shuffledReceivers [] g2 in
      match result with
      | Some found => (Some found, S attempt, g3)
      | None => attemptLoop exclusionSet participantIds remaining' (S attempt) g3
      end
  end.

(** [generateMatching] together with the number of attempts started and
    the state of the random source on return. *)
Definition generateMatchingRun (participantIds : list string)
    (exclusionPairs : list ExclusionPair) (g : Rng)
  : option (list Pair) * nat * Rng :=
  let n := length participantIds in
  if n <? 2 then (None, 0, g)
  else
    let exclusionSet := buildExclusionSet exclusionPairs in
    attemptLoop exclusionSet participantIds MAX_ATTEMPTS 0 g.

Definition generateMatching (participantIds : list string)
    (exclusionPairs : list ExclusionPair) (g : Rng) : option (list Pair) :=
  (generateMatchingRun participantIds exclusionPairs g).1.1.

Global Instance ExclusionPair_eq_dec : EqDecision ExclusionPair.
Proof. solve_decision. Defined.

(** Every participant excludes every other participant. *)
Definition excludesAllOthers (participantIds : list string)
    (exclusionPairs : list ExclusionPair) : bool :=
  forallb (λ a,
    forallb (λ b, bool_decide (a = b)
                  || bool_decide (mkExclusionPair a b ∈ exclusionPairs))
            participantIds)
    participantIds.

(** The receivers [rs] picked for [givers], in order: distinct, taken from
    [receivers], each accepted by [isValidAssignment]. *)
Definition picks (exclusionSet : gset string)
    (givers receivers rs : list string) : Prop :=
  NoDup rs ∧ (∀ r, r ∈ rs → r ∈ receivers) ∧
  Forall2 (λ gv r, isValidAssignment exclusionSet gv r = true) givers rs.

(** A source that always answers [k]. *)
Definition constRng (k : nat) : Rng := mkRng (λ _, k) 0.
(** A source that answers 0, 1, 2, ... *)
Definition countingRng : Rng := mkRng (λ i, i) 0.

End Matching.

(* ===================================================================== *)
(** * 2. JavaScript strings *)
(* ===================================================================== *)

(** The string methods the handlers call.  Text is modelled by its ASCII
    characters: the case conversions act on the letters A-Z and a-z and
    leave every other character as it is. *)
Module JS.

(** JavaScript truthiness of a [string | null]: neither [null] nor the
    empty string. *)
Definition truthy (s : option string) : bool :=
  match s with
  | Some (String _ _) => true
  | _ => false
  end.

Definition isUpper (c : ascii) : bool :=
  let n := nat_of_ascii c in (65 <=? n) && (n <=? 90).
Definition isLower (c : ascii) : bool :=
  let n := nat_of_ascii c in (97 <=? n) && (n <=? 122).
Definition isDigit (c : ascii) : bool :=
  let n := nat_of_ascii c in (48 <=? n) && (n <=? 57).
(** Tab, line feed, vertical tab, form feed, carriage return, space. *)
Definition isSpace (c : ascii) : bool :=
  let n := nat_of_ascii c in ((9 <=? n) && (n <=? 13)) || (n =? 32).

Definition lowerChar (c : ascii) : ascii :=
  if isUpper c then ascii_of_nat (nat_of_ascii c + 32) else c.
Definition upperChar (c : ascii) : ascii :=
  if isLower c then ascii_of_nat (nat_of_ascii c - 32) else c.

Fixpoint mapChars (f : ascii → ascii) (s : string) : string :=
  match s with
  | EmptyString => EmptyString
  | String c s' => String (f c) (mapChars f s')
  end.

Definition toLowerCase : string → string := mapChars lowerChar.
Definition toUpperCase : string → string := mapChars upperChar.

Fixpoint trimStart (s : string) : string :=
  match s with
  | String c s' => if isSpace c then trimStart s' else s
  | EmptyString => EmptyString
  end.

(** Drops the trailing white space: a character is kept when something
    that is kept follows it or when it is not white space itself. *)
Fixpoint trimEnd (s : string) : string :=
  match s with
  | EmptyString => EmptyString
  | String c s' =>
      match trimEnd s' with
      | EmptyString => if isSpace c then EmptyString else String c EmptyString
      | rest => String c rest
      end
  end.

Definition trim (s : string) : string := trimEnd (trimStart s).

(** [s.includes(needle)] *)
Fixpoint includes (s needle : string) : bool :=
  if String.prefix needle s then true
  else match s with
       | EmptyString => false
       | String _ s' => includes s' needle
       end.

(** [s.split(" ")]: the pieces between the separators, empty ones kept. *)
Fixpoint split (sep : ascii) (s : string) : list string :=
  match s with
  | EmptyString => [EmptyString]
  | String c s' =>
      if Ascii.eqb c sep then EmptyString :: split sep s'
      else match split sep s' with
           | piece :: pieces => String c piece :: pieces
           | [] => [String c EmptyString]
           end
  end.

(** [pieces.join(sep)] *)
Fixpoint join (sep : string) (pieces : list string) : string :=
  match pieces with
  | [] => EmptyString
  | [piece] => piece
  | piece :: rest => piece +:+ sep +:+ join sep rest
  end.

(** [w.charAt(0).toUpperCase() + w.slice(1)] *)
Definition capitalize (w : string) : string :=
  match w with
  | EmptyString => EmptyString
  | String c w' => String (upperChar c) w'
  end.

(** [text.split(" ").map(w => ...).join(" ")] *)
Definition titleCase (text : string) : string :=
  join " " (capitalize <$> split " "%char text).

(** [text.replace(/\D/g, empty)]: the digits of the text. *)
Fixpoint digitsOf (s : string) : string :=
  match s with
  | EmptyString => EmptyString
  | String c s' => if isDigit c then String c (digitsOf s') else digitsOf s'
  end.

End JS.

(* ===================================================================== *)
(** * 3. Dates and time zones *)
(* ===================================================================== *)

(** [date-fns] on millisecond counts.  The server process runs in UTC, so
    the calendar fields that [setHours] and friends act on are the UTC
    fields of the count. *)
Module DateFns.
Local Open Scope Z_scope.

Definition MS_PER_SECOND : Z := 1000.
Definition MS_PER_MINUTE : Z := 60000.
Definition MS_PER_HOUR : Z := 3600000.
Definition MS_PER_DAY : Z := 86400000.

Definition addDays (date amount : Z) : Z := date + amount * MS_PER_DAY.

Definition getHours (date : Z) : Z := (date mod MS_PER_DAY) / MS_PER_HOUR.
Definition getMinutes (date : Z) : Z := (date mod MS_PER_HOUR) / MS_PER_MINUTE.
Definition getSeconds (date : Z) : Z := (date mod MS_PER_MINUTE) / MS_PER_SECOND.
Definition getMilliseconds (date : Z) : Z := date mod MS_PER_SECOND.

Definition setHours (date hours : Z) : Z :=
  date + (hours - getHours date) * MS_PER_HOUR.
Definition setMinutes (date minutes : Z) : Z :=
  date + (minutes - getMinutes date) * MS_PER_MINUTE.
Definition setSeconds (date seconds : Z) : Z :=
  date + (seconds - getSeconds date) * MS_PER_SECOND.
Definition setMilliseconds (date ms : Z) : Z :=
  date + (ms - getMilliseconds date).

Definition isBefore (date dateToCompare : Z) : bool := date <? dateToCompare.

(** [isBefore] on a date that can be the Invalid Date: its time value is
    [NaN], and the comparison is false. *)
Definition isBeforeDate (date : option Z) (dateToCompare : Z) : bool :=
  match date with
  | Some d => isBefore d dateToCompare
  | None => false
  end.

(** The day number and the time of day of a wall-clock reading. *)
Definition dayOf (wall : Z) : Z := wall / MS_PER_DAY.
Definition timeOfDay (wall : Z) : Z := wall mod MS_PER_DAY.
(** Day [day] at [hours]:00:00.000. *)
Definition atHour (day hours : Z) : Z := day * MS_PER_DAY + hours * MS_PER_HOUR.

End DateFns.

(** The time-zone conversions of [date-fns-tz], over a zone database that
    is a parameter of the development. *)
Module Tz.
Local Open Scope Z_scope.

(** For a zone name, the offset east of UTC in force at an instant, and
    the offset that a wall-clock reading of the zone stands for.  A zone
    that the library does not know has none; the conversions do not throw
    for it, they answer the Invalid Date. *)
Class ZoneDatabase := {
  offsetAtInstant : string → Z → option Z;
  offsetAtWallClock : string → Z → option Z
}.

Section Conversions.
Context `{ZoneDatabase}.

(** [toZonedTime(date, tz)]: the wall-clock reading of [tz] at [date], or
    the Invalid Date ([None]) for a zone that is not known. *)
Definition toZonedTime (date : Z) (tz : string) : option Z :=
  offset ← offsetAtInstant tz date; Some (date + offset).

(** [fromZonedTime(wall, tz)]: the instant at which [tz] reads [wall], or
    the Invalid Date ([None]) for a zone that is not known. *)
Definition fromZonedTime (wall : Z) (tz : string) : option Z :=
  offset ← offsetAtWallClock tz wall; Some (wall - offset).
End Conversions.

(** The periods of a zone, oldest first: the instant from which an offset
    is in force.  [limit] ends the last period. *)
Fixpoint offsetIn (periods : list (Z * Z)) (limit : Z) (date : Z) : option Z :=
  match periods with
  | [] => None
  | (start, offset) :: rest =>
      let stop := match rest with (next, _) :: _ => next | [] => limit end in
      if (start <=? date) && (date <? stop) then Some offset
      else offsetIn rest limit date
  end.

(** Europe/Riga from 31 March 2024 to 29 March 2026: summer time begins
    and ends at 01:00 UTC of the last Sunday of March and of October. *)
Definition rigaOffset : Z → option Z :=
  offsetIn [(DateFns.atHour 19813 1, 3 * DateFns.MS_PER_HOUR);
            (DateFns.atHour 20023 1, 2 * DateFns.MS_PER_HOUR);
            (DateFns.atHour 20177 1, 3 * DateFns.MS_PER_HOUR);
            (DateFns.atHour 20387 1, 2 * DateFns.MS_PER_HOUR)]
           (DateFns.atHour 20541 1).

(** America/New_York from 10 March 2024 to 8 March 2026: summer time
    begins at 07:00 UTC of the second Sunday of March and ends at 06:00
    UTC of the first Sunday of November. *)
Definition newYorkOffset : Z → option Z :=
  offsetIn [(DateFns.atHour 19792 7, -4 * DateFns.MS_PER_HOUR);
            (DateFns.atHour 20030 6, -5 * DateFns.MS_PER_HOUR);
            (DateFns.atHour 20156 7, -4 * DateFns.MS_PER_HOUR);
            (DateFns.atHour 20394 6, -5 * DateFns.MS_PER_HOUR)]
           (DateFns.atHour 20520 7).

Definition sampleOffset (tz : string) (date : Z) : option Z :=
  if decide (tz = "UTC") then Some 0
  else if decide (tz = "Europe/Riga") then rigaOffset date
  else if decide (tz = "America/New_York") then newYorkOffset date
  else None.

(** The offset of a wall-clock reading as [date-fns-tz] finds it: the
    offset at the reading taken for an instant is a first guess, which is
    kept when it is also the offset at the instant it leads to, and
    corrected once otherwise. *)
Definition guessOffset (offsetAt : Z → option Z) (wall : Z) : option Z :=
  offset ← offsetAt wall;
  o2 ← offsetAt (wall - offset);
  if decide (offset = o2) then Some offset
  else o3 ← offsetAt (wall - o2);
       if decide (o2 = o3) then Some o2 else Some (o2 `max` o3).

(** A zone database for the examples: UTC at every instant, and the two
    zones above in the two years given; the table has no entry for another
    zone or another instant. *)
Definition sampleZones : ZoneDatabase :=
  {| offsetAtInstant := sampleOffset;
     offsetAtWallClock := λ tz, guessOffset (sampleOffset tz) |}.

End Tz.

(** The two schedule computations at the top of [routes.ts]. *)
Module Schedule.
Import DateFns Tz.
Local Open Scope Z_scope.

Definition DEFAULT_TIMEZONE : string := "Europe/Riga".
Definition REMINDER_HOUR : Z := 10.

(** [timezone || DEFAULT_TIMEZONE] *)
Definition orDefault (timezone : option string) : string :=
  match timezone with
  | Some tz => if JS.truthy timezone then tz else DEFAULT_TIMEZONE
  | None => DEFAULT_TIMEZONE
  end.

(** [setMilliseconds(setSeconds(setMinutes(setHours(d, REMINDER_HOUR), 0), 0), 0)] *)
Definition atReminderHour (zonedTime : Z) : Z :=
  setMilliseconds (setSeconds (setMinutes (setHours zonedTime REMINDER_HOUR) 0) 0) 0.

(** [target] is the next wall-clock reading of 10:00:00.000 that is not
    before the reading [zoned]. *)
Definition isNext10AM (zoned target : Z) : Prop :=
  timeOfDay target = REMINDER_HOUR * MS_PER_HOUR ∧
  zoned ≤ target < zoned + MS_PER_DAY.

Section WithZones.
Context `{ZoneDatabase}.

(** The [try] block of [getNext10AMInTimezone].  Nothing in it throws.
    Where [toZonedTime] answers the Invalid Date, the setters hand it on,
    [isBefore] is false for it and [fromZonedTime], asked about the same
    zone, answers the Invalid Date again: the block returns it. *)
Definition next10AM (tz : string) (fromDate : Z) : option Z :=
  zonedTime ← toZonedTime fromDate tz;
  let target := atReminderHour zonedTime in
  let target := if isBefore target zonedTime then addDays target 1 else target in
  fromZonedTime target tz.

(** [getNext10AMInTimezone].  The [catch] branch, which would answer
    [addDays(fromDate, 1)], is never entered, since the block does not
    throw: for a zone that is not known the function returns the Invalid
    Date. *)
Definition getNext10AMInTimezone (timezone : option string) (fromDate : Z)
  : option Z :=
  let tz := orDefault timezone in
  next10AM tz fromDate.

(** The [try] block of [getFirstReminderDate]; as above, it does not
    throw and returns the Invalid Date for a zone that is not known. *)
Definition firstReminder (tz : string) (notificationDate : Z) : option Z :=
  let sevenDaysLater := addDays notificationDate 7 in
  zonedTime ← toZonedTime sevenDaysLater tz;
  let target := atReminderHour zonedTime in
  fromZonedTime target tz.

(** [getFirstReminderDate]; its [catch] branch, [addDays(notificationDate,
    7)], is never entered either. *)
Definition getFirstReminderDate (timezone : option string)
    (notificationDate : Z) : option Z :=
  let tz := orDefault timezone in
  firstReminder tz notificationDate.
End WithZones.

End Schedule.

(* ===================================================================== *)
(** * 4. The tables of [shared/schema.ts] *)
(* ===================================================================== *)

(** One module per table; a nullable column is an [option]. *)

Module Participant.
Record t := mk {
  id : string;
  name : string;
  email : string;
  slackUserId : option string;
  address : string;
  country : option string;
  city : option string;
  zip : option string;
  street : option string;
  phone : option string;
  wishlist : option string;
  notes : option string;
  timezone : option string;
  timezoneOffset : option Z
}.
End Participant.

Module Event.
(** The name is either given or the default [`Secret Santa ${year}`] of
    the year of the instant at which the event was made. *)
Inductive name_t :=
| Named (name : string)
| SecretSantaOfYear (createdAt : Z).

Record t := mk {
  id : string;
  name : name_t;
  scheduledDate : option Z;
  status : string;
  matchingComplete : option bool;
  notificationsSent : option bool;
  messageTemplate : option string
}.
End Event.

Module Assignment.
Record t := mk {
  id : string;
  eventId : string;
  giverId : string;
  receiverId : string;
  notified : option bool;
  notifiedAt : option Z;
  giftSent : option bool;
  giftSentAt : option Z;
  lastReminderAt : option Z;
  nextReminderAt : option Z;
  receiverNotified : option bool
}.

(** [.set({ notified: true, notifiedAt })] *)
Definition setNotified (at_ : Z) (a : t) : t :=
  mk (id a) (eventId a) (giverId a) (receiverId a)
     (Some true) (Some at_)
     (giftSent a) (giftSentAt a) (lastReminderAt a) (nextReminderAt a)
     (receiverNotified a).

(** [.set({ giftSent, giftSentAt })] *)
Definition setGiftStatus (sent : bool) (sentAt : option Z) (a : t) : t :=
  mk (id a) (eventId a) (giverId a) (receiverId a)
     (notified a) (notifiedAt a)
     (Some sent) sentAt (lastReminderAt a) (nextReminderAt a)
     (receiverNotified a).

(** [.set({ lastReminderAt, nextReminderAt })] *)
Definition setReminderSent (last next : Z) (a : t) : t :=
  mk (id a) (eventId a) (giverId a) (receiverId a)
     (notified a) (notifiedAt a)
     (giftSent a) (giftSentAt a) (Some last) (Some next)
     (receiverNotified a).

(** [.set({ nextReminderAt })] *)
Definition setNextReminder (next : Z) (a : t) : t :=
  mk (id a) (eventId a) (giverId a) (receiverId a)
     (notified a) (notifiedAt a)
     (giftSent a) (giftSentAt a) (lastReminderAt a) (Some next)
     (receiverNotified a).

(** [.set({ receiverNotified: true })] *)
Definition setReceiverNotified (a : t) : t :=
  mk (id a) (eventId a) (giverId a) (receiverId a)
     (notified a) (notifiedAt a)
     (giftSent a) (giftSentAt a) (lastReminderAt a) (nextReminderAt a)
     (Some true).
End Assignment.

(** [AssignmentWithDetails]: a row joined with its two participants. *)
Module AssignmentWithDetails.
Record t := mk {
  row : Assignment.t;
  giver : Participant.t;
  receiver : Participant.t
}.
End AssignmentWithDetails.

Module Exclusion.
Record t := mk {
  id : string;
  participantId : string;
  excludedParticipantId : string
}.
End Exclusion.

Module SlackSettings.
Record t := mk {
  botToken : option string;
  teamId : option string;
  teamName : option string;
  adminSlackId : option string;
  adminDisplayName : option string
}.
End SlackSettings.

Module SlackContact.
Record t := mk {
  id : string;
  slackUserId : string;
  slackUsername : string;
  displayName : string;
  email : option string;
  status : string;
  invitedAt : option Z;
  respondedAt : option Z
}.

(** [Partial<SlackContact>] as the handlers build it: an absent key is
    [None]. *)
Record patch := mkPatch {
  newStatus : option string;
  newRespondedAt : option Z
}.

Definition apply (p : patch) (c : t) : t :=
  mk (id c) (slackUserId c) (slackUsername c) (displayName c) (email c)
     (default (status c) (newStatus p))
     (invitedAt c)
     (match newRespondedAt p with Some d => Some d | None => respondedAt c end).
End SlackContact.

Module Session.
Record t := mk {
  id : string;
  slackContactId : string;
  slackUserId : string;
  conversationState : string;
  collectedName : option string;
  collectedCountry : option string;
  collectedStreet : option string;
  collectedCity : option string;
  collectedZip : option string;
  collectedPhone : option string;
  collectedNotes : option string;
  lastMessageTs : option string;
  lastInteractionAt : option Z
}.

(** The [updates] object of [processSlackMessage]: an absent key is
    [None]. *)
Record updates := mkUpdates {
  newName : option string;
  newCountry : option string;
  newStreet : option string;
  newCity : option string;
  newZip : option string;
  newPhone : option string;
  newNotes : option string
}.

Definition noUpdates : updates :=
  mkUpdates None None None None None None None.

Definition overwrite (old new : option string) : option string :=
  match new with Some v => Some v | None => old end.

(** [.set({ conversationState, ...updates, lastInteractionAt })] *)
Definition apply (newState : string) (u : updates) (at_ : Z) (s : t) : t :=
  mk (id s) (slackContactId s) (slackUserId s) newState
     (overwrite (collectedName s) (newName u))
     (overwrite (collectedCountry s) (newCountry u))
     (overwrite (collectedStreet s) (newStreet u))
     (overwrite (collectedCity s) (newCity u))
     (overwrite (collectedZip s) (newZip u))
     (overwrite (collectedPhone s) (newPhone u))
     (overwrite (collectedNotes s) (newNotes u))
     (lastMessageTs s) (Some at_).

(** The collected fields of a session. *)
Inductive field :=
| Name | Country | Street | City | Zip | Phone | Notes.

Definition get (f : field) (s : t) : option string :=
  match f with
  | Name => collectedName s
  | Country => collectedCountry s
  | Street => collectedStreet s
  | City => collectedCity s
  | Zip => collectedZip s
  | Phone => collectedPhone s
  | Notes => collectedNotes s
  end.

Definition allFields : list field :=
  [Name; Country; Street; City; Zip; Phone; Notes].

(** The set of fields collected so far. *)
Definition collected (s : t) : list field :=
  filter (λ f, is_Some (get f s)) allFields.
End Session.

(** [ONBOARDING_STATES] and [CONTACT_STATUS] *)
Module ONBOARDING_STATES.
Definition INVITED : string := "invited".
Definition AWAITING_CONSENT : string := "awaiting_consent".
Definition COLLECTING_NAME : string := "collecting_name".
Definition COLLECTING_COUNTRY : string := "collecting_country".
Definition COLLECTING_CITY : string := "collecting_city".
Definition COLLECTING_ZIP : string := "collecting_zip".
Definition COLLECTING_STREET : string := "collecting_street".
Definition COLLECTING_PHONE : string := "collecting_phone".
Definition COLLECTING_NOTES : string := "collecting_notes".
Definition COMPLETED : string := "completed".
Definition DECLINED : string := "declined".
End ONBOARDING_STATES.

Module CONTACT_STATUS.
Definition IMPORTED : string := "imported".
Definition INVITED : string := "invited".
Definition IN_PROGRESS : string := "in_progress".
Definition COMPLETED : string := "completed".
Definition DECLINED : string := "declined".
End CONTACT_STATUS.

(* ===================================================================== *)
(** * 5. The Slack API and the texts sent through it *)
(* ===================================================================== *)

Module Slack.

(** The [user] object of a reply of [users.lookupByEmail] or
    [users.info]. *)
Record User := mkUser {
  id : string;
  tz : option string;
  tz_offset : option Z
}.

(** The parsed body of a reply. *)
Record Reply := mkReply {
  ok : bool;
  user : option User
}.

(** What one [fetch] meets: the request fails ([fetch] throws), the
    answer is not JSON ([.json()] throws), or a reply. *)
Inductive FetchResult :=
| NetworkError
| NotJson
| Json (body : Reply).

(** [ReceiverDetails] *)
Record ReceiverDetails := mkReceiverDetails {
  name : string;
  street : option string;
  city : option string;
  zip : option string;
  country : option string;
  phone : option string;
  notes : option string;
  wishlist : option string
}.

(** The replies of the onboarding conversation. *)
Inductive Prompt :=
| AskName
| DeclinedAck
| ConsentReprompt
| AskCountry (collectedName : string)
| NameReprompt
| AskCity
| CountryReprompt
| AskZip
| CityReprompt
| AskStreet
| ZipReprompt
| AskPhone
| StreetReprompt
| AskNotes
| PhoneReprompt
| AllSet (name country city zip street phone notes : option string)
         (adminMention : string).

(** The texts the server sends.  Their wording is not modelled: a text
    is the template it comes from and the values put into it. *)
Inductive Text :=
| AssignmentMessage (template : option string) (giverName : string)
                    (receiver : ReceiverDetails) (adminMention : string)
| FirstReminder (giverName receiverName : string)
| DailyReminder (giverName receiverName : string)
| GiftOnItsWay
| ThanksForConfirming (receiverName : string)
| Encouragement (receiverName : string)
| Onboarding (prompt : Prompt).

(** One call of [chat.postMessage] and what came of it. *)
Record Outbound := mkOutbound {
  channel : string;
  text : Text;
  response : FetchResult
}.

Global Instance User_eq_dec : EqDecision User.
Proof. solve_decision. Defined.
Global Instance Reply_eq_dec : EqDecision Reply.
Proof. solve_decision. Defined.
Global Instance FetchResult_eq_dec : EqDecision FetchResult.
Proof. solve_decision. Defined.
Global Instance ReceiverDetails_eq_dec : EqDecision ReceiverDetails.
Proof. solve_decision. Defined.
Global Instance Prompt_eq_dec : EqDecision Prompt.
Proof. solve_decision. Defined.
Global Instance Text_eq_dec : EqDecision Text.
Proof. solve_decision. Defined.

Definition isOnboarding (t : Text) : bool :=
  match t with Onboarding _ => true | _ => false end.

(** A reminder sent to [to]. *)
Definition isReminder (to : string) (o : Outbound) : bool :=
  bool_decide (channel o = to) &&
  match text o with
  | FirstReminder _ _ | DailyReminder _ _ => true
  | _ => false
  end.

End Slack.

(* ===================================================================== *)
(** * 6. The state the handlers run in *)
(* ===================================================================== *)

(** The database: one list of rows per table, in insertion order. *)
Record Database := mkDatabase {
  participants : list Participant.t;
  events : list Event.t;
  assignments : list Assignment.t;
  exclusions : list Exclusion.t;
  slackSettings : list SlackSettings.t;
  slackContacts : list SlackContact.t;
  slackOnboardingSessions : list Session.t
}.

(** The database together with what surrounds the process. *)
Record World := mkWorld {
  db : Database;
(** [process.env.SLACK_BOT_TOKEN] *)
envSlackBotToken : option string;
(** the reading of [new Date()]; a handler runs at one reading *)
clock : Z;
(** what the n-th [fetch] of the Slack API meets, and how many were made *)
slackApi : nat → Slack.FetchResult;
slackCalls : nat;
(** the calls of [chat.postMessage] made so far, oldest first *)
outbox : list Slack.Outbound;
(** [Math.random] *)
random : Matching.Rng;
(** [gen_random_uuid()]: the n-th identifier, and how many were drawn *)
uuid : nat → string;
uuidsDrawn : nat
}.

Definition withDb (f : Database → Database) (w : World) : World :=
  mkWorld (f (db w)) (envSlackBotToken w) (clock w) (slackApi w) (slackCalls w)
          (outbox w) (random w) (uuid w) (uuidsDrawn w).

Definition withParticipants (f : list Participant.t → list Participant.t)
    (d : Database) : Database :=
  mkDatabase (f (participants d)) (events d) (assignments d) (exclusions d)
             (slackSettings d) (slackContacts d) (slackOnboardingSessions d).
Definition withEvents (f : list Event.t → list Event.t) (d : Database) : Database :=
  mkDatabase (participants d) (f (events d)) (assignments d) (exclusions d)
             (slackSettings d) (slackContacts d) (slackOnboardingSessions d).
Definition withAssignments (f : list Assignment.t → list Assignment.t)
    (d : Database) : Database :=
  mkDatabase (participants d) (events d) (f (assignments d)) (exclusions d)
             (slackSettings d) (slackContacts d) (slackOnboardingSessions d).
Definition withExclusions (f : list Exclusion.t → list Exclusion.t)
    (d : Database) : Database :=
  mkDatabase (participants d) (events d) (assignments d) (f (exclusions d))
             (slackSettings d) (slackContacts d) (slackOnboardingSessions d).
Definition withSlackContacts (f : list SlackContact.t → list SlackContact.t)
    (d : Database) : Database :=
  mkDatabase (participants d) (events d) (assignments d) (exclusions d)
             (slackSettings d) (f (slackContacts d)) (slackOnboardingSessions d).
Definition withSessions (f : list Session.t → list Session.t)
    (d : Database) : Database :=
  mkDatabase (participants d) (events d) (assignments d) (exclusions d)
             (slackSettings d) (slackContacts d) (f (slackOnboardingSessions d)).

(** An [async] function: it runs from a world to a world and either
    returns a value or throws ([None]). *)
Definition M (A : Type) : Type := World → option A * World.

Definition ret {A} (a : A) : M A := λ w, (Some a, w).
Definition throw {A} : M A := λ w, (None, w).
Definition bind {A B} (m : M A) (k : A → M B) : M B :=
  λ w, match m w with
       | (Some a, w') => k a w'
       | (None, w') => (None, w')
       end.
(** [try { m } catch { handler }] *)
Definition tryCatch {A} (m handler : M A) : M A :=
  λ w, match m w with
       | (Some a, w') => (Some a, w')
       | (None, w') => handler w'
       end.
Definition gets {A} (f : World → A) : M A := λ w, (Some (f w), w).
Definition modify (f : World → World) : M unit := λ w, (Some tt, f w).

Notation "'let*' x ':=' m 'in' k" := (bind m (λ x, k))
  (at level 10, x name, m at level 100, k at level 200).
Notation "'run' m 'in' k" := (bind m (λ _, k))
  (at level 10, m at level 100, k at level 200).

(** [new Date()] *)
Definition newDate : M Z := gets clock.

(** [gen_random_uuid()] *)
Definition genRandomUuid : M string :=
  λ w, (Some (uuid w (uuidsDrawn w)),
        mkWorld (db w) (envSlackBotToken w) (clock w) (slackApi w) (slackCalls w)
                (outbox w) (random w) (uuid w) (S (uuidsDrawn w))).

(** One [fetch] of the Slack API: the next answer of the environment. *)
Definition nextAnswer : M Slack.FetchResult :=
  λ w, (Some (slackApi w (slackCalls w)),
        mkWorld (db w) (envSlackBotToken w) (clock w) (slackApi w)
                (S (slackCalls w)) (outbox w) (random w) (uuid w) (uuidsDrawn w)).

(** [await fetch(url, ...)] of an endpoint that sends nothing to a user. *)
Definition fetch : M Slack.FetchResult :=
  let* r := nextAnswer in
  match r with
  | Slack.NetworkError => throw
  | _ => ret r
  end.

(** [await fetch("https://slack.com/api/chat.postMessage", ...)] *)
Definition postMessage (channel : string) (text : Slack.Text) : M Slack.FetchResult :=
  let* r := nextAnswer in
  run modify (λ w, mkWorld (db w) (envSlackBotToken w) (clock w) (slackApi w)
                 (slackCalls w) (outbox w ++ [Slack.mkOutbound channel text r])
                 (random w) (uuid w) (uuidsDrawn w)) in
  match r with
  | Slack.NetworkError => throw
  | _ => ret r
  end.

(** [await response.json()] *)
Definition json (r : Slack.FetchResult) : M Slack.Reply :=
  match r with
  | Slack.Json body => ret body
  | _ => throw
  end.

(* ===================================================================== *)
(** * 7. [DatabaseStorage] *)
(* ===================================================================== *)

Module Storage.

(** [db.update(table).set(...).where(eq(table.id, id))] *)
Definition updateWhere {A} (getId : A → string) (id : string) (f : A → A)
    (rows : list A) : list A :=
  (λ r, if decide (getId r = id) then f r else r) <$> rows.

Definition findParticipant (id : string) (ps : list Participant.t)
  : option Participant.t :=
  List.find (λ p, bool_decide (Participant.id p = id)) ps.

(** [with: { giver: true, receiver: true }].  The foreign keys make both
    participants exist; a row without them is not listed. *)
Definition withDetails (d : Database) (a : Assignment.t)
  : option AssignmentWithDetails.t :=
  match findParticipant (Assignment.giverId a) (participants d),
        findParticipant (Assignment.receiverId a) (participants d) with
  | Some g, Some r => Some (AssignmentWithDetails.mk a g r)
  | _, _ => None
  end.

(** The order in which [orderBy(participants.name)] lists the rows is
    not modelled. *)
Definition getParticipants : M (list Participant.t) :=
  gets (λ w, participants (db w)).

Definition createParticipant (mkRow : string → Participant.t)
  : M Participant.t :=
  let* id := genRandomUuid in
  let created := mkRow id in
  run modify (withDb (withParticipants (λ rows, rows ++ [created]))) in
  ret created.

(** [orderBy(events.id).limit(1)]: [createEvent] keeps the table at one
    row, the first of the list. *)
Definition getCurrentEvent : M (option Event.t) :=
  gets (λ w, head (events (db w))).

(** [InsertEvent]: name, status, scheduledDate. *)
Definition createEvent (name : Event.name_t) (status : string)
    (scheduledDate : option Z) : M Event.t :=
  let* existing := getCurrentEvent in
  match existing with
  | Some e =>
      let updated :=
        Event.mk (Event.id e) name scheduledDate status
                 (Event.matchingComplete e) (Event.notificationsSent e)
                 (Event.messageTemplate e) in
      run modify (withDb (withEvents
            (updateWhere Event.id (Event.id e) (λ _, updated)))) in
      ret updated
  | None =>
      let* id := genRandomUuid in
      let created :=
        Event.mk id name scheduledDate status (Some false) (Some false) None in
      run modify (withDb (withEvents (λ rows, rows ++ [created]))) in
      ret created
  end.

Definition updateEvent (id : string) (f : Event.t → Event.t) : M unit :=
  modify (withDb (withEvents (updateWhere Event.id id f))).

Definition getAssignments (eventId : string)
  : M (list AssignmentWithDetails.t) :=
  gets (λ w, omap (withDetails (db w))
               (filter (λ a, Assignment.eventId a = eventId)
                       (assignments (db w)))).

Definition getAllAssignmentsWithDetails : M (list AssignmentWithDetails.t) :=
  gets (λ w, omap (withDetails (db w)) (assignments (db w))).

(** [InsertAssignment] as [/api/events/match] fills it; the other
    columns take their defaults.  The insert fails on an identifier
    that is not a participant's. *)
Definition createAssignment (eventId giverId receiverId : string)
  : M Assignment.t :=
  let* ps := gets (λ w, participants (db w)) in
  match findParticipant giverId ps, findParticipant receiverId ps with
  | Some _, Some _ =>
      let* id := genRandomUuid in
      let created :=
        Assignment.mk id eventId giverId receiverId
          (Some false) None (Some false) None None None (Some false) in
      run modify (withDb (withAssignments (λ rows, rows ++ [created]))) in
      ret created
  | _, _ => throw
  end.

Definition clearAssignments (eventId : string) : M unit :=
  modify (withDb (withAssignments
            (filter (λ a, Assignment.eventId a ≠ eventId)))).

Definition updateAssignmentNotified (id : string) : M unit :=
  let* now := newDate in
  modify (withDb (withAssignments
            (updateWhere Assignment.id id (Assignment.setNotified now)))).

Definition updateAssignmentGiftStatus (id : string) (giftSent : bool) : M unit :=
  let* now := newDate in
  modify (withDb (withAssignments
            (updateWhere Assignment.id id
               (Assignment.setGiftStatus giftSent
                  (if giftSent then Some now else None))))).

(** A [Date] given to a query as the value of a timestamp column: the
    value sent to the database is [date.toISOString()], which throws a
    [RangeError] for the Invalid Date, before the statement is run. *)
Definition timestampValue (date : option Z) : M Z :=
  match date with
  | Some d => ret d
  | None => throw
  end.

Definition updateAssignmentReminderSent (id : string) (nextReminderAt : option Z)
  : M unit :=
  let* now := newDate in
  let* value := timestampValue nextReminderAt in
  modify (withDb (withAssignments
            (updateWhere Assignment.id id
               (Assignment.setReminderSent now value)))).

Definition updateAssignmentNextReminder (id : string) (nextReminderAt : option Z)
  : M unit :=
  let* value := timestampValue nextReminderAt in
  modify (withDb (withAssignments
            (updateWhere Assignment.id id
               (Assignment.setNextReminder value)))).

Definition updateAssignmentReceiverNotified (id : string) : M unit :=
  modify (withDb (withAssignments
            (updateWhere Assignment.id id Assignment.setReceiverNotified))).

(** [where: and(eq(notified, true), eq(giftSent, false))] *)
Definition needsReminder (a : Assignment.t) : Prop :=
  Assignment.notified a = Some true ∧ Assignment.giftSent a = Some false.

Global Instance needsReminder_dec a : Decision (needsReminder a).
Proof. unfold needsReminder. apply _. Defined.

Definition getAssignmentsNeedingReminder : M (list AssignmentWithDetails.t) :=
  gets (λ w, omap (withDetails (db w))
               (filter needsReminder (assignments (db w)))).

(** The row of the assignments table with the given primary key. *)
Definition lookupAssignment (id : string) (w : World) : option Assignment.t :=
  List.find (λ a, bool_decide (Assignment.id a = id)) (assignments (db w)).

Definition getExclusionPairs : M (list Matching.ExclusionPair) :=
  gets (λ w, (λ e, Matching.mkExclusionPair (Exclusion.participantId e)
                     (Exclusion.excludedParticipantId e))
             <$> exclusions (db w)).

(** [InsertExclusion]: the two identifiers.  The insert fails on an
    identifier that is not a participant's. *)
Definition createExclusion (participantId excludedParticipantId : string)
  : M Exclusion.t :=
  let* ps := gets (λ w, participants (db w)) in
  match findParticipant participantId ps,
        findParticipant excludedParticipantId ps with
  | Some _, Some _ =>
      let* id := genRandomUuid in
      let created := Exclusion.mk id participantId excludedParticipantId in
      run modify (withDb (withExclusions (λ rows, rows ++ [created]))) in
      ret created
  | _, _ => throw
  end.

(** [.limit(1)] *)
Definition getSlackSettings : M (option SlackSettings.t) :=
  gets (λ w, head (slackSettings (db w))).

Definition getSlackContactByUserId (slackUserId : string)
  : M (option SlackContact.t) :=
  gets (λ w, List.find (λ c, bool_decide (SlackContact.slackUserId c = slackUserId))
               (slackContacts (db w))).

Definition updateSlackContact (id : string) (p : SlackContact.patch) : M unit :=
  modify (withDb (withSlackContacts
            (updateWhere SlackContact.id id (SlackContact.apply p)))).

(** [orderBy(createdAt).limit(1)]: the oldest session of the user. *)
Definition getOnboardingSession (slackUserId : string) : M (option Session.t) :=
  gets (λ w, List.find (λ s, bool_decide (Session.slackUserId s = slackUserId))
               (slackOnboardingSessions (db w))).

Definition updateOnboardingSession (id : string) (newState : string)
    (u : Session.updates) : M unit :=
  let* now := newDate in
  modify (withDb (withSessions
            (updateWhere Session.id id (Session.apply newState u now)))).

End Storage.

(* ===================================================================== *)
(** * 8. The handlers of [server/routes.ts] *)
(* ===================================================================== *)

Module Server.
Import Storage.

Definition orNull (s : option string) : option string :=
  if JS.truthy s then s else None.

(** [getSlackToken]: the token of the settings row, else the one of the
    environment. *)
Definition getSlackToken : M (option string) :=
  let* settings := getSlackSettings in
  let fromEnv := gets (λ w, orNull (envSlackBotToken w)) in
  match settings with
  | Some s =>
      if JS.truthy (SlackSettings.botToken s)
      then ret (SlackSettings.botToken s) else fromEnv
  | None => fromEnv
  end.

Definition getAdminContactMention : M string :=
  let* settings := getSlackSettings in
  match settings with
  | Some s =>
      match orNull (SlackSettings.adminSlackId s) with
      | Some id => ret ("<@" +:+ id +:+ ">")
      | None => ret "the organizer"
      end
  | None => ret "the organizer"
  end.

(** [sendSlackNotification] *)
Definition sendSlackNotification (slackUserId : option string) (email : string)
    (giverName : string) (receiver : Slack.ReceiverDetails)
    (messageTemplate : option string) : M bool :=
  let* slackToken := getSlackToken in
  match slackToken with
  | None => ret false
  | Some _ =>
      tryCatch
        (let* userId :=
           (if negb (JS.truthy slackUserId) && JS.truthy (Some email) then
              let* lookupResponse := fetch in
              let* lookupData := json lookupResponse in
              match Slack.ok lookupData, Slack.user lookupData with
              | true, Some u => ret (Some (Slack.id u))
              | _, _ => ret slackUserId
              end
            else ret slackUserId) in
         match orNull userId with
         | None => ret false
         | Some channel =>
             let* adminContactMention := getAdminContactMention in
             let message :=
               Slack.AssignmentMessage (orNull messageTemplate) giverName
                 receiver adminContactMention in
             let* dmResponse := postMessage channel message in
             let* dmData := json dmResponse in
             ret (Slack.ok dmData)
         end)
        (ret false)
  end.

Definition receiverDetailsOf (p : Participant.t) : Slack.ReceiverDetails :=
  Slack.mkReceiverDetails (Participant.name p) (Participant.street p)
    (Participant.city p) (Participant.zip p) (Participant.country p)
    (Participant.phone p) (Participant.notes p) (Participant.wishlist p).

(** The tallies [{ sent, failed }] of a notification pass. *)
Record NotifyCounts := mkNotifyCounts { sent : nat; failed : nat }.

(** The [for] loop of [sendAllNotifications]. *)
Fixpoint notifyLoop (template : option string)
    (assignmentsData : list AssignmentWithDetails.t)
    (successCount failCount : nat) : M NotifyCounts :=
  match assignmentsData with
  | [] => ret (mkNotifyCounts successCount failCount)
  | assignment :: rest =>
      let a := AssignmentWithDetails.row assignment in
      let giver := AssignmentWithDetails.giver assignment in
      if bool_decide (Assignment.notified a = Some true) then
        notifyLoop template rest successCount failCount
      else
        let* success :=
          sendSlackNotification (Participant.slackUserId giver)
            (Participant.email giver) (Participant.name giver)
            (receiverDetailsOf (AssignmentWithDetails.receiver assignment))
            template in
        if success then
          run updateAssignmentNotified (Assignment.id a) in
          notifyLoop template rest (S successCount) failCount
        else
          notifyLoop template rest successCount (S failCount)
  end.

Definition markNotificationsSent (e : Event.t) : Event.t :=
  Event.mk (Event.id e) (Event.name e) (Event.scheduledDate e) "complete"
           (Event.matchingComplete e) (Some true) (Event.messageTemplate e).

(** [messageTemplate || event?.messageTemplate] *)
Definition chooseTemplate (messageTemplate : option string)
    (event : option Event.t) : option string :=
  if JS.truthy messageTemplate then messageTemplate
  else e ← event; Event.messageTemplate e.

Definition sendAllNotifications (eventId : string)
    (messageTemplate : option string) : M NotifyCounts :=
  let* assignmentsData := getAssignments eventId in
  let* event := getCurrentEvent in
  let template := chooseTemplate messageTemplate event in
  let* counts := notifyLoop template assignmentsData 0 0 in
  run (if (0 <? sent counts) || (failed counts =? 0) then
         match event with
         | Some e => updateEvent (Event.id e) markNotificationsSent
         | None => ret tt
         end
       else ret tt) in
  ret counts.

(** The sends of a notification pass in the order they are made: for each
    assignment that is not skipped, its key and what
    [sendSlackNotification] returned for it. *)
Fixpoint notifyOutcomes (template : option string)
    (assignmentsData : list AssignmentWithDetails.t) (w : World)
  : list (string * bool) :=
  match assignmentsData with
  | [] => []
  | assignment :: rest =>
      let a := AssignmentWithDetails.row assignment in
      let giver := AssignmentWithDetails.giver assignment in
      if bool_decide (Assignment.notified a = Some true) then
        notifyOutcomes template rest w
      else
        let '(success, w1) :=
          sendSlackNotification (Participant.slackUserId giver)
            (Participant.email giver) (Participant.name giver)
            (receiverDetailsOf (AssignmentWithDetails.receiver assignment))
            template w in
        match success with
        | Some true =>
            (Assignment.id a, true)
            :: notifyOutcomes template rest
                 (updateAssignmentNotified (Assignment.id a) w1).2
        | _ => (Assignment.id a, false) :: notifyOutcomes template rest w1
        end
  end.

(** The tallies [{ sent, failed, skipped }] of a reminder sweep. *)
Record ReminderCounts := mkReminderCounts {
  remindersSent : nat;
  remindersFailed : nat;
  remindersSkipped : nat
}.

(** What the sweep does with one assignment. *)
Inductive ReminderOutcome := Sent | Failed | Skipped.

Section Reminders.
Context `{Tz.ZoneDatabase}.
Import Schedule DateFns.

(** The body of the [for] loop of [sendGiftReminders], for one
    assignment: which of the three counters it increments. *)
Definition reminderStep (now : Z) (assignment : AssignmentWithDetails.t)
  : M ReminderOutcome :=
  let a := AssignmentWithDetails.row assignment in
  let giver := AssignmentWithDetails.giver assignment in
  let receiver := AssignmentWithDetails.receiver assignment in
  match Assignment.notifiedAt a, orNull (Participant.slackUserId giver) with
  | Some notifiedAt, Some channel =>
      match Assignment.nextReminderAt a with
      | None =>
          let firstReminderDate :=
            getFirstReminderDate (Participant.timezone giver) notifiedAt in
          let nextReminderAt :=
            if isBeforeDate firstReminderDate now
            then getNext10AMInTimezone (Participant.timezone giver) now
            else firstReminderDate in
          run updateAssignmentNextReminder (Assignment.id a) nextReminderAt in
          ret Skipped
      | Some nextReminderAt =>
          if isBefore now nextReminderAt then ret Skipped
          else
            let isFirstReminder :=
              negb (bool_decide (is_Some (Assignment.lastReminderAt a))) in
            let reminderMessage :=
              if isFirstReminder
              then Slack.FirstReminder (Participant.name giver)
                                       (Participant.name receiver)
              else Slack.DailyReminder (Participant.name giver)
                                       (Participant.name receiver) in
            tryCatch
              (let* dmResponse := postMessage channel reminderMessage in
               let* dmData := json dmResponse in
               if Slack.ok dmData then
                 let nextReminder :=
                   getNext10AMInTimezone (Participant.timezone giver) now in
                 run updateAssignmentReminderSent (Assignment.id a)
                       nextReminder in
                 ret Sent
               else ret Failed)
              (ret Failed)
      end
  | _, _ => ret Skipped
  end.

(** The [for] loop of [sendGiftReminders]. *)
Fixpoint reminderLoop (now : Z)
    (assignmentsNeedingReminder : list AssignmentWithDetails.t)
    (sent failed skipped : nat) : M ReminderCounts :=
  match assignmentsNeedingReminder with
  | [] => ret (mkReminderCounts sent failed skipped)
  | assignment :: rest =>
      let* outcome := reminderStep now assignment in
      match outcome with
      | Sent => reminderLoop now rest (S sent) failed skipped
      | Failed => reminderLoop now rest sent (S failed) skipped
      | Skipped => reminderLoop now rest sent failed (S skipped)
      end
  end.

Definition sendGiftReminders : M ReminderCounts :=
  let* slackToken := getSlackToken in
  match slackToken with
  | None => ret (mkReminderCounts 0 0 0)
  | Some _ =>
      let* assignmentsNeedingReminder := getAssignmentsNeedingReminder in
      let* now := newDate in
      reminderLoop now assignmentsNeedingReminder 0 0 0
  end.
End Reminders.

(** The test of [allAssignments.find] in [handleGiftConfirmation]. *)
Definition awaitsConfirmation (slackUserId : string)
    (a : AssignmentWithDetails.t) : bool :=
  bool_decide (Participant.slackUserId (AssignmentWithDetails.giver a)
               = Some slackUserId)
  && bool_decide (Assignment.notified (AssignmentWithDetails.row a) = Some true)
  && negb (bool_decide
             (Assignment.giftSent (AssignmentWithDetails.row a) = Some true))
  && bool_decide (is_Some (Assignment.lastReminderAt (AssignmentWithDetails.row a))).

Definition isYes (lowerText : string) : bool :=
  bool_decide (lowerText = "yes") || bool_decide (lowerText = "y")
  || JS.includes lowerText "sent" || JS.includes lowerText "done".

Definition isNo (lowerText : string) : bool :=
  bool_decide (lowerText = "no") || bool_decide (lowerText = "n")
  || JS.includes lowerText "not yet".

(** [handleGiftConfirmation]; the result is [handled]. *)
Definition handleGiftConfirmation (slackUserId lowerText slackToken : string)
  : M bool :=
  let* allAssignments := getAllAssignmentsWithDetails in
  match List.find (awaitsConfirmation slackUserId) allAssignments with
  | None => ret false
  | Some userAssignment =>
      let a := AssignmentWithDetails.row userAssignment in
      let receiver := AssignmentWithDetails.receiver userAssignment in
      if negb (isYes lowerText) && negb (isNo lowerText) then ret false
      else if isYes lowerText then
        run updateAssignmentGiftStatus (Assignment.id a) true in
        run (match orNull (Participant.slackUserId receiver) with
             | Some receiverChannel =>
                 if negb (bool_decide (Assignment.receiverNotified a = Some true))
                 then
                   run postMessage receiverChannel Slack.GiftOnItsWay in
                   updateAssignmentReceiverNotified (Assignment.id a)
                 else ret tt
             | None => ret tt
             end) in
        run postMessage slackUserId
              (Slack.ThanksForConfirming (Participant.name receiver)) in
        ret true
      else
        run postMessage slackUserId
              (Slack.Encouragement (Participant.name receiver)) in
        ret true
  end.

(** What the [switch] of [processSlackMessage] leaves behind when it does
    not return early. *)
Record Step := mkStep {
  responseMessage : option Slack.Prompt;
  newState : string;
  updates : Session.updates
}.

(** [`${value}`] of a nullable column. *)
Definition interpolate (s : option string) : string := default "null" s.

(** The [switch (session.conversationState)]; [None] is an early [return]. *)
Definition dispatch (session : Session.t) (contact : SlackContact.t)
    (messageText lowerText : string) : M (option Step) :=
  let state := Session.conversationState session in
  let stay (p : Slack.Prompt) :=
    ret (Some (mkStep (Some p) state Session.noUpdates)) in
  let len := String.length messageText in
  if decide (state = ONBOARDING_STATES.AWAITING_CONSENT) then
    if JS.includes lowerText "yes" || JS.includes lowerText "yeah"
       || JS.includes lowerText "sure" || JS.includes lowerText "ok" then
      run updateSlackContact (SlackContact.id contact)
            (SlackContact.mkPatch (Some CONTACT_STATUS.IN_PROGRESS) None) in
      ret (Some (mkStep (Some Slack.AskName)
                   ONBOARDING_STATES.COLLECTING_NAME Session.noUpdates))
    else if JS.includes lowerText "no" || JS.includes lowerText "nope"
            || JS.includes lowerText "decline" then
      let* now := newDate in
      run updateSlackContact (SlackContact.id contact)
            (SlackContact.mkPatch (Some CONTACT_STATUS.DECLINED) (Some now)) in
      ret (Some (mkStep (Some Slack.DeclinedAck)
                   ONBOARDING_STATES.DECLINED Session.noUpdates))
    else stay Slack.ConsentReprompt
  else if decide (state = ONBOARDING_STATES.COLLECTING_NAME) then
    if (2 <=? len) && (len <=? 100) then
      let collectedName := JS.titleCase messageText in
      ret (Some (mkStep (Some (Slack.AskCountry collectedName))
                   ONBOARDING_STATES.COLLECTING_COUNTRY
                   (Session.mkUpdates (Some collectedName)
                      None None None None None None)))
    else stay Slack.NameReprompt
  else if decide (state = ONBOARDING_STATES.COLLECTING_COUNTRY) then
    if 2 <=? len then
      ret (Some (mkStep (Some Slack.AskCity)
                   ONBOARDING_STATES.COLLECTING_CITY
                   (Session.mkUpdates None (Some (JS.titleCase messageText))
                      None None None None None)))
    else stay Slack.CountryReprompt
  else if decide (state = ONBOARDING_STATES.COLLECTING_CITY) then
    if 2 <=? len then
      ret (Some (mkStep (Some Slack.AskZip)
                   ONBOARDING_STATES.COLLECTING_ZIP
                   (Session.mkUpdates None None None
                      (Some (JS.titleCase messageText)) None None None)))
    else stay Slack.CityReprompt
  else if decide (state = ONBOARDING_STATES.COLLECTING_ZIP) then
    if 3 <=? len then
      ret (Some (mkStep (Some Slack.AskStreet)
                   ONBOARDING_STATES.COLLECTING_STREET
                   (Session.mkUpdates None None None None
                      (Some (JS.toUpperCase messageText)) None None)))
    else stay Slack.ZipReprompt
  else if decide (state = ONBOARDING_STATES.COLLECTING_STREET) then
    if 5 <=? len then
      ret (Some (mkStep (Some Slack.AskPhone)
                   ONBOARDING_STATES.COLLECTING_PHONE
                   (Session.mkUpdates None None (Some messageText)
                      None None None None)))
    else stay Slack.StreetReprompt
  else if decide (state = ONBOARDING_STATES.COLLECTING_PHONE) then
    let digits := JS.digitsOf messageText in
    if 7 <=? String.length digits then
      ret (Some (mkStep (Some Slack.AskNotes)
                   ONBOARDING_STATES.COLLECTING_NOTES
                   (Session.mkUpdates None None None None None
                      (Some messageText) None)))
    else stay Slack.PhoneReprompt
  else if decide (state = ONBOARDING_STATES.COLLECTING_NOTES) then
    let isSkip :=
      bool_decide (lowerText = "skip") || bool_decide (lowerText = "none")
      || bool_decide (lowerText = "n/a") in
    let collectedNotes :=
      if isSkip then None
      else if 0 <? len then Some messageText else None in
    let fullAddress :=
      interpolate (Session.collectedStreet session) +:+ ", " +:+
      interpolate (Session.collectedCity session) +:+ ", " +:+
      interpolate (Session.collectedZip session) +:+ ", " +:+
      interpolate (Session.collectedCountry session) in
    let* userTz :=
      tryCatch
        (let* slackToken := getSlackToken in
         match slackToken with
         | Some _ =>
             let* userInfoResponse := fetch in
             let* userInfoData := json userInfoResponse in
             match Slack.ok userInfoData, Slack.user userInfoData with
             | true, Some u => ret (Slack.tz u, Slack.tz_offset u)
             | _, _ => ret (None, None)
             end
         | None => ret (None, None)
         end)
        (ret (None, None)) in
    run createParticipant (λ id,
          Participant.mk id
            (default (SlackContact.displayName contact)
                     (orNull (Session.collectedName session)))
            (default (SlackContact.slackUsername contact +:+ "@slack.local")
                     (orNull (SlackContact.email contact)))
            (Some (SlackContact.slackUserId contact))
            fullAddress
            (Session.collectedCountry session)
            (Session.collectedCity session)
            (Session.collectedZip session)
            (Session.collectedStreet session)
            (Some (default EmptyString (orNull (Session.collectedPhone session))))
            None collectedNotes userTz.1 userTz.2) in
    let* now := newDate in
    run updateSlackContact (SlackContact.id contact)
          (SlackContact.mkPatch (Some CONTACT_STATUS.COMPLETED) (Some now)) in
    let* adminMention := getAdminContactMention in
    ret (Some (mkStep
           (Some (Slack.AllSet (Session.collectedName session)
                    (Session.collectedCountry session)
                    (Session.collectedCity session)
                    (Session.collectedZip session)
                    (Session.collectedStreet session)
                    (Session.collectedPhone session)
                    (orNull collectedNotes) adminMention))
           ONBOARDING_STATES.COMPLETED
           (Session.mkUpdates None None None None None None
              (if negb isSkip && (0 <? len) then Some messageText else None))))
  else
(* COMPLETED, DECLINED and default: the session is left alone *)
ret None.

(** [processSlackMessage] *)
Definition processSlackMessage (slackUserId messageText : string) : M unit :=
  let* slackToken := getSlackToken in
  match slackToken with
  | None => ret tt
  | Some token =>
      let lowerText := JS.trim (JS.toLowerCase messageText) in
      let* handled := handleGiftConfirmation slackUserId lowerText token in
      if handled : bool then ret tt
      else
        let* session := getOnboardingSession slackUserId in
        match session with
        | None => ret tt
        | Some session =>
            let* contact := getSlackContactByUserId slackUserId in
            match contact with
            | None => ret tt
            | Some contact =>
                let* step := dispatch session contact messageText lowerText in
                match step with
                | None => ret tt
                | Some st =>
                    run updateOnboardingSession (Session.id session)
                          (newState st) (updates st) in
                    match responseMessage st with
                    | Some prompt =>
                        run postMessage slackUserId (Slack.Onboarding prompt) in
                        ret tt
                    | None => ret tt
                    end
                end
            end
        end
  end.

End Server.

(* ===================================================================== *)
(** * 9. The routes for matching and for exclusions *)
(* ===================================================================== *)

Module Routes.
Import Storage.

(** What a route answers: the status and the JSON body. *)
Inductive Body :=
| ErrorBody (error : string)
| ZodIssues
| MatchDone (matchCount : nat)
| ExclusionCreated (exclusion : Exclusion.t).

Record Response := mkResponse { status : nat; body : Body }.

Definition TOO_FEW_PARTICIPANTS : string :=
  "Need at least 3 participants for Secret Santa".
Definition NO_VALID_MATCHING : string :=
  "Could not find a valid matching with the current exclusion rules. Try removing some exclusions.".

(** [generateMatching] drawing from the process's [Math.random]. *)
Definition generateMatching (participantIds : list string)
    (exclusionPairs : list Matching.ExclusionPair)
  : M (option (list Matching.Pair)) :=
  λ w, let '(result, _, g) :=
         Matching.generateMatchingRun participantIds exclusionPairs (random w) in
       (Some result,
        mkWorld (db w) (envSlackBotToken w) (clock w) (slackApi w) (slackCalls w)
                (outbox w) g (uuid w) (uuidsDrawn w)).

Fixpoint createAssignments (eventId : string) (matching : list Matching.Pair)
  : M unit :=
  match matching with
  | [] => ret tt
  | chosen :: rest =>
      run createAssignment eventId (Matching.giverId chosen)
            (Matching.receiverId chosen) in
      createAssignments eventId rest
  end.

Definition markMatched (e : Event.t) : Event.t :=
  Event.mk (Event.id e) (Event.name e) (Event.scheduledDate e) "matched"
           (Some true) (Event.notificationsSent e) (Event.messageTemplate e).

(** [app.post("/api/events/match", ...)] *)
Definition postEventsMatch : M Response :=
  tryCatch
    (let* current := getCurrentEvent in
     let* event :=
       match current with
       | Some e => ret e
       | None =>
           let* now := newDate in
           createEvent (Event.SecretSantaOfYear now) "draft" None
       end in
     let* participants := getParticipants in
     if length participants <? 3 then
       ret (mkResponse 400 (ErrorBody TOO_FEW_PARTICIPANTS))
     else
       let* exclusionPairs := getExclusionPairs in
       let participantIds := Participant.id <$> participants in
       let* matching := generateMatching participantIds exclusionPairs in
       match matching with
       | None => ret (mkResponse 400 (ErrorBody NO_VALID_MATCHING))
       | Some matching =>
           run clearAssignments (Event.id event) in
           run createAssignments (Event.id event) matching in
           run updateEvent (Event.id event) markMatched in
           ret (mkResponse 200 (MatchDone (length matching)))
       end)
    (ret (mkResponse 500 (ErrorBody "Failed to run matching"))).

(** A value of a JSON request body, as far as the schema looks at it. *)
Inductive JsonValue :=
| JNull
| JBool (b : bool)
| JNumber (n : Z)
| JString (s : string)
| JCompound.

(** [req.body]: the keys of the JSON object sent, if one was sent. *)
Definition RequestBody : Type := option (gmap string JsonValue).

(** [insertExclusionSchema.parse]: both identifiers must be present and
    be strings; other keys are dropped.  [None] is a thrown [ZodError]. *)
Definition insertExclusionSchema_parse (body : RequestBody)
  : option (string * string) :=
  fields ← body;
  match fields !! "participantId", fields !! "excludedParticipantId" with
  | Some (JString p), Some (JString e) => Some (p, e)
  | _, _ => None
  end.

(** [app.post("/api/exclusions", ...)] *)
Definition postExclusions (body : RequestBody) : M Response :=
  match insertExclusionSchema_parse body with
  | None => ret (mkResponse 400 ZodIssues)
  | Some (participantId, excludedParticipantId) =>
      tryCatch
        (let* exclusion := createExclusion participantId excludedParticipantId in
         ret (mkResponse 200 (ExclusionCreated exclusion)))
        (ret (mkResponse 500 (ErrorBody "Failed to create exclusion")))
  end.

End Routes.

(** The exclusion dialog of the client. *)
Module ExclusionDialog.

(** What a click on "add" does: show an error toast, or send the
    request. *)
Inductive Action :=
| Toast (title description : string)
| Post (body : Routes.RequestBody).

(** [handleAddExclusion], on the two selected identifiers. *)
Definition handleAddExclusion (participantId excludedId : string) : Action :=
  if negb (JS.truthy (Some participantId)) || negb (JS.truthy (Some excludedId))
  then Toast "Error" "Please select both participants."
  else if decide (participantId = excludedId)
  then Toast "Error" "Cannot exclude a participant from themselves."
  else Post (Some (<["participantId" := Routes.JString participantId]>
                   (<["excludedParticipantId" := Routes.JString excludedId]> ∅))).

End ExclusionDialog.

(* ===================================================================== *)
(** * 10. Concrete data for the examples *)
(* ===================================================================== *)

Module Examples.
Import DateFns.
Local Open Scope Z_scope.

Definition person (id name : string) (slackUserId timezone : option string)
  : Participant.t :=
  Participant.mk id name (name +:+ "@example.org") slackUserId "1 Main Street"
    None None None None None None None timezone None.

Definition alice := person "p1" "Alice" (Some "U1") (Some "Europe/Riga").
Definition bob := person "p2" "Bob" (Some "U2") None.
(** Carol was added by hand and has no Slack account on record. *)
Definition carol := person "p3" "Carol" None (Some "America/New_York").
(** Dave's profile names a zone the database does not know. *)
Definition dave := person "p4" "Dave" (Some "U4") (Some "Mars/Olympus").

(** A fresh row of the assignments table. *)
Definition assignment (id giverId receiverId : string) : Assignment.t :=
  Assignment.mk id "e1" giverId receiverId
    (Some false) None (Some false) None None None (Some false).

(** A row that was notified at [notifiedAt]. *)
Definition notifiedRow (id giverId receiverId : string) (notifiedAt : Z)
    (lastReminderAt nextReminderAt : option Z) : Assignment.t :=
  Assignment.mk id "e1" giverId receiverId
    (Some true) (Some notifiedAt) (Some false) None
    lastReminderAt nextReminderAt (Some false).

Definition event1 : Event.t :=
  Event.mk "e1" (Event.Named "Winter") None "matched" (Some true) (Some false) None.

Definition settings : SlackSettings.t :=
  SlackSettings.mk (Some "xoxb-token") None None (Some "UADMIN") None.

Definition replyOk : Slack.FetchResult := Slack.Json (Slack.mkReply true None).
Definition replyNotOk : Slack.FetchResult := Slack.Json (Slack.mkReply false None).

(** A world with the four participants, the given assignments, contacts
    and sessions, a Slack API that answers [api], and the clock at
    [now]. *)
Definition world (rows : list Assignment.t) (contacts : list SlackContact.t)
    (sessions : list Session.t) (api : nat → Slack.FetchResult) (now : Z)
  : World :=
  mkWorld
    (mkDatabase [alice; bob; carol; dave] [event1] rows [] [settings]
                contacts sessions)
    None now api 0 [] Matching.countingRng
    (λ n, String (ascii_of_nat (97 + n)) "-uuid") 0.

Definition alwaysOk : nat → Slack.FetchResult := λ _, replyOk.
(** The first call fails, the later ones succeed. *)
Definition failsOnce : nat → Slack.FetchResult :=
  λ n, match n with O => replyNotOk | _ => replyOk end.

Definition contactOf (id slackUserId name status : string) : SlackContact.t :=
  SlackContact.mk id slackUserId name name None status None None.

Definition sessionIn (id contactId slackUserId state : string) : Session.t :=
  Session.mk id contactId slackUserId state
    None None None None None None None None None.

(** Alice gives to Carol, Bob gives to Alice; both were reminded. *)
Definition reminded : World :=
  world [notifiedRow "a1" "p1" "p3" 1000 (Some 5000) None;
         notifiedRow "a2" "p2" "p1" 1000 (Some 5000) None]
        [] [] alwaysOk 9000.

Definition bobToAlice : AssignmentWithDetails.t :=
  AssignmentWithDetails.mk (notifiedRow "a2" "p2" "p1" 1000 (Some 5000) None)
    bob alice.

Definition aliceToCarol : AssignmentWithDetails.t :=
  AssignmentWithDetails.mk (notifiedRow "a1" "p1" "p3" 1000 (Some 5000) None)
    alice carol.

(** Three fresh assignments in a circle; Carol cannot be reached, and the
    first call of the Slack API is refused. *)
Definition matched : World :=
  world [assignment "a1" "p1" "p2"; assignment "a2" "p2" "p3";
         assignment "a3" "p3" "p1"]
        [] [] failsOnce 77.

(** A contact who was invited answers, mistypes a name and then gives
    it. *)
Definition invited : World :=
  world [] [contactOf "c1" "U9" "zed" "invited"]
    [sessionIn "s1" "c1" "U9" ONBOARDING_STATES.AWAITING_CONSENT] alwaysOk 5.

End Examples.

(* ===================================================================== *)
(** * 11. Vocabulary for the properties *)
(* ===================================================================== *)

(** [m] never throws. *)
Definition total {A} (m : M A) : Prop := ∀ w, is_Some (m w).1.

(** Every run of [m] relates the world it starts in to the world it ends
    in, whether it returns or throws. *)
Definition keeps {A} (R : relation World) (m : M A) : Prop :=
  ∀ w, R w (m w).2.

(** Nothing of the database and no clock reading changes. *)
Definition sameStore : relation World :=
  λ w w', db w' = db w ∧ clock w' = clock w.

(** The sessions table stays as it is. *)
Definition sameSessions : relation World :=
  λ w w', slackOnboardingSessions (db w') = slackOnboardingSessions (db w).

(** The outbox only grows, and by texts that satisfy [P]. *)
Definition outboxGrowsBy (P : Slack.Outbound → Prop) : relation World :=
  λ w w', ∃ sent, outbox w' = outbox w ++ sent ∧ Forall P sent.

(** An entry of the record of sends of a notification pass. *)
Definition succeeded (o : string * bool) : Prop := o.2 = true.
Definition failedSend (o : string * bool) : Prop := o.2 = false.

Global Instance succeeded_dec o : Decision (succeeded o).
Proof. unfold succeeded. apply _. Defined.
Global Instance failedSend_dec o : Decision (failedSend o).
Proof. unfold failedSend. apply _. Defined.

(** The assignments with their details, as the queries list them. *)
Definition assignmentViews (w : World) : list AssignmentWithDetails.t :=
  omap (Storage.withDetails (db w)) (assignments (db w)).

(** The receiver of the assignment can be told that the gift is on its
    way: a Slack identifier is on record and the flag is not set yet. *)
Definition receiverToNotify (v : AssignmentWithDetails.t) : option string :=
  if bool_decide (Assignment.receiverNotified (AssignmentWithDetails.row v)
                  = Some true)
  then None
  else Server.orNull (Participant.slackUserId (AssignmentWithDetails.receiver v)).

(** The texts of a list of calls that announce a gift. *)
Definition giftNotices (sent : list Slack.Outbound) : list Slack.Outbound :=
  filter (λ o, Slack.text o = Slack.GiftOnItsWay) sent.

(** The handler of gift confirmations run on one reply after the other. *)
Definition confirmAll (slackUserId token : string) (lowerTexts : list string)
    (w : World) : World :=
  foldl (λ w lowerText,
           (Server.handleGiftConfirmation slackUserId lowerText token w).2)
        w lowerTexts.

(** An update of a row that keeps its key and its two participants. *)
Definition keepsKeys (f : Assignment.t → Assignment.t) : Prop :=
  ∀ r, Assignment.id (f r) = Assignment.id r ∧
       Assignment.giverId (f r) = Assignment.giverId r ∧
       Assignment.receiverId (f r) = Assignment.receiverId r.

Definition updateView (id : string) (f : Assignment.t → Assignment.t)
    (v : AssignmentWithDetails.t) : AssignmentWithDetails.t :=
  if decide (Assignment.id (AssignmentWithDetails.row v) = id)
  then AssignmentWithDetails.mk (f (AssignmentWithDetails.row v))
         (AssignmentWithDetails.giver v) (AssignmentWithDetails.receiver v)
  else v.


(** The onboarding session that [processSlackMessage] works on. *)
Definition sessionOf (slackUserId : string) (w : World) : option Session.t :=
  List.find (λ s, bool_decide (Session.slackUserId s = slackUserId))
    (slackOnboardingSessions (db w)).

(** The place of a conversation state in the order of the conversation;
    the two terminal states come last. *)
Definition stateRank (state : string) : option nat :=
  if decide (state = ONBOARDING_STATES.INVITED) then Some 0
  else if decide (state = ONBOARDING_STATES.AWAITING_CONSENT) then Some 1
  else if decide (state = ONBOARDING_STATES.COLLECTING_NAME) then Some 2
  else if decide (state = ONBOARDING_STATES.COLLECTING_COUNTRY) then Some 3
  else if decide (state = ONBOARDING_STATES.COLLECTING_CITY) then Some 4
  else if decide (state = ONBOARDING_STATES.COLLECTING_ZIP) then Some 5
  else if decide (state = ONBOARDING_STATES.COLLECTING_STREET) then Some 6
  else if decide (state = ONBOARDING_STATES.COLLECTING_PHONE) then Some 7
  else if decide (state = ONBOARDING_STATES.COLLECTING_NOTES) then Some 8
  else if decide (state = ONBOARDING_STATES.COMPLETED) then Some 9
  else if decide (state = ONBOARDING_STATES.DECLINED) then Some 9
  else None.

(** The state stays where it is or moves forward. *)
Definition advances (state state' : string) : Prop :=
  state' = state ∨
  ∃ i j, stateRank state = Some i ∧ stateRank state' = Some j ∧ i < j.

Definition isTerminal (state : string) : Prop :=
  state = ONBOARDING_STATES.COMPLETED ∨ state = ONBOARDING_STATES.DECLINED.

(** What a step of the conversation may do to the session: hold the state
    and change no field, or move the state forward. *)
Definition stepAllowed (session : Session.t) (st : Server.Step) : Prop :=
  (Server.newState st = Session.conversationState session ∧
   Server.updates st = Session.noUpdates)
  ∨ ∃ i j, stateRank (Session.conversationState session) = Some i ∧
           stateRank (Server.newState st) = Some j ∧ i < j.

(** A later view [s'] of a session [s]: no collected field is lost, the
    state has not moved backward, and as long as the state is the same the
    fields are the same. *)
Record laterSession (s s' : Session.t) : Prop := {
  fields_kept : Session.collected s ⊆ Session.collected s';
  state_forward :
    advances (Session.conversationState s) (Session.conversationState s');
  held_unchanged :
    Session.conversationState s' = Session.conversationState s →
    ∀ f, Session.get f s' = Session.get f s
}.

(** The onboarding prompts among the calls of [chat.postMessage]. *)
Definition onboardingPrompts (sent : list Slack.Outbound) : list Slack.Outbound :=
  filter (λ o, Slack.isOnboarding (Slack.text o) = true) sent.

(** [processSlackMessage] run on one message of a user after the other. *)
Definition processAll (slackUserId : string) (messages : list string)
    (w : World) : World :=
  foldl (λ w messageText,
           (Server.processSlackMessage slackUserId messageText w).2)
        w messages.

(** Every value that [m] returns satisfies [Q]. *)
Definition returns {A} (Q : A → Prop) (m : M A) : Prop :=
  ∀ w a w', m w = (Some a, w') → Q a.

(** The text of the reminder that the sweep sends for an assignment: the
    first one, or a daily one once a reminder was sent. *)
Definition reminderText (v : AssignmentWithDetails.t) : Slack.Text :=
  if negb (bool_decide (is_Some (Assignment.lastReminderAt
                                   (AssignmentWithDetails.row v))))
  then Slack.FirstReminder (Participant.name (AssignmentWithDetails.giver v))
         (Participant.name (AssignmentWithDetails.receiver v))
  else Slack.DailyReminder (Participant.name (AssignmentWithDetails.giver v))
         (Participant.name (AssignmentWithDetails.receiver v)).

(** Slack took the message: the call came back with a reply that says
    [ok]. *)
Definition accepted (answer : Slack.FetchResult) : bool :=
  match answer with
  | Slack.Json reply => Slack.ok reply
  | _ => false
  end.




(* ===================================================================== *)
(** * 12. More vocabulary: the matching engine *)
(* ===================================================================== *)

Module MatchingSpec.
Import Matching.

(** The random source answers [draws], one after the other, from its
    cursor on. *)
Definition reads (g : Rng) (draws : list nat) : Prop :=
  ∀ k d, draws !! k = Some d → source g (cursor g + k) = d.

(** The source after [n] more numbers were drawn. *)
Definition advance (n : nat) (g : Rng) : Rng :=
  mkRng (source g) (cursor g + n).

(** A source that answers [draws] and then zeros. *)
Definition sourceOf (draws : list nat) : Rng :=
  mkRng (λ k, default 0 (draws !! k)) 0.

(** Every pair of the matching passes the engine's own test. *)
Definition accepted (exclusionSet : gset string) (m : list Pair) : Prop :=
  Forall (λ p, isValidAssignment exclusionSet (giverId p) (receiverId p) = true) m.

(** [m] is a matching of the participants: everybody gives once and
    receives once. *)
Definition matches (participantIds : list string) (m : list Pair) : Prop :=
  giverId <$> m ≡ₚ participantIds ∧ receiverId <$> m ≡ₚ participantIds.

(** [m] respects the rules: nobody gives to themselves and no pair is on
    the list of exclusions. *)
Definition respects (exclusionPairs : list ExclusionPair) (m : list Pair) : Prop :=
  Forall (λ p, giverId p ≠ receiverId p ∧
               mkExclusionPair (giverId p) (receiverId p) ∉ exclusionPairs) m.

(** All identifiers, of the participants and in the exclusions, have the
    length [len], as the keys that [gen_random_uuid()] makes have. *)
Definition uniformIds (len : nat) (participantIds : list string)
    (exclusionPairs : list ExclusionPair) : Prop :=
  Forall (λ i, String.length i = len) participantIds ∧
  Forall (λ p, String.length (participantId p) = len ∧
               String.length (excludedParticipantId p) = len) exclusionPairs.

End MatchingSpec.

(* ===================================================================== *)
(** * 13. The other methods of [DatabaseStorage] *)
(* ===================================================================== *)

Module InsertSlackSettings.
(** [InsertSlackSettings] as the routes build it: the three fields of the
    connection are always given; the two fields of the admin contact may
    be absent ([None]), and are [null] ([Some None]) or a value when
    present. *)
Record t := mk {
  botToken : option string;
  teamId : option string;
  teamName : option string;
  adminSlackId : option (option string);
  adminDisplayName : option (option string)
}.

(** [.set({ ...settings, updatedAt })]: an absent key leaves its column
    as it is. *)
Definition set (s : t) (old : SlackSettings.t) : SlackSettings.t :=
  SlackSettings.mk (botToken s) (teamId s) (teamName s)
    (default (SlackSettings.adminSlackId old) (adminSlackId s))
    (default (SlackSettings.adminDisplayName old) (adminDisplayName s)).

(** [.values(settings)]: an absent key takes the default of its column,
    [null]. *)
Definition values (s : t) : SlackSettings.t :=
  SlackSettings.mk (botToken s) (teamId s) (teamName s)
    (default None (adminSlackId s)) (default None (adminDisplayName s)).
End InsertSlackSettings.

Module ContactPatch.
(** [Partial<SlackContact>] with the keys that the invitation routes
    set. *)
Record t := mk {
  status : option string;
  invitedAt : option Z
}.

Definition apply (p : t) (c : SlackContact.t) : SlackContact.t :=
  SlackContact.mk (SlackContact.id c) (SlackContact.slackUserId c)
    (SlackContact.slackUsername c) (SlackContact.displayName c)
    (SlackContact.email c)
    (default (SlackContact.status c) (status p))
    (match invitedAt p with Some d => Some d | None => SlackContact.invitedAt c end)
    (SlackContact.respondedAt c).
End ContactPatch.

(** The order in which a query with [orderBy(slackContacts.displayName)]
    lists the rows is that of the collation of the database: some
    rearrangement of the rows, a parameter of the development. *)
Class QueryOrder := {
  orderByDisplayName : list SlackContact.t → list SlackContact.t;
  orderByDisplayName_Permutation l : orderByDisplayName l ≡ₚ l
}.

(** The rows in the order of the table. *)
Definition tableOrder : QueryOrder :=
  {| orderByDisplayName := λ l, l;
     orderByDisplayName_Permutation := λ l, reflexivity l |}.

Module DatabaseStorage.
Import Storage.

Definition withSlackSettings (f : list SlackSettings.t → list SlackSettings.t)
    (d : Database) : Database :=
  mkDatabase (participants d) (events d) (assignments d) (exclusions d)
             (f (slackSettings d)) (slackContacts d) (slackOnboardingSessions d).

(** The identifiers of participants that the rows of the other tables
    refer to: the foreign keys of [assignments] and [exclusions]. *)
Definition participantRefs (d : Database) : list string :=
  (Assignment.giverId <$> assignments d) ++ (Assignment.receiverId <$> assignments d)
  ++ (Exclusion.participantId <$> exclusions d)
  ++ (Exclusion.excludedParticipantId <$> exclusions d).

(** The foreign key of [assignments] into [events]. *)
Definition eventRefs (d : Database) : list string :=
  Assignment.eventId <$> assignments d.

(** The foreign key of [slackOnboardingSessions] into [slackContacts]. *)
Definition contactRefs (d : Database) : list string :=
  Session.slackContactId <$> slackOnboardingSessions d.

(** [db.delete(table).where(goes)] on a table that foreign keys point
    into.  The keys are declared without [onDelete]: the statement is
    refused, and throws, when a row that goes is still referred to. *)
Definition deleteReferenced {A} (getId : A → string) (goes : A → Prop)
    `{!∀ r, Decision (goes r)}
    (refs : Database → list string) (rows : Database → list A)
    (withRows : (list A → list A) → Database → Database) : M unit :=
  let* d := gets db in
  if existsb (λ r, bool_decide (goes r) && bool_decide (getId r ∈ refs d)) (rows d)
  then throw
  else modify (withDb (withRows (filter (λ r, ¬ goes r)))).

Definition deleteParticipant (id : string) : M unit :=
  run modify (withDb (withExclusions
        (filter (λ e, Exclusion.participantId e ≠ id)))) in
  run modify (withDb (withExclusions
        (filter (λ e, Exclusion.excludedParticipantId e ≠ id)))) in
  run modify (withDb (withAssignments
        (filter (λ a, Assignment.giverId a ≠ id)))) in
  run modify (withDb (withAssignments
        (filter (λ a, Assignment.receiverId a ≠ id)))) in
  deleteReferenced Participant.id (λ p, Participant.id p = id)
    participantRefs participants withParticipants.

(** The row that [getSlackSettings] finds is the one updated; the table
    is kept at one row. *)
Definition saveSlackSettings (settings : InsertSlackSettings.t)
  : M SlackSettings.t :=
  let* existing := getSlackSettings in
  match existing with
  | Some e =>
      let updated := InsertSlackSettings.set settings e in
      run modify (withDb (withSlackSettings (λ rows, updated :: tail rows))) in
      ret updated
  | None =>
      let created := InsertSlackSettings.values settings in
      run modify (withDb (withSlackSettings (λ rows, rows ++ [created]))) in
      ret created
  end.

Section Contacts.
Context `{QueryOrder}.

Definition getSlackContacts : M (list SlackContact.t) :=
  gets (λ w, orderByDisplayName (slackContacts (db w))).
End Contacts.

(** [InsertSlackContact] as [/api/slack/contacts/import] fills it.  The
    column [slack_user_id] is unique: the insert fails on an identifier
    that a contact has already. *)
Definition createSlackContact (slackUserId slackUsername displayName : string)
    (email : option string) (status : string) : M SlackContact.t :=
  let* existing := getSlackContactByUserId slackUserId in
  match existing with
  | Some _ => throw
  | None =>
      let* id := genRandomUuid in
      let created :=
        SlackContact.mk id slackUserId slackUsername displayName email status
                        None None in
      run modify (withDb (withSlackContacts (λ rows, rows ++ [created]))) in
      ret created
  end.

(** [updateSlackContact] with the keys of the invitation routes. *)
Definition updateSlackContact (id : string) (p : ContactPatch.t) : M unit :=
  modify (withDb (withSlackContacts
            (updateWhere SlackContact.id id (ContactPatch.apply p)))).

Definition deleteSlackContact (id : string) : M unit :=
  run modify (withDb (withSessions
        (filter (λ s, Session.slackContactId s ≠ id)))) in
  deleteReferenced SlackContact.id (λ c, SlackContact.id c = id)
    contactRefs slackContacts withSlackContacts.

(** [InsertSlackOnboardingSession] as the invitation route fills it; the
    collected fields are [null] and [lastInteractionAt] is the time of
    the insert.  The insert fails when [slackContactId] is no contact's
    key. *)
Definition createOnboardingSession (slackContactId slackUserId : string)
    (conversationState : string) (lastMessageTs : option string)
  : M Session.t :=
  let* contacts := gets (λ w, slackContacts (db w)) in
  if existsb (λ c, bool_decide (SlackContact.id c = slackContactId)) contacts then
    let* id := genRandomUuid in
    let* now := newDate in
    let created :=
      Session.mk id slackContactId slackUserId conversationState
        None None None None None None None lastMessageTs (Some now) in
    run modify (withDb (withSessions (λ rows, rows ++ [created]))) in
    ret created
  else throw.

Definition resetAll : M unit :=
  run modify (withDb (withAssignments (λ _, []))) in
  run modify (withDb (withExclusions (λ _, []))) in
  run deleteReferenced Participant.id (λ _, True)
        participantRefs participants withParticipants in
  run deleteReferenced Event.id (λ _, True) eventRefs events withEvents in
  run modify (withDb (withSessions (λ _, []))) in
  deleteReferenced SlackContact.id (λ _, True)
    contactRefs slackContacts withSlackContacts.

End DatabaseStorage.

(* ===================================================================== *)
(** * 14. The scheduler and the other routes of [server/routes.ts] *)
(* ===================================================================== *)

(** What the replies of the Slack API carry besides [ok] and [user]: the
    fields of the reply that the n-th [fetch] meets. *)
Class ReplyDetails := {
(** [ts] of a reply of [chat.postMessage] *)
ts : nat → option string;
(** [team], [team_id] and [error] of a reply of [auth.test] *)
team : nat → option string;
team_id : nat → option string;
error : nat → option string
}.

(** Replies that carry nothing besides [ok] and [user]. *)
Definition bareReplies : ReplyDetails :=
  {| ts := λ _, None; team := λ _, None; team_id := λ _, None;
     error := λ _, None |}.

Module Scheduler.
Import Storage Server.

(** [checkScheduledEvents], run every minute. *)
Definition checkScheduledEvents : M unit :=
  tryCatch
    (let* event := getCurrentEvent in
     match event with
     | None => ret tt
     | Some e =>
         let* now := newDate in
         match Event.scheduledDate e with
         | Some scheduledDate =>
             if bool_decide (Event.matchingComplete e = Some true)
                && negb (bool_decide (Event.notificationsSent e = Some true))
                && (scheduledDate <=? now)%Z
             then
               run sendAllNotifications (Event.id e) None in
               ret tt
             else ret tt
         | None => ret tt
         end
     end)
    (ret tt).

End Scheduler.

Module Api.
Import Storage DatabaseStorage Server.

(** An element of [req.body.users]. *)
Record SlackUser := mkSlackUser {
  id : string;
  name : string;
  realName : string;
  email : option string;
  address : option string
}.

(** The two invitation texts, with the name put into them. *)
Inductive InvitationText :=
| Invitation (displayName : string)
| InvitationReminder (displayName : string).

(** A call of [chat.postMessage] that carries an invitation, and what
    came of it.  The invitation routes return the calls they made, in
    order, beside their answer. *)
Record Invited := mkInvited {
  channel : string;
  text : InvitationText;
  response : Slack.FetchResult
}.

(** The JSON bodies that the routes answer. *)
Inductive Body :=
| Error (error : option string)
| Success
| EventJson (event : Event.t)
| Notified (sent failed : nat)
| UsersImported (importedNames skippedNames noEmailNames : list string)
| ContactsImported (importedNames skippedNames : list string)
| InvitationsSent (sent failed : nat)
| Connected (teamName teamId : option string).

Record Response := mkResponse { status : nat; body : Body }.

Definition failure (status : nat) (error : string) : Response :=
  mkResponse status (Error (Some error)).

(** [app.post("/api/events/schedule", ...)], on a body with a name and,
    if any, a date that [new Date] can read. *)
Definition postEventsSchedule (name : string) (scheduledDate : option Z)
  : M Response :=
  tryCatch
    (let* event := createEvent (Event.Named name) "scheduled" scheduledDate in
     ret (mkResponse 200 (EventJson event)))
    (ret (failure 500 "Failed to schedule event")).

(** [app.post("/api/events/notify", ...)] *)
Definition postEventsNotify : M Response :=
  tryCatch
    (let* event := getCurrentEvent in
     match event with
     | Some e =>
         if bool_decide (Event.matchingComplete e = Some true) then
           let* result := sendAllNotifications (Event.id e) None in
           ret (mkResponse 200 (Notified (sent result) (failed result)))
         else ret (failure 400 "No completed matching to notify")
     | None => ret (failure 400 "No completed matching to notify")
     end)
    (ret (failure 500 "Failed to send notifications")).

(** The [for] loop of [/api/slack/import]. *)
Fixpoint importUsers (users : list SlackUser)
    (imported skipped noEmail : list string)
  : M (list string * list string * list string) :=
  match users with
  | [] => ret (imported, skipped, noEmail)
  | user :: rest =>
      match orNull (email user) with
      | Some userEmail =>
          if JS.includes userEmail "@" then
            let* existingParticipants := getParticipants in
            let exists_ :=
              existsb (λ p, bool_decide (Participant.slackUserId p = Some (id user))
                            || bool_decide (Participant.email p = userEmail))
                      existingParticipants in
            if exists_ then
              importUsers rest imported (skipped ++ [realName user]) noEmail
            else
              run createParticipant (λ key,
                    Participant.mk key (realName user) userEmail (Some (id user))
                      (default "Address not provided" (orNull (address user)))
                      None None None None None None None None None) in
              importUsers rest (imported ++ [realName user]) skipped noEmail
          else importUsers rest imported skipped (noEmail ++ [realName user])
      | None => importUsers rest imported skipped (noEmail ++ [realName user])
      end
  end.

(** [app.post("/api/slack/import", ...)]; [None] is a body whose [users]
    is missing or is no array. *)
Definition postSlackImport (users : option (list SlackUser)) : M Response :=
  tryCatch
    (match users with
     | None | Some [] => ret (failure 400 "No users provided")
     | Some users =>
         let* result := importUsers users [] [] [] in
         let '(imported, skipped, noEmail) := result in
         ret (mkResponse 200 (UsersImported imported skipped noEmail))
     end)
    (ret (failure 500 "Failed to import users")).

(** The [for] loop of [/api/slack/contacts/import]. *)
Fixpoint importContacts (users : list SlackUser) (imported skipped : list string)
  : M (list string * list string) :=
  match users with
  | [] => ret (imported, skipped)
  | user :: rest =>
      let* existing := getSlackContactByUserId (id user) in
      match existing with
      | Some _ => importContacts rest imported (skipped ++ [realName user])
      | None =>
          run createSlackContact (id user) (name user) (realName user)
                (orNull (email user)) CONTACT_STATUS.IMPORTED in
          importContacts rest (imported ++ [realName user]) skipped
      end
  end.

(** [app.post("/api/slack/contacts/import", ...)] *)
Definition postSlackContactsImport (users : option (list SlackUser)) : M Response :=
  tryCatch
    (match users with
     | None | Some [] => ret (failure 400 "No users provided")
     | Some users =>
         let* result := importContacts users [] [] in
         let '(imported, skipped) := result in
         ret (mkResponse 200 (ContactsImported imported skipped))
     end)
    (ret (failure 500 "Failed to import contacts")).

(** [app.delete("/api/slack/settings", ...)] *)
Definition deleteSlackSettings : M Response :=
  tryCatch
    (run saveSlackSettings (InsertSlackSettings.mk None None None None None) in
     ret (mkResponse 200 Success))
    (ret (failure 500 "Failed to delete settings")).

Section WithReplies.
Context `{ReplyDetails}.

(** [app.post("/api/slack/settings", ...)] *)
Definition postSlackSettings (botToken : option string) : M Response :=
  tryCatch
    (match orNull botToken with
     | Some token =>
         if String.prefix "xoxb-" token then
           let* n := gets slackCalls in
           let* testResponse := fetch in
           let* testData := json testResponse in
           if Slack.ok testData then
             run saveSlackSettings
                   (InsertSlackSettings.mk (Some token) (orNull (team_id n))
                      (orNull (team n)) None None) in
             ret (mkResponse 200 (Connected (team n) (team_id n)))
           else
             ret (mkResponse 400
                    (Error (Some (default "Invalid token" (orNull (error n))))))
         else
           ret (failure 400
                  "Invalid bot token format. Token should start with 'xoxb-'")
     | None =>
         ret (failure 400
                "Invalid bot token format. Token should start with 'xoxb-'")
     end)
    (ret (failure 500 "Failed to save settings")).

Section WithOrder.
Context `{QueryOrder}.

(** The body of the [for] loop of [/api/slack/invitations/send] for one
    contact: whether [sent] is counted (else [failed]), and the call
    made. *)
Definition inviteStep (contact : SlackContact.t) : M (bool * Invited) :=
  let* n := gets slackCalls in
  let* answer := nextAnswer in
  let call :=
    mkInvited (SlackContact.slackUserId contact)
      (Invitation (SlackContact.displayName contact)) answer in
  let* counted :=
    tryCatch
      (let* dmResponse :=
         match answer with
         | Slack.NetworkError => throw
         | _ => ret answer
         end in
       let* dmData := json dmResponse in
       if Slack.ok dmData then
         run createOnboardingSession (SlackContact.id contact)
               (SlackContact.slackUserId contact)
               ONBOARDING_STATES.AWAITING_CONSENT (orNull (ts n)) in
         let* now := newDate in
         run updateSlackContact (SlackContact.id contact)
               (ContactPatch.mk (Some CONTACT_STATUS.INVITED) (Some now)) in
         ret true
       else ret false)
      (ret false) in
  ret (counted, call).

Fixpoint inviteLoop (pendingContacts : list SlackContact.t) (sent failed : nat)
    (calls : list Invited) : M (nat * nat * list Invited) :=
  match pendingContacts with
  | [] => ret (sent, failed, calls)
  | contact :: rest =>
      let* step := inviteStep contact in
      if step.1 : bool
      then inviteLoop rest (S sent) failed (calls ++ [step.2])
      else inviteLoop rest sent (S failed) (calls ++ [step.2])
  end.

(** [app.post("/api/slack/invitations/send", ...)] *)
Definition postSlackInvitationsSend : M (Response * list Invited) :=
  tryCatch
    (let* slackToken := getSlackToken in
     match slackToken with
     | None => ret (failure 400 "Slack not configured", [])
     | Some _ =>
         let* contacts := getSlackContacts in
         let pendingContacts :=
           filter (λ c, SlackContact.status c = CONTACT_STATUS.IMPORTED) contacts in
         if length pendingContacts =? 0 then
           ret (failure 400 "No contacts waiting for invitations", [])
         else
           let* result := inviteLoop pendingContacts 0 0 [] in
           let '(sent, failed, calls) := result in
           ret (mkResponse 200 (InvitationsSent sent failed), calls)
     end)
    (ret (failure 500 "Failed to send invitations", [])).

(** [app.post("/api/slack/invitations/resend/:contactId", ...)] *)
Definition postSlackInvitationsResend (contactId : string)
  : M (Response * list Invited) :=
  tryCatch
    (let* slackToken := getSlackToken in
     match slackToken with
     | None => ret (failure 400 "Slack not configured", [])
     | Some _ =>
         let* contacts := getSlackContacts in
         match List.find (λ c, bool_decide (SlackContact.id c = contactId)) contacts with
         | None => ret (failure 404 "Contact not found", [])
         | Some contact =>
             let* answer := nextAnswer in
             let call :=
               mkInvited (SlackContact.slackUserId contact)
                 (InvitationReminder (SlackContact.displayName contact)) answer in
             let* response :=
               tryCatch
                 (let* dmResponse :=
                    match answer with
                    | Slack.NetworkError => throw
                    | _ => ret answer
                    end in
                  let* dmData := json dmResponse in
                  if Slack.ok dmData then
                    let* now := newDate in
                    run updateSlackContact (SlackContact.id contact)
                          (ContactPatch.mk (Some CONTACT_STATUS.INVITED) (Some now)) in
                    ret (mkResponse 200 Success)
                  else ret (failure 400 "Failed to send message"))
                 (ret (failure 500 "Failed to resend invitation")) in
             ret (response, [call])
         end
     end)
    (ret (failure 500 "Failed to resend invitation", [])).

End WithOrder.
End WithReplies.

(** [app.patch("/api/assignments/:id/gift-status", ...)] *)
Definition patchAssignmentsGiftStatus (id : string) (giftSent : bool) : M Response :=
  tryCatch
    (run updateAssignmentGiftStatus id giftSent in
     run (if giftSent then
            let* allAssignments := getAllAssignmentsWithDetails in
            match List.find
                    (λ a, bool_decide
                            (Assignment.id (AssignmentWithDetails.row a) = id))
                    allAssignments with
            | Some assignment =>
                match orNull (Participant.slackUserId
                                (AssignmentWithDetails.receiver assignment)) with
                | Some receiverChannel =>
                    if negb (bool_decide
                               (Assignment.receiverNotified
                                  (AssignmentWithDetails.row assignment)
                                = Some true))
                    then
                      let* slackToken := getSlackToken in
                      match slackToken with
                      | Some _ =>
                          run postMessage receiverChannel Slack.GiftOnItsWay in
                          updateAssignmentReceiverNotified id
                      | None => ret tt
                      end
                    else ret tt
                | None => ret tt
                end
            | None => ret tt
            end
          else ret tt) in
     ret (mkResponse 200 Success))
    (ret (failure 500 "Failed to update gift status")).

End Api.

(* ===================================================================== *)
(** * 15. The login and the guard of [server/index.ts] *)
(* ===================================================================== *)

Module Auth.

Global Instance JsonValue_eq_dec : EqDecision Routes.JsonValue.
Proof. solve_decision. Defined.

(** A request below [/api], as the handlers of [index.ts] meet it: one of
    the three routes of the login, or a request that Express hands on to
    the guard, with its path below the mount. *)
Inductive Request :=
| Login (password : option Routes.JsonValue)
| Logout
| Check
| Through (path : string).

Inductive Reply :=
| Success
| Failure (status : nat) (error : string)
| AuthState (authenticated : bool)
(** the guard called [next()]: the request goes on to the routes *)
| Passed.





Global Instance Request_eq_dec : EqDecision Request.
Proof. solve_decision. Defined.




End Auth.

(* ===================================================================== *)
(** * 16. The phone numbers of Slack profiles ([formatPhoneNumber]) *)
(* ===================================================================== *)

Module Phone.

(** [s] without the prefix [p], if it starts with it. *)
Fixpoint stripPrefix (p s : string) : option string :=
  match p, s with
  | EmptyString, _ => Some s
  | String c p', String d s' => if Ascii.eqb c d then stripPrefix p' s' else None
  | String _ _, EmptyString => None
  end.

(** The longest prefix of characters other than [c], and the rest. *)
Fixpoint span (c : ascii) (s : string) : string * string :=
  match s with
  | EmptyString => (EmptyString, EmptyString)
  | String d s' =>
      if Ascii.eqb d c then (EmptyString, s)
      else let '(taken, rest) := span c s' in (String d taken, rest)
  end.

(** The pattern [[^c]+c] at the start of [s]: what the class matched,
    and what follows the [c].  The class takes every character up to the
    first [c]; taking fewer would leave a character other than [c] where
    [c] has to match. *)
Definition upTo (c : ascii) (s : string) : option (string * string) :=
  match span c s with
  | (String d taken, String _ rest) => Some (String d taken, rest)
  | _ => None
  end.

(** [/<tel:[^|]+\|([^>]+)>/] at the start of [s]: the capture. *)
Definition slackTelAt (s : string) : option string :=
  after ← stripPrefix "<tel:" s;
  number ← upTo "|" after;
  display ← upTo ">" number.2;
  Some display.1.

(** [/<tel:([^>]+)>/] at the start of [s]: the capture. *)
Definition simpleTelAt (s : string) : option string :=
  after ← stripPrefix "<tel:" s;
  number ← upTo ">" after;
  Some number.1.

(** [s.match(pattern)]: the capture of the leftmost match. *)
Fixpoint firstMatch (pattern : string → option string) (s : string)
  : option string :=
  match pattern s with
  | Some capture => Some capture
  | None =>
      match s with
      | EmptyString => None
      | String _ s' => firstMatch pattern s'
      end
  end.

Definition formatPhoneNumber (phone : option string) : option string :=
  match Server.orNull phone with
  | None => None
  | Some phone =>
      match firstMatch slackTelAt phone with
      | Some display => Some (JS.trim display)
      | None =>
          match firstMatch simpleTelAt phone with
          | Some number => Some (JS.trim number)
          | None => Some phone
          end
      end
  end.

(** The character [c] does not occur in [s]. *)
Fixpoint lacks (c : ascii) (s : string) : bool :=
  match s with
  | EmptyString => true
  | String d s' => negb (Ascii.eqb d c) && lacks c s'
  end.

End Phone.

(* ===================================================================== *)
(** * 17. More vocabulary: the tables and the routes *)
(* ===================================================================== *)

(** The foreign keys into [participants] hold: every assignment and every
    exclusion names participants of the table. *)
Definition participantsResolve (d : Database) : Prop :=
  ∀ id, id ∈ DatabaseStorage.participantRefs d →
        id ∈ Participant.id <$> participants d.

(** The foreign key into [slackContacts] holds. *)
Definition contactsResolve (d : Database) : Prop :=
  ∀ id, id ∈ DatabaseStorage.contactRefs d →
        id ∈ SlackContact.id <$> slackContacts d.

(** The Slack identifiers of the contacts, in the order of the table. *)
Definition contactUserIds (w : World) : list string :=
  SlackContact.slackUserId <$> slackContacts (db w).

(** The contact of a Slack user. *)
Definition contactOf (slackUserId : string) (w : World) : option SlackContact.t :=
  List.find (λ c, bool_decide (SlackContact.slackUserId c = slackUserId))
    (slackContacts (db w)).

(** The notices that a gift is on its way among the calls made to
    [channel]. *)
Definition giftNoticesTo (channel : string) (sent : list Slack.Outbound)
  : list Slack.Outbound :=
  filter (λ o, Slack.channel o = channel ∧ Slack.text o = Slack.GiftOnItsWay) sent.

(** What is done about the gift of an assignment: the admin sets the
    status on the dashboard, or a giver answers a reminder. *)
Inductive GiftAction :=
| AdminSets (assignmentId : string) (giftSent : bool)
| GiverReplies (slackUserId lowerText slackToken : string).

Definition doGiftAction (w : World) (action : GiftAction) : World :=
  match action with
  | AdminSets id giftSent => (Api.patchAssignmentsGiftStatus id giftSent w).2
  | GiverReplies u lowerText token =>
      (Server.handleGiftConfirmation u lowerText token w).2
  end.

(** The event is due for the scheduler: a date that has come, a matching,
    and no notifications sent yet. *)
Definition dueForNotification (now : Z) (e : Event.t) : Prop :=
  (∃ scheduledDate, Event.scheduledDate e = Some scheduledDate ∧
                    (scheduledDate ≤ now)%Z) ∧
  Event.matchingComplete e = Some true ∧
  Event.notificationsSent e ≠ Some true.

Global Instance dueForNotification_dec now e : Decision (dueForNotification now e).
Proof.
  unfold dueForNotification.
  destruct (Event.scheduledDate e) as [d|].
  - destruct (decide ((d ≤ now)%Z ∧ Event.matchingComplete e = Some true ∧
                      Event.notificationsSent e ≠ Some true)) as [Hy|Hn].
    + left. destruct Hy as (? & ? & ?). split; [by exists d|done].
    + right. intros [(d' & [= <-] & ?) [? ?]]. by apply Hn.
  - right. by intros [(d' & [=] & _) _].
Defined.

(** The onboarding stands still: the participants, the contacts and the
    sessions stay as they are. *)
Definition onboardingStill : relation World :=
  λ w w', participants (db w') = participants (db w) ∧
          slackContacts (db w') = slackContacts (db w) ∧
          slackOnboardingSessions (db w') = slackOnboardingSessions (db w).

(** The test [existingParticipants.some(...)] of the import of users: the
    participant has the Slack identifier of the user or the address. *)
Definition knownAs (user : Api.SlackUser) (userEmail : string)
    (p : Participant.t) : bool :=
  bool_decide (Participant.slackUserId p = Some (Api.id user))
  || bool_decide (Participant.email p = userEmail).

(** The user has the address [userEmail], and it has an at sign. *)
Definition usableEmail (user : Api.SlackUser) (userEmail : string) : Prop :=
  Server.orNull (Api.email user) = Some userEmail ∧
  JS.includes userEmail "@" = true.

(** What the [k]-th [fetch] from now on meets. *)
Definition answerAt (w : World) (k : nat) : Slack.FetchResult :=
  slackApi w (slackCalls w + k).

(** The contacts of a list whose calls are accepted, the [k]-th contact
    meeting the [k]-th answer. *)
Fixpoint acceptedOf (answers : nat → Slack.FetchResult)
    (pending : list SlackContact.t) : list SlackContact.t :=
  match pending with
  | [] => []
  | contact :: rest =>
      if accepted (answers 0)
      then contact :: acceptedOf (λ k, answers (S k)) rest
      else acceptedOf (λ k, answers (S k)) rest
  end.

(** A contact as an accepted invitation leaves it. *)
Definition invited (now : Z) (c : SlackContact.t) : SlackContact.t :=
  ContactPatch.apply
    (ContactPatch.mk (Some CONTACT_STATUS.INVITED) (Some now)) c.

(** The contacts that wait for an invitation, as the route lists them. *)
Definition pendingContacts `{QueryOrder} (w : World) : list SlackContact.t :=
  filter (λ c, SlackContact.status c = CONTACT_STATUS.IMPORTED)
         (orderByDisplayName (slackContacts (db w))).

(** A session as the invitation route opens it for a contact. *)
Definition opensFor (c : SlackContact.t) (s : Session.t) : Prop :=
  Session.slackContactId s = SlackContact.id c ∧
  Session.slackUserId s = SlackContact.slackUserId c ∧
  Session.conversationState s = ONBOARDING_STATES.AWAITING_CONSENT ∧
  Session.collected s = [].

(** Everything but the contacts, the sessions, the count of the calls
    made and the identifiers drawn is as before. *)
Definition onlyInvitations : relation World :=
  λ w w', participants (db w') = participants (db w) ∧
          events (db w') = events (db w) ∧
          assignments (db w') = assignments (db w) ∧
          exclusions (db w') = exclusions (db w) ∧
          slackSettings (db w') = slackSettings (db w) ∧
          envSlackBotToken w' = envSlackBotToken w ∧
          clock w' = clock w ∧
          slackApi w' = slackApi w ∧
          outbox w' = outbox w.

(** The contact after a run that had the calls of [ok] accepted. *)
Definition markInvited (now : Z) (ok : list SlackContact.t)
    (c : SlackContact.t) : SlackContact.t :=
  if bool_decide (SlackContact.id c ∈ SlackContact.id <$> ok)
  then invited now c else c.

(** The answer to an invitation that the conversation takes for a yes. *)
Definition consents (messageText : string) : bool :=
  let lowerText := JS.trim (JS.toLowerCase messageText) in
  JS.includes lowerText "yes" || JS.includes lowerText "yeah"
  || JS.includes lowerText "sure" || JS.includes lowerText "ok".

(** The call reached Slack: [fetch] did not reject. *)
Definition reached (o : Slack.Outbound) : bool :=
  match Slack.response o with
  | Slack.NetworkError => false
  | _ => true
  end.

(** The receiver of the assignment is reached at [channel] and has not
    been told that the gift is on its way. *)
Definition untold (channel : string) (v : AssignmentWithDetails.t) : Prop :=
  Server.orNull (Participant.slackUserId (AssignmentWithDetails.receiver v))
    = Some channel ∧
  Assignment.receiverNotified (AssignmentWithDetails.row v) ≠ Some true.

Global Instance untold_dec channel v : Decision (untold channel v).
Proof. unfold untold. apply _. Defined.

(** The notices about a gift that reached Slack for [channel] so far,
    and the assignments that can still bring one. *)
Definition noticesReached (channel : string) (w : World) : nat :=
  length (filter (λ o, reached o = true) (giftNoticesTo channel (outbox w))).

Definition noticesOpen (channel : string) (w : World) : nat :=
  length (filter (untold channel) (assignmentViews w)).

(** No notice beyond the open ones: what reached Slack and what is open
    has not grown. *)
Definition noExtraNotice (channel : string) : relation World :=
  λ w w', noticesReached channel w' + noticesOpen channel w'
          ≤ noticesReached channel w + noticesOpen channel w.

(** The assignments of an event with their details, as
    [storage.getAssignments] lists them. *)
Definition eventViews (e : Event.t) (w : World) : list AssignmentWithDetails.t :=
  omap (Storage.withDetails (db w))
       (filter (λ a, Assignment.eventId a = Event.id e) (assignments (db w))).

(** The sends that a pass of the scheduler for the event [e] makes. *)
Definition scheduledOutcomes (e : Event.t) (w : World) : list (string * bool) :=
  Server.notifyOutcomes (Server.chooseTemplate None (Some e)) (eventViews e w) w.

(** The test [successCount > 0 || failCount === 0] on the sends of a
    pass. *)
Definition passCloses (outcomes : list (string * bool)) : Prop :=
  filter succeeded outcomes ≠ [] ∨ filter failedSend outcomes = [].

Global Instance passCloses_dec outcomes : Decision (passCloses outcomes).
Proof. unfold passCloses. apply _. Defined.

(** The notifications of the current event are marked as sent. *)
Definition announced (w : World) : Prop :=
  ∃ e, head (events (db w)) = Some e ∧ Event.notificationsSent e = Some true.

(** An announced event stays announced, and nothing is sent. *)
Definition quiet : relation World :=
  λ w w', announced w → announced w' ∧ outbox w' = outbox w.

(** What the admin and the timer do about an event: a new matching, a new
    date, a tick of the scheduler. *)
Inductive PlanAction :=
| Rematch
| Reschedule (name : string) (scheduledDate : option Z)
| Tick.

Definition doPlanAction (w : World) (action : PlanAction) : World :=
  match action with
  | Rematch => (Routes.postEventsMatch w).2
  | Reschedule name scheduledDate =>
      (Api.postEventsSchedule name scheduledDate w).2
  | Tick => (Scheduler.checkScheduledEvents w).2
  end.
(* ===================================================================== *)
(** * Properties of the matching engine *)
(* ===================================================================== *)

Section MatchingFacts.
Import Matching.

Section ShuffleFacts.
Context {A : Type}.
Implicit Types l : list A.

Lemma swap_Permutation l i j : swap l i j ≡ₚ l.
Proof.
  unfold swap.
  destruct (l !! i) as [x|] eqn:Hi; [|done].
  destruct (l !! j) as [y|] eqn:Hj; [|done].
  by apply Permutation_insert_swap.
Qed.

Lemma shuffleFrom_Permutation i l g : (shuffleFrom i l g).1 ≡ₚ l.
Proof.
  revert l g. induction i as [|i IH]; intros l g; [done|].
  cbn [shuffleFrom]. destruct (randomBelow (S i + 1) g) as [j g1].
  rewrite IH. apply swap_Permutation.
Qed.

Lemma shuffle_Permutation l g : (shuffle l g).1 ≡ₚ l.
Proof. apply shuffleFrom_Permutation. Qed.
End ShuffleFacts.

Lemma elem_of_foldl_keys (pairs : list ExclusionPair) (acc : gset string) k :
  k ∈ foldl (λ acc pair,
       acc ∪ {[ exclusionKey (participantId pair) (excludedParticipantId pair) ]})
     acc pairs
  ↔ k ∈ acc ∨ ∃ p, p ∈ pairs ∧
        k = exclusionKey (participantId p) (excludedParticipantId p).
Proof.
  revert acc. induction pairs as [|p pairs IH]; intros acc; simpl.
  - split; [auto|]. intros [?|(p & Hp & _)]; [done|]. by apply elem_of_nil in Hp.
  - rewrite IH, elem_of_union, elem_of_singleton. split.
    + intros [[?| ->]|(q & ? & ->)]; [by left| |].
      * right. exists p. split; [left|done].
      * right. exists q. split; [by right|done].
    + intros [?|(q & [ ->|?]%elem_of_cons & ->)]; [by left; left|by left; right|].
      right. by exists q.
Qed.

Lemma elem_of_buildExclusionSet pairs k :
  k ∈ buildExclusionSet pairs
  ↔ ∃ p, p ∈ pairs ∧ k = exclusionKey (participantId p) (excludedParticipantId p).
Proof.
  unfold buildExclusionSet. rewrite elem_of_foldl_keys. split.
  - intros [H|H]; [by apply not_elem_of_empty in H|done].
  - by right.
Qed.

(** A pair the engine accepts is neither a self-pair nor an excluded one. *)
Lemma isValidAssignment_sound pairs giver receiver :
  isValidAssignment (buildExclusionSet pairs) giver receiver = true →
  giver ≠ receiver ∧ mkExclusionPair giver receiver ∉ pairs.
Proof.
  unfold isValidAssignment. repeat case_decide; try done.
  intros _. split; [done|]. intros Hin.
  match goal with H : ¬ _ ∈ buildExclusionSet _ |- _ => apply H end.
  apply elem_of_buildExclusionSet. by eexists.
Qed.

Lemma fmap_giverId_zip (gs rs : list string) :
  length gs = length rs → giverId <$> zip_with mkPair gs rs = gs.
Proof.
  revert rs. induction gs as [|x gs IH]; intros [|r rs] ?; simplify_eq/=; [done|].
  f_equal. by apply IH.
Qed.

Lemma fmap_receiverId_zip (gs rs : list string) :
  length gs = length rs → receiverId <$> zip_with mkPair gs rs = rs.
Proof.
  revert rs. induction gs as [|x gs IH]; intros [|r rs] ?; simplify_eq/=; [done|].
  f_equal. by apply IH.
Qed.

Section Search.
Variable exclusionSet : gset string.

Lemma tryReceivers_Some recurse giver receivers current candidates g found g' :
  tryReceivers exclusionSet recurse giver receivers current candidates g
    = (Some found, g') →
  ∃ receiver g1 g2,
    receiver ∈ candidates ∧
    isValidAssignment exclusionSet giver receiver = true ∧
    recurse (filter (λ r, r ≠ receiver) receivers)
            (current ++ [mkPair giver receiver]) g1 = (Some found, g2).
Proof.
  revert g. induction candidates as [|c rest IH]; intros g; simpl; [done|].
  destruct (isValidAssignment exclusionSet giver c) eqn:Hv.
  - destruct (recurse _ _ g) as [[f|] g1] eqn:Hr.
    + intros [= -> ->]. exists c, g, g'. split; [left|done].
    + intros (r & ga & gb & ? & ? & ?)%IH. exists r, ga, gb.
      split; [by right|done].
  - intros (r & ga & gb & ? & ? & ?)%IH. exists r, ga, gb.
    split; [by right|done].
Qed.

Lemma findAssignment_sound givers receivers current g found g' :
  findAssignment exclusionSet givers receivers current g = (Some found, g') →
  ∃ rs, found = current ++ zip_with mkPair givers rs ∧ picks exclusionSet givers receivers rs.
Proof.
  revert receivers current g g'.
  induction givers as [|giver givers IH]; intros receivers current g g'; simpl.
  - intros [= <- _]. exists []. rewrite app_nil_r. split; [done|].
    repeat split; [constructor|by intros ? ?%elem_of_nil|constructor].
  - destruct (shuffle receivers g) as [shuffled g1] eqn:Hs.
    intros (r & ga & gb & Hr & Hv & Hrec)%tryReceivers_Some.
    apply IH in Hrec as (rs & -> & Hnd & Hsub & Hall).
    exists (r :: rs). split; [by rewrite <-app_assoc|].
    assert (r ∈ receivers).
    { pose proof (shuffle_Permutation receivers g) as Hp.
      rewrite Hs in Hp. simpl in Hp. by rewrite <-Hp. }
    repeat split.
    + constructor; [|done]. intros [? _]%Hsub%list_elem_of_filter. done.
    + intros x [ ->|Hx]%elem_of_cons; [done|].
      by apply Hsub, list_elem_of_filter in Hx as [_ ?].
    + by constructor.
Qed.

Lemma attemptLoop_Some ids remaining attempt g found n g' :
  attemptLoop exclusionSet ids remaining attempt g = (Some found, n, g') →
  ∃ givers receivers g1 g2,
    givers ≡ₚ ids ∧ receivers ≡ₚ ids ∧
    findAssignment exclusionSet givers receivers [] g1 = (Some found, g2).
Proof.
  revert attempt g. induction remaining as [|k IH]; intros attempt g; simpl; [done|].
  destruct (shuffle ids g) as [sg g1] eqn:H1.
  destruct (shuffle ids g1) as [sr g2] eqn:H2.
  destruct (findAssignment exclusionSet sg sr [] g2) as [[f|] g3] eqn:H3.
  - intros [= -> _ ->]. exists sg, sr, g2, g'. split_and!; [| |done].
    + pose proof (shuffle_Permutation ids g) as Hp. by rewrite H1 in Hp.
    + pose proof (shuffle_Permutation ids g1) as Hp. by rewrite H2 in Hp.
  - apply IH.
Qed.

Lemma attemptLoop_count ids remaining attempt g :
  (attemptLoop exclusionSet ids remaining attempt g).1.2 ≤ attempt + remaining.
Proof.
  revert attempt g. induction remaining as [|k IH]; intros attempt g; simpl; [lia|].
  destruct (shuffle ids g) as [sg g1].
  destruct (shuffle ids g1) as [sr g2].
  destruct (findAssignment exclusionSet sg sr [] g2) as [[f|] g3]; simpl; [lia|].
  specialize (IH (S attempt) g3). lia.
Qed.
End Search.


Lemma generateMatchingRun_Some ids pairs g found n g' :
  generateMatchingRun ids pairs g = (Some found, n, g') →
  ∃ givers receivers g1 g2,
    givers ≡ₚ ids ∧ receivers ≡ₚ ids ∧
    findAssignment (buildExclusionSet pairs) givers receivers [] g1
      = (Some found, g2).
Proof.
  unfold generateMatchingRun. destruct (length ids <? 2); [done|].
  apply attemptLoop_Some.
Qed.

(** The shape of a result: the shuffled givers, each with a receiver of
    its own, the receivers being the participants in some order. *)
Lemma generateMatching_picks ids pairs g m :
  generateMatching ids pairs g = Some m →
  ∃ givers rs,
    m = zip_with mkPair givers rs ∧ length givers = length rs ∧
    givers ≡ₚ ids ∧ rs ≡ₚ ids ∧ NoDup ids ∧
    Forall2 (λ gv r, isValidAssignment (buildExclusionSet pairs) gv r = true)
            givers rs.
Proof.
  unfold generateMatching.
  destruct (generateMatchingRun ids pairs g) as [[res n] g'] eqn:Hrun.
  simpl. intros ->.
  apply generateMatchingRun_Some in Hrun
    as (givers & receivers & g1 & g2 & Hg & Hr & Hfind).
  apply findAssignment_sound in Hfind as (rs & -> & Hnd & Hsub & Hall).
  pose proof (Forall2_length _ _ _ Hall) as Hlen.
  assert (rs ≡ₚ receivers) as Hrs.
  { apply submseteq_length_Permutation; [by apply NoDup_submseteq|].
    rewrite <-Hlen, Hg, Hr. done. }
  rewrite Hr in Hrs.
  exists givers, rs. split_and!; try done. by rewrite <-Hrs.
Qed.

Lemma accepted_pairs pairs (givers rs : list string) :
  Forall2 (λ gv r, isValidAssignment (buildExclusionSet pairs) gv r = true)
          givers rs →
  Forall (λ p, giverId p ≠ receiverId p ∧
               mkExclusionPair (giverId p) (receiverId p) ∉ pairs)
         (zip_with mkPair givers rs).
Proof.
  induction 1 as [|gv r gs rs' Hv _ IH]; simpl; [constructor|].
  constructor; [|done]. simpl. by apply isValidAssignment_sound.
Qed.

(** C1. Whatever the participant list, the exclusion pairs and the random
    source, a result returned by [generateMatching] uses every participant
    exactly once as a giver and exactly once as a receiver, pairs nobody
    with themselves and contains no excluded pair. *)
Theorem generateMatching_valid ids pairs g m :
  generateMatching ids pairs g = Some m →
  (giverId <$> m ≡ₚ ids ∧ NoDup (giverId <$> m)) ∧
  (receiverId <$> m ≡ₚ ids ∧ NoDup (receiverId <$> m)) ∧
  Forall (λ p, giverId p ≠ receiverId p) m ∧
  Forall (λ p, mkExclusionPair (giverId p) (receiverId p) ∉ pairs) m.
Proof.
  intros (givers & rs & -> & Hlen & Hg & Hr & Hids & Hall)%generateMatching_picks.
  rewrite fmap_giverId_zip, fmap_receiverId_zip by done.
  apply accepted_pairs in Hall.
  split_and!.
  - done.
  - by rewrite Hg.
  - done.
  - by rewrite Hr.
  - eapply Forall_impl; [exact Hall|]. by intros p [? _].
  - eapply Forall_impl; [exact Hall|]. by intros p [_ ?].
Qed.

Lemma generateMatching_valid_witness :
  let ids := ["a"; "b"; "c"; "d"] in
  let m := [mkPair "c" "d"; mkPair "d" "b"; mkPair "b" "a"; mkPair "a" "c"] in
  generateMatching ids [mkExclusionPair "a" "b"] countingRng = Some m ∧
  (giverId <$> m ≡ₚ ids ∧ NoDup (giverId <$> m)) ∧
  (receiverId <$> m ≡ₚ ids ∧ NoDup (receiverId <$> m)) ∧
  Forall (λ p, giverId p ≠ receiverId p) m ∧
  Forall (λ p, mkExclusionPair (giverId p) (receiverId p) ∉ [mkExclusionPair "a" "b"]) m.
Proof.
  intros ids m. split; [vm_compute; reflexivity|].
  apply (generateMatching_valid ids _ countingRng). vm_compute. reflexivity.
Defined.

(** Nothing is returned when everybody excludes everybody else. *)
Lemma excludesAllOthers_None ids pairs g :
  excludesAllOthers ids pairs = true → 2 ≤ length ids →
  generateMatching ids pairs g = None.
Proof.
  intros Hex Hlen.
  destruct (generateMatching ids pairs g) as [m|] eqn:Hm; [exfalso|done].
  apply generateMatching_picks in Hm
    as (givers & rs & _ & _ & Hg & Hr & _ & Hall).
  destruct Hall as [|gv r gs rs' Hv _].
  { apply Permutation_length in Hg. simpl in Hg. lia. }
  assert (gv ∈ ids) as Hgi by (rewrite <-Hg; left).
  assert (r ∈ ids) as Hri by (rewrite <-Hr; left).
  apply isValidAssignment_sound in Hv as [Hne Hnex].
  unfold excludesAllOthers in Hex. rewrite forallb_forall in Hex.
  apply list_elem_of_In, Hex in Hgi. rewrite forallb_forall in Hgi.
  apply list_elem_of_In, Hgi in Hri.
  apply orb_true_iff in Hri as [?%bool_decide_eq_true|?%bool_decide_eq_true]; done.
Qed.

(** A list of fewer than two identifiers is answered at once: no attempt is
    started and the random source is left untouched. *)
Lemma generateMatchingRun_too_few ids pairs g :
  length ids < 2 → generateMatchingRun ids pairs g = (None, 0, g).
Proof.
  intros Hlen. unfold generateMatchingRun.
  by apply Nat.ltb_lt in Hlen as ->.
Qed.

(** C2. [generateMatching] is a total function that starts at most 100
    attempts; it answers [null] only after using the whole budget (or at
    once on fewer than two participants), and it does answer [null] when
    every participant excludes all others. *)
Theorem generateMatching_within_budget ids pairs g :
  (generateMatchingRun ids pairs g).1.2 ≤ MAX_ATTEMPTS ∧
  (generateMatching ids pairs g = None →
     (generateMatchingRun ids pairs g).1.2 = MAX_ATTEMPTS ∨ length ids < 2) ∧
  (2 ≤ length ids → excludesAllOthers ids pairs = true →
     generateMatching ids pairs g = None ∧
     (generateMatchingRun ids pairs g).1.2 = MAX_ATTEMPTS).
Proof.
  assert (generateMatching ids pairs g = None →
     (generateMatchingRun ids pairs g).1.2 = MAX_ATTEMPTS ∨ length ids < 2) as Hnone.
  { unfold generateMatching, generateMatchingRun.
    destruct (length ids <? 2) eqn:Hlt; [apply Nat.ltb_lt in Hlt; auto|].
    intros Hres. left. revert Hres.
    generalize (buildExclusionSet pairs) as s.
    assert (∀ s k a g0, (attemptLoop s ids k a g0).1.1 = None →
              (attemptLoop s ids k a g0).1.2 = a + k) as Hloop.
    { intros s k. induction k as [|k IH]; intros a g0; simpl; [intros _; lia|].
      destruct (shuffle ids g0) as [sg g1]. destruct (shuffle ids g1) as [sr g2].
      destruct (findAssignment s sg sr [] g2) as [[f|] g3]; simpl; [done|].
      intros ?%IH. lia. }
    intros s Hres. by apply Hloop in Hres. }
  split_and!; [|done|].
  - unfold generateMatchingRun. destruct (length ids <? 2); simpl; [lia|].
    apply (attemptLoop_count _ ids MAX_ATTEMPTS 0).
  - intros Hlen Hex.
    assert (generateMatching ids pairs g = None) as Hres
      by (by apply excludesAllOthers_None).
    split; [done|]. destruct (Hnone Hres); [done|lia].
Qed.

Lemma generateMatching_within_budget_witness :
  let ids := ["a"; "b"; "c"] in
  let pairs :=
    [mkExclusionPair "a" "b"; mkExclusionPair "a" "c";
     mkExclusionPair "b" "a"; mkExclusionPair "b" "c";
     mkExclusionPair "c" "a"; mkExclusionPair "c" "b"] in
  2 ≤ length ids ∧ excludesAllOthers ids pairs = true ∧
  generateMatching ids pairs countingRng = None ∧
  (generateMatchingRun ids pairs countingRng).1.2 = MAX_ATTEMPTS.
Proof.
  intros ids pairs.
  destruct (generateMatching_within_budget ids pairs countingRng)
    as (_ & _ & Hall).
  assert (2 ≤ length ids) as Hlen by (vm_compute; lia).
  assert (excludesAllOthers ids pairs = true) as Hex by reflexivity.
  destruct (Hall Hlen Hex) as [Hnone Hattempts].
  by split_and!.
Defined.

End MatchingFacts.

(* ===================================================================== *)
(** * Properties of the schedule computations *)
(* ===================================================================== *)

Section ScheduleFacts.
Import DateFns Tz Schedule.
Local Open Scope Z_scope.

(** Setting hours, minutes, seconds and milliseconds one after the other
    lands on 10:00:00.000 of the same day. *)
Lemma atReminderHour_eq zoned :
  atReminderHour zoned = atHour (dayOf zoned) REMINDER_HOUR.
Proof.
  unfold atReminderHour, setMilliseconds, setSeconds, setMinutes, setHours,
    getMilliseconds, getSeconds, getMinutes, getHours, atHour, dayOf,
    REMINDER_HOUR, MS_PER_DAY, MS_PER_HOUR, MS_PER_MINUTE, MS_PER_SECOND.
  Z.div_mod_to_equations. lia.
Qed.

(** The target that [getNext10AMInTimezone] picks from a wall-clock
    reading is the next reading of 10:00 that is not before it. *)
Lemma next_target_spec zoned :
  let target := atReminderHour zoned in
  isNext10AM zoned (if isBefore target zoned then addDays target 1 else target).
Proof.
  simpl. rewrite atReminderHour_eq. unfold isBefore, isNext10AM.
  destruct (Z.ltb_spec (atHour (dayOf zoned) REMINDER_HOUR) zoned) as [Hlt|Hge].
  - revert Hlt.
    unfold addDays, timeOfDay, atHour, dayOf, REMINDER_HOUR, MS_PER_DAY, MS_PER_HOUR.
    intros Hlt. split; Z.div_mod_to_equations; lia.
  - revert Hge.
    unfold timeOfDay, atHour, dayOf, REMINDER_HOUR, MS_PER_DAY, MS_PER_HOUR.
    intros Hge. split; Z.div_mod_to_equations; lia.
Qed.

(** The next such reading is unique. *)
Lemma isNext10AM_unique zoned t1 t2 :
  isNext10AM zoned t1 → isNext10AM zoned t2 → t1 = t2.
Proof.
  unfold isNext10AM, timeOfDay, REMINDER_HOUR, MS_PER_DAY, MS_PER_HOUR.
  intros [H1 ?] [H2 ?]. revert H1 H2. Z.div_mod_to_equations. lia.
Qed.

Section WithZones.
Context `{ZoneDatabase}.

Lemma next10AM_spec tz now zoned :
  toZonedTime now tz = Some zoned →
  ∃ target, isNext10AM zoned target ∧ next10AM tz now = fromZonedTime target tz.
Proof.
  intros Hz. unfold next10AM. rewrite Hz. simpl.
  eexists. split; [apply next_target_spec|done].
Qed.

(** Notified on day [D] at 09:00 local: a week later the reminder is due
    on day [D+7] at 10:00 local, as long as the zone's clock on the
    seventh day still reads a time of that day. *)
Lemma firstReminder_spec tz notifiedAt zoned7 D :
  toZonedTime (addDays notifiedAt 7) tz = Some zoned7 →
  dayOf zoned7 = D + 7 →
  firstReminder tz notifiedAt = fromZonedTime (atHour (D + 7) REMINDER_HOUR) tz.
Proof.
  intros Hz Hd. unfold firstReminder. rewrite Hz. simpl.
  by rewrite atReminderHour_eq, Hd.
Qed.

(** A zone that is not known: both computations answer the Invalid Date;
    neither falls back to another zone or to whole days. *)
Lemma getFirstReminderDate_unknown_zone timezone notifiedAt :
  offsetAtInstant (orDefault timezone) (addDays notifiedAt 7) = None →
  getFirstReminderDate timezone notifiedAt = None.
Proof.
  intros Hz. unfold getFirstReminderDate, firstReminder, toZonedTime.
  by rewrite Hz.
Qed.

Lemma getNext10AMInTimezone_unknown_zone timezone now :
  offsetAtInstant (orDefault timezone) now = None →
  getNext10AMInTimezone timezone now = None.
Proof.
  intros Hz. unfold getNext10AMInTimezone, next10AM, toZonedTime.
  by rewrite Hz.
Qed.

(** In a zone whose offset does not change, the instant that
    [getNext10AMInTimezone] answers is never before now, and it is now
    itself exactly when the local reading of now is 10:00:00.000. *)
Lemma getNext10AMInTimezone_fixed_offset timezone now offset :
  offsetAtInstant (orDefault timezone) now = Some offset →
  (∀ wall, offsetAtWallClock (orDefault timezone) wall = Some offset) →
  ∃ next, getNext10AMInTimezone timezone now = Some next ∧
    now ≤ next ∧
    (next = now ↔ timeOfDay (now + offset) = REMINDER_HOUR * MS_PER_HOUR).
Proof.
  intros Ho Hw. unfold getNext10AMInTimezone.
  destruct (next10AM_spec (orDefault timezone) now (now + offset))
    as (target & [Htime Hrange] & ->).
  { unfold toZonedTime. by rewrite Ho. }
  unfold fromZonedTime. rewrite Hw. simpl. eexists. split; [done|].
  split; [lia|]. split.
  - intros Heq. by replace (now + offset) with target by lia.
  - intros Hten. revert Htime Hten Hrange.
    unfold timeOfDay, REMINDER_HOUR, MS_PER_DAY, MS_PER_HOUR.
    intros Htime Hten Hrange. Z.div_mod_to_equations. lia.
Qed.

(** When the zone reads 10:00:00.000 at [now], and that reading converts
    back to [now], the next 10:00 that [getNext10AMInTimezone] answers is
    [now] itself: the test [isBefore(target, zonedTime)] is strict. *)
Lemma getNext10AMInTimezone_at_ten timezone now zoned :
  toZonedTime now (orDefault timezone) = Some zoned →
  timeOfDay zoned = REMINDER_HOUR * MS_PER_HOUR →
  fromZonedTime zoned (orDefault timezone) = Some now →
  getNext10AMInTimezone timezone now = Some now.
Proof.
  intros Hz Hten Hback. unfold getNext10AMInTimezone, next10AM.
  rewrite Hz. simpl.
  assert (atReminderHour zoned = zoned) as ->.
  { rewrite atReminderHour_eq. revert Hten.
    unfold timeOfDay, atHour, dayOf, REMINDER_HOUR, MS_PER_DAY, MS_PER_HOUR.
    intros Hten. Z.div_mod_to_equations. lia. }
  unfold isBefore. by rewrite Z.ltb_irrefl.
Qed.

End WithZones.

End ScheduleFacts.

(* ===================================================================== *)
(** * Reasoning about handlers: what a run keeps *)
(* ===================================================================== *)

Section Frames.
Import Storage.

Section Closure.
Context (R : relation World) `{!PreOrder R}.

Lemma keeps_ret {A} (a : A) : keeps R (ret a).
Proof. intros w. simpl. reflexivity. Qed.

Lemma keeps_throw {A} : keeps R (@throw A).
Proof. intros w. simpl. reflexivity. Qed.

Lemma keeps_gets {A} (f : World → A) : keeps R (gets f).
Proof. intros w. simpl. reflexivity. Qed.

Lemma keeps_bind {A B} (m : M A) (k : A → M B) :
  keeps R m → (∀ a, keeps R (k a)) → keeps R (bind m k).
Proof.
  intros Hm Hk w. unfold bind. specialize (Hm w).
  destruct (m w) as [[a|] w1]; simpl in *; [|done].
  etrans; [done|]. apply Hk.
Qed.

Lemma keeps_tryCatch {A} (m h : M A) :
  keeps R m → keeps R h → keeps R (tryCatch m h).
Proof.
  intros Hm Hh w. unfold tryCatch. specialize (Hm w).
  destruct (m w) as [[a|] w1]; simpl in *; [done|].
  etrans; [done|]. apply Hh.
Qed.

End Closure.

Lemma total_ret {A} (a : A) : total (ret a).
Proof. intros w. by eexists. Qed.

Lemma total_gets {A} (f : World → A) : total (gets f).
Proof. intros w. by eexists. Qed.

Lemma total_modify f : total (modify f).
Proof. intros w. by eexists. Qed.

Lemma total_bind {A B} (m : M A) (k : A → M B) :
  total m → (∀ a, total (k a)) → total (bind m k).
Proof.
  intros Hm Hk w. unfold bind. destruct (Hm w) as [a Ha].
  destruct (m w) as [[a'|] w1]; simplify_eq/=. apply Hk.
Qed.

Lemma total_tryCatch {A} (m h : M A) : total h → total (tryCatch m h).
Proof.
  intros Hh w. unfold tryCatch. destruct (m w) as [[a|] w1]; [by eexists|].
  apply Hh.
Qed.

Global Instance sameStore_preorder : PreOrder sameStore.
Proof.
  split; [by intros w|]. intros w1 w2 w3 [? ?] [? ?]. split; congruence.
Qed.
Global Instance sameSessions_preorder : PreOrder sameSessions.
Proof.
  split; [by intros w|]. intros w1 w2 w3 ? ?. unfold sameSessions in *. congruence.
Qed.
Global Instance outboxGrowsBy_preorder P : PreOrder (outboxGrowsBy P).
Proof.
  split.
  - intros w. exists []. by rewrite app_nil_r.
  - intros w1 w2 w3 (s1 & H1 & ?) (s2 & H2 & ?). exists (s1 ++ s2).
    split; [by rewrite H2, H1, app_assoc|]. by apply Forall_app.
Qed.

End Frames.

Create HintDb frame.
Global Hint Resolve keeps_ret keeps_throw keeps_gets total_ret total_gets
  total_modify : frame.

(** Splits a handler into its steps and closes the leaves. *)
Ltac frame_step :=
  match goal with
  | |- keeps _ (bind _ _) => apply keeps_bind; [apply _| |intros ?]
  | |- keeps _ (tryCatch _ _) => apply keeps_tryCatch; [apply _| |]
  | |- keeps _ (ret _) => apply keeps_ret; apply _
  | |- keeps _ throw => apply keeps_throw; apply _
  | |- keeps _ (gets _) => apply keeps_gets; apply _
  | |- keeps _ (match ?x with _ => _ end) => destruct x
  | |- keeps _ (if ?x then _ else _) => destruct x
  | |- keeps _ (let _ := _ in _) => cbv zeta
  | |- total (bind _ _) => apply total_bind; [|intros ?]
  | |- total (tryCatch _ _) => apply total_tryCatch
  | |- total (ret _) => apply total_ret
  | |- total (gets _) => apply total_gets
  | |- total (modify _) => apply total_modify
  | |- total (match ?x with _ => _ end) => destruct x
  | |- total (if ?x then _ else _) => destruct x
  end.

(* ===================================================================== *)
(** * Properties of the storage layer and of the Slack calls *)
(* ===================================================================== *)

Section StorageFacts.
Import Storage Server.

Lemma find_updateWhere {A} (getId : A → string) (f : A → A) x y rows :
  (∀ r, getId (f r) = getId r) →
  List.find (λ r, bool_decide (getId r = x)) (updateWhere getId y f rows)
  = if decide (x = y)
    then f <$> List.find (λ r, bool_decide (getId r = x)) rows
    else List.find (λ r, bool_decide (getId r = x)) rows.
Proof.
  intros Hid. induction rows as [|r rows IH]; [by case_decide|].
  unfold updateWhere in *. cbn [fmap list_fmap List.find].
  destruct (decide (getId r = y)) as [Hy|Hy].
  - rewrite Hid. case_bool_decide as Hx; [|apply IH].
    rewrite decide_True by congruence. done.
  - case_bool_decide as Hx; [|apply IH].
    rewrite decide_False by congruence. done.
Qed.

Lemma find_of_NoDup {A} (getId : A → string) (a : A) rows :
  NoDup (getId <$> rows) → a ∈ rows →
  List.find (λ r, bool_decide (getId r = getId a)) rows = Some a.
Proof.
  induction rows as [|r rows IH]; [by intros _ ?%elem_of_nil|].
  rewrite fmap_cons, NoDup_cons. intros [Hr Hnd] [->|Hin]%elem_of_cons; simpl.
  - by rewrite bool_decide_eq_true_2.
  - rewrite bool_decide_eq_false_2; [by apply IH|].
    intros Heq. apply Hr. rewrite Heq. by apply list_elem_of_fmap_2.
Qed.

(** What the updates of the assignments table do to one row. *)
Lemma lookupAssignment_update x y f w :
  (∀ r, Assignment.id (f r) = Assignment.id r) →
  lookupAssignment x (withDb (withAssignments (updateWhere Assignment.id y f)) w)
  = if decide (x = y) then f <$> lookupAssignment x w else lookupAssignment x w.
Proof. intros Hid. unfold lookupAssignment. simpl. by apply find_updateWhere. Qed.

Lemma lookupAssignment_same w w' x :
  assignments (db w') = assignments (db w) →
  lookupAssignment x w' = lookupAssignment x w.
Proof. unfold lookupAssignment. by intros ->. Qed.

(** The leaves of the handlers, against the relations of the previous
    section. *)
Lemma fetch_sameStore : keeps sameStore fetch.
Proof. intros w. unfold fetch, bind. simpl. by destruct (slackApi w _). Qed.

Lemma json_keeps R `{!PreOrder R} r : keeps R (json r).
Proof. intros w. destruct r; simpl; reflexivity. Qed.

Lemma postMessage_sameStore channel text : keeps sameStore (postMessage channel text).
Proof. intros w. unfold postMessage, bind. simpl. by destruct (slackApi w _). Qed.

Lemma postMessage_outbox channel text w :
  outbox (postMessage channel text w).2
  = outbox w ++ [Slack.mkOutbound channel text (slackApi w (slackCalls w))].
Proof. unfold postMessage, bind. simpl. by destruct (slackApi w _). Qed.

Lemma getSlackToken_run w : ∃ t, getSlackToken w = (Some t, w).
Proof.
  unfold getSlackToken, bind, getSlackSettings, gets. simpl.
  destruct (head _) as [s|]; [destruct (JS.truthy _)|]; by eexists.
Qed.

Lemma getAdminContactMention_run w : ∃ t, getAdminContactMention w = (Some t, w).
Proof.
  unfold getAdminContactMention, bind, getSlackSettings, gets. simpl.
  destruct (head _) as [s|]; [destruct (orNull _)|]; by eexists.
Qed.

Lemma getSlackToken_sameStore : keeps sameStore getSlackToken.
Proof. intros w. destruct (getSlackToken_run w) as [t ->]. reflexivity. Qed.

Lemma getAdminContactMention_sameStore : keeps sameStore getAdminContactMention.
Proof. intros w. destruct (getAdminContactMention_run w) as [t ->]. reflexivity. Qed.

Lemma getSlackToken_total : total getSlackToken.
Proof. intros w. destruct (getSlackToken_run w) as [t ->]. by eexists. Qed.

(** [sendSlackNotification] catches what goes wrong and touches neither
    the database nor the clock. *)
Lemma sendSlackNotification_total u e n r t :
  total (sendSlackNotification u e n r t).
Proof.
  unfold sendSlackNotification.
  repeat first [apply getSlackToken_total | frame_step].
Qed.

Lemma sendSlackNotification_sameStore u e n r t :
  keeps sameStore (sendSlackNotification u e n r t).
Proof.
  unfold sendSlackNotification.
  repeat first
    [ apply getSlackToken_sameStore | apply getAdminContactMention_sameStore
    | apply fetch_sameStore | apply postMessage_sameStore
    | apply json_keeps; apply _ | frame_step ].
Qed.

Lemma sendSlackNotification_run u e n r t w :
  ∃ b w', sendSlackNotification u e n r t w = (Some b, w') ∧
          db w' = db w ∧ clock w' = clock w.
Proof.
  destruct (sendSlackNotification_total u e n r t w) as [b Hb].
  destruct (sendSlackNotification_sameStore u e n r t w) as [Hdb Hclock].
  destruct (sendSlackNotification u e n r t w) as [res w'].
  simpl in *. subst res. by exists b, w'.
Qed.

End StorageFacts.

(* ===================================================================== *)
(** * The notification pass ([sendAllNotifications]) *)
(* ===================================================================== *)

Section NotifyFacts.
Import Storage Server.

Lemma bool_decide_elem_of_cons_ne (x k : string) (b : bool)
    (o : list (string * bool)) :
  (x, true) ≠ (k, b) →
  bool_decide ((x, true) ∈ (k, b) :: o) = bool_decide ((x, true) ∈ o).
Proof.
  intros Hne. apply bool_decide_ext. rewrite elem_of_cons.
  split; [intros [Heq|Hin]; [by destruct Hne|done] | by right].
Qed.

(** The assignments skipped by the pass are those already notified; every
    other one is attempted, in order. *)
Lemma notifyOutcomes_keys template l w :
  (notifyOutcomes template l w).*1
  = (λ v, Assignment.id (AssignmentWithDetails.row v))
    <$> filter (λ v, Assignment.notified (AssignmentWithDetails.row v) ≠ Some true) l.
Proof.
  revert w. induction l as [|v l IH]; intros w; [done|].
  cbn [notifyOutcomes]. rewrite filter_cons. case_bool_decide as Hn.
  - rewrite decide_False by (by intros ?). apply IH.
  - rewrite decide_True by done.
    destruct (sendSlackNotification _ _ _ _ _ w) as [[[|]|] w1];
      rewrite !fmap_cons; simpl; f_equal; apply IH.
Qed.

(** The loop never throws; its tallies count the sends that succeeded and
    those that failed, and a row is touched exactly when one of its sends
    succeeded: it is then marked notified at the time of the pass. *)
Lemma notifyLoop_spec template l s f w :
  let outcomes := notifyOutcomes template l w in
  ∃ counts w',
    notifyLoop template l s f w = (Some counts, w') ∧
    sent counts = s + length (filter succeeded outcomes) ∧
    failed counts = f + length (filter failedSend outcomes) ∧
    clock w' = clock w ∧
    events (db w') = events (db w) ∧
    ∀ x, lookupAssignment x w'
         = if bool_decide ((x, true) ∈ outcomes)
           then Assignment.setNotified (clock w) <$> lookupAssignment x w
           else lookupAssignment x w.
Proof.
  revert s f w. induction l as [|v l IH]; intros s f w; simpl.
  { eexists _, _. split_and!; try done; simpl; lia. }
  case_bool_decide as Hn; [apply IH|].
  unfold bind at 1.
  destruct (sendSlackNotification_run
              (Participant.slackUserId (AssignmentWithDetails.giver v))
              (Participant.email (AssignmentWithDetails.giver v))
              (Participant.name (AssignmentWithDetails.giver v))
              (receiverDetailsOf (AssignmentWithDetails.receiver v))
              template w) as (b & w1 & -> & Hdb & Hclock).
  destruct b.
  - unfold bind at 1. cbn [updateAssignmentNotified bind newDate gets modify].
    set (w2 := withDb _ w1).
    destruct (IH (S s) f w2) as (counts & w' & -> & Hs & Hf & Hc & He & Hrows).
    exists counts, w'. split_and!; [done| | | | |].
    + rewrite Hs, filter_cons_True by done. simpl. lia.
    + rewrite Hf, filter_cons_False by (by intros ?). lia.
    + by rewrite Hc.
    + rewrite He. subst w2. simpl. by rewrite Hdb.
    + intros x. rewrite Hrows. subst w2.
      rewrite lookupAssignment_update by done.
      rewrite (lookupAssignment_same w w1) by (by rewrite Hdb).
      simpl. rewrite Hclock.
      destruct (decide (x = Assignment.id (AssignmentWithDetails.row v))) as [->|Hx].
      * rewrite (bool_decide_eq_true_2 (_ ∈ _ :: _)) by left.
        destruct (lookupAssignment _ w) as [r|]; simpl; by case_bool_decide.
      * by rewrite bool_decide_elem_of_cons_ne by congruence.
  - destruct (IH s (S f) w1) as (counts & w' & -> & Hs & Hf & Hc & He & Hrows).
    exists counts, w'. split_and!; [done| | | | |].
    + rewrite Hs, filter_cons_False by (by intros ?). lia.
    + rewrite Hf, filter_cons_True by done. simpl. lia.
    + by rewrite Hc.
    + by rewrite He, Hdb.
    + intros x. rewrite Hrows, Hclock.
      rewrite (lookupAssignment_same w w1) by (by rewrite Hdb).
      by rewrite bool_decide_elem_of_cons_ne by congruence.
Qed.








End NotifyFacts.

(* ===================================================================== *)
(** * The reminder sweep ([sendGiftReminders]) *)
(* ===================================================================== *)

Section ReminderFacts.
Import Storage Server DateFns Tz Schedule.
Context `{ZoneDatabase}.
Local Open Scope Z_scope.

Local Abbreviation rowId v := (Assignment.id (AssignmentWithDetails.row v)).

(** The rows that a query lists with their details are rows of the table,
    in the order of the table. *)
Lemma withDetails_row d a v :
  withDetails d a = Some v → AssignmentWithDetails.row v = a.
Proof.
  unfold withDetails. intros Hv. repeat case_match; by simplify_eq.
Qed.

Lemma rows_of_details d rows :
  AssignmentWithDetails.row <$> omap (withDetails d) rows `sublist_of` rows.
Proof.
  induction rows as [|a rows IH]; simpl; [done|].
  destruct (withDetails d a) as [v|] eqn:Hv; simpl.
  - rewrite (withDetails_row _ _ _ Hv). by apply sublist_skip.
  - by apply sublist_cons.
Qed.

Lemma NoDup_details_ids d (P : Assignment.t → Prop) `{!∀ a, Decision (P a)} rows :
  NoDup (Assignment.id <$> rows) →
  NoDup ((λ v, rowId v) <$> omap (withDetails d) (filter P rows)).
Proof.
  intros Hnd.
  rewrite (list_fmap_compose AssignmentWithDetails.row Assignment.id).
  eapply sublist_NoDup; [exact Hnd|].
  apply fmap_sublist. etrans; [apply rows_of_details|apply sublist_filter].
Qed.

(** One turn of the loop, whether it returns or throws, leaves the clock
    alone and touches no row but its own. *)
Lemma reminderStep_frame now v w :
  clock (reminderStep now v w).2 = clock w ∧
  ∀ x, x ≠ rowId v →
       lookupAssignment x (reminderStep now v w).2 = lookupAssignment x w.
Proof.
  unfold reminderStep.
  destruct (Assignment.notifiedAt _) as [notifiedAt|]; [|done].
  destruct (orNull _) as [channel|]; [|done].
  destruct (Assignment.nextReminderAt _) as [next|].
  - destruct (isBefore now next); [done|].
    unfold tryCatch, bind at 1. unfold postMessage, bind, nextAnswer, modify.
    cbn [fst snd].
    destruct (slackApi w (slackCalls w)) as [| |[[] u]];
      cbn - [getNext10AMInTimezone]; [done|done| |done].
    destruct (getNext10AMInTimezone _ _) as [d|]; cbn -[lookupAssignment]; [|done].
    split; [done|]. intros x Hx. rewrite lookupAssignment_update by done.
    by rewrite decide_False by done.
  - cbv zeta.
    destruct (if isBeforeDate _ _ then _ else _) as [d|];
      cbn -[lookupAssignment]; [|done].
    split; [done|]. intros x Hx. rewrite lookupAssignment_update by done.
    by rewrite decide_False by done.
Qed.

(** The first encounter of an assignment: its next reminder is computed.
    If the date is valid it is stored, nothing is sent and the turn counts
    as skipped.  If it is the Invalid Date the statement that would store
    it throws, outside every [try]: the turn throws and stores nothing. *)
Lemma reminderStep_first_encounter now v w notifiedAt channel :
  Assignment.notifiedAt (AssignmentWithDetails.row v) = Some notifiedAt →
  orNull (Participant.slackUserId (AssignmentWithDetails.giver v)) = Some channel →
  Assignment.nextReminderAt (AssignmentWithDetails.row v) = None →
  let timezone := Participant.timezone (AssignmentWithDetails.giver v) in
  let firstReminderDate := getFirstReminderDate timezone notifiedAt in
  let nextReminderAt :=
    if isBeforeDate firstReminderDate now
    then getNext10AMInTimezone timezone now else firstReminderDate in
  reminderStep now v w
  = match nextReminderAt with
    | Some d =>
        (Some Skipped,
         withDb (withAssignments
                   (updateWhere Assignment.id (rowId v)
                      (Assignment.setNextReminder d))) w)
    | None => (None, w)
    end.
Proof.
  intros Hn Hc Hx. unfold reminderStep. rewrite Hn, Hc, Hx. cbv zeta.
  by destruct (if isBeforeDate _ _ then _ else _).
Qed.

Lemma reminderLoop_frame now l s f k w :
  clock (reminderLoop now l s f k w).2 = clock w ∧
  ∀ x, x ∉ (λ v, rowId v) <$> l →
       lookupAssignment x (reminderLoop now l s f k w).2 = lookupAssignment x w.
Proof.
  revert s f k w. induction l as [|v l IH]; intros s f k w; [done|].
  cbn [reminderLoop]. unfold bind.
  destruct (reminderStep_frame now v w) as [Hc1 Hrows1].
  destruct (reminderStep now v w) as [[o|] w1]; simpl in Hc1, Hrows1.
  - assert (∃ s' f' k', match o with
              | Sent => reminderLoop now l (S s) f k
              | Failed => reminderLoop now l s (S f) k
              | Skipped => reminderLoop now l s f (S k)
              end = reminderLoop now l s' f' k') as (s' & f' & k' & ->).
    { destruct o; by eexists _, _, _. }
    destruct (IH s' f' k' w1) as [Hc Hrows]. split; [congruence|].
    intros x Hx. rewrite fmap_cons, not_elem_of_cons in Hx.
    destruct Hx as [Hne Hx]. rewrite Hrows by done. by apply Hrows1.
  - split; [done|]. intros x Hx. rewrite fmap_cons, not_elem_of_cons in Hx.
    destruct Hx as [Hne Hx]. by apply Hrows1.
Qed.

(** A sweep that completes stores the first reminder of every assignment
    it meets without one. *)
Lemma reminderLoop_first_encounter now l s f k w v r notifiedAt channel d :
  NoDup ((λ v, rowId v) <$> l) → v ∈ l →
  Assignment.notifiedAt (AssignmentWithDetails.row v) = Some notifiedAt →
  orNull (Participant.slackUserId (AssignmentWithDetails.giver v)) = Some channel →
  Assignment.nextReminderAt (AssignmentWithDetails.row v) = None →
  lookupAssignment (rowId v) w = Some r →
  let timezone := Participant.timezone (AssignmentWithDetails.giver v) in
  let firstReminderDate := getFirstReminderDate timezone notifiedAt in
  (if isBeforeDate firstReminderDate now
   then getNext10AMInTimezone timezone now else firstReminderDate) = Some d →
  is_Some (reminderLoop now l s f k w).1 →
  lookupAssignment (rowId v) (reminderLoop now l s f k w).2
  = Some (Assignment.setNextReminder d r).
Proof.
  intros Hnd Hin Hn Hc Hx Hr timezone firstReminderDate Hd.
  revert s f k w Hr. induction l as [|u l IH]; intros s f k w Hr.
  { by apply elem_of_nil in Hin. }
  rewrite fmap_cons, NoDup_cons in Hnd. destruct Hnd as [Hu Hnd].
  cbn [reminderLoop]. unfold bind.
  apply elem_of_cons in Hin as [<-|Hin].
  - rewrite (reminderStep_first_encounter now v w notifiedAt channel) by done.
    fold timezone firstReminderDate. rewrite Hd.
    set (w1 := withDb _ w). intros _.
    destruct (reminderLoop_frame now l s f (S k) w1) as [_ Hrows].
    rewrite Hrows by done. subst w1.
    rewrite lookupAssignment_update by done.
    by rewrite decide_True, Hr by done.
  - destruct (reminderStep_frame now u w) as [_ Hrows1].
    assert (rowId v ≠ rowId u) as Hne.
    { intros Heq. apply Hu. rewrite <-Heq.
      by apply (list_elem_of_fmap_2 (λ v, rowId v)). }
    destruct (reminderStep now u w) as [[o|] w1]; simpl in Hrows1.
    + rewrite <-(Hrows1 _ Hne) in Hr. destruct o; by apply IH.
    + by intros [? [=]].
Qed.

(** A sweep that meets, for the first time, an assignment whose next
    reminder comes out as the Invalid Date throws, and leaves the row as
    it was. *)
Lemma reminderLoop_invalid_date now l s f k w v r notifiedAt channel :
  NoDup ((λ v, rowId v) <$> l) → v ∈ l →
  Assignment.notifiedAt (AssignmentWithDetails.row v) = Some notifiedAt →
  orNull (Participant.slackUserId (AssignmentWithDetails.giver v)) = Some channel →
  Assignment.nextReminderAt (AssignmentWithDetails.row v) = None →
  lookupAssignment (rowId v) w = Some r →
  let timezone := Participant.timezone (AssignmentWithDetails.giver v) in
  let firstReminderDate := getFirstReminderDate timezone notifiedAt in
  (if isBeforeDate firstReminderDate now
   then getNext10AMInTimezone timezone now else firstReminderDate) = None →
  (reminderLoop now l s f k w).1 = None ∧
  lookupAssignment (rowId v) (reminderLoop now l s f k w).2 = Some r.
Proof.
  intros Hnd Hin Hn Hc Hx Hr timezone firstReminderDate Hd.
  revert s f k w Hr. induction l as [|u l IH]; intros s f k w Hr.
  { by apply elem_of_nil in Hin. }
  rewrite fmap_cons, NoDup_cons in Hnd. destruct Hnd as [Hu Hnd].
  cbn [reminderLoop]. unfold bind.
  apply elem_of_cons in Hin as [<-|Hin].
  - rewrite (reminderStep_first_encounter now v w notifiedAt channel) by done.
    fold timezone firstReminderDate. by rewrite Hd.
  - destruct (reminderStep_frame now u w) as [_ Hrows1].
    assert (rowId v ≠ rowId u) as Hne.
    { intros Heq. apply Hu. rewrite <-Heq.
      by apply (list_elem_of_fmap_2 (λ v, rowId v)). }
    destruct (reminderStep now u w) as [[o|] w1]; simpl in Hrows1.
    + rewrite <-(Hrows1 _ Hne) in Hr. destruct o; by apply IH.
    + split; [done|]. simpl. by rewrite Hrows1.
Qed.

(** A turn that is not yet due sends nothing and changes nothing. *)
Lemma reminderStep_not_due now v w notifiedAt channel next :
  Assignment.notifiedAt (AssignmentWithDetails.row v) = Some notifiedAt →
  orNull (Participant.slackUserId (AssignmentWithDetails.giver v)) = Some channel →
  Assignment.nextReminderAt (AssignmentWithDetails.row v) = Some next →
  now < next →
  reminderStep now v w = (Some Skipped, w).
Proof.
  intros Hn Hc Hx Hlt. unfold reminderStep. rewrite Hn, Hc, Hx.
  unfold isBefore. by apply Z.ltb_lt in Hlt as ->.
Qed.

(** A turn that is due, with Slack accepting the call: the reminder goes
    out.  If [getNext10AMInTimezone] answers a date, the row is updated
    with it as the next reminder and the turn counts as sent.  If it
    answers the Invalid Date, the update throws inside the [try]: the
    turn counts as failed and the row stays as it was, due again. *)
Lemma reminderStep_due now v w notifiedAt channel next reply :
  Assignment.notifiedAt (AssignmentWithDetails.row v) = Some notifiedAt →
  orNull (Participant.slackUserId (AssignmentWithDetails.giver v)) = Some channel →
  Assignment.nextReminderAt (AssignmentWithDetails.row v) = Some next →
  next ≤ now →
  slackApi w (slackCalls w) = Slack.Json reply → Slack.ok reply = true →
  let w1 := (postMessage channel (reminderText v) w).2 in
  outbox w1
  = outbox w ++ [Slack.mkOutbound channel (reminderText v) (Slack.Json reply)] ∧
  db w1 = db w ∧ clock w1 = clock w ∧ slackApi w1 = slackApi w ∧
  slackCalls w1 = S (slackCalls w) ∧ envSlackBotToken w1 = envSlackBotToken w ∧
  reminderStep now v w
  = match getNext10AMInTimezone
            (Participant.timezone (AssignmentWithDetails.giver v)) now with
    | Some d =>
        (Some Sent,
         withDb (withAssignments
                   (updateWhere Assignment.id (rowId v)
                      (Assignment.setReminderSent (clock w) d))) w1)
    | None => (Some Failed, w1)
    end.
Proof.
  intros Hn Hc Hx Hle Hreply Hok. unfold reminderStep, reminderText.
  rewrite Hn, Hc, Hx. unfold isBefore.
  destruct (Z.ltb_spec now next) as [?|_]; [lia|].
  cbv [tryCatch bind postMessage nextAnswer modify json ret throw
       updateAssignmentReminderSent timestampValue newDate gets].
  cbn [fst snd]. rewrite Hreply. cbn [fst snd]. rewrite Hok.
  split_and!; try done.
  by destruct (getNext10AMInTimezone _ _).
Qed.

(** A turn that sends stores, as the next reminder, what
    [getNext10AMInTimezone] answers for the time of the sweep. *)
Lemma reminderStep_sent now v w w' :
  reminderStep now v w = (Some Sent, w') →
  ∃ d, getNext10AMInTimezone
         (Participant.timezone (AssignmentWithDetails.giver v)) now = Some d ∧
    lookupAssignment (rowId v) w'
    = Assignment.setReminderSent (clock w) d <$> lookupAssignment (rowId v) w.
Proof.
  unfold reminderStep.
  destruct (Assignment.notifiedAt _) as [notifiedAt|]; [|done].
  destruct (orNull _) as [channel|]; [|done].
  destruct (Assignment.nextReminderAt _) as [next|].
  2:{ cbv zeta. by destruct (if isBeforeDate _ _ then _ else _). }
  destruct (isBefore now next); [done|].
  cbv [tryCatch bind postMessage nextAnswer modify json ret throw
       updateAssignmentReminderSent timestampValue newDate gets].
  destruct (slackApi w (slackCalls w)) as [| |[[] u]];
    cbn -[getNext10AMInTimezone]; try done.
  destruct (getNext10AMInTimezone _ _) as [d|]; [|done].
  intros [= <-]. exists d. split; [done|].
  rewrite lookupAssignment_update by done. by rewrite decide_True.
Qed.

(** In a zone whose offset does not change, unless the sweep runs at
    10:00:00.000 local time to the millisecond, an assignment that was
    just reminded is skipped by a sweep at the same clock reading. *)
Lemma reminded_then_skipped now v w w' r offset notifiedAt channel :
  reminderStep now v w = (Some Sent, w') →
  lookupAssignment (rowId v) w = Some r →
  Assignment.notifiedAt r = Some notifiedAt →
  orNull (Participant.slackUserId (AssignmentWithDetails.giver v)) = Some channel →
  let tz := orDefault (Participant.timezone (AssignmentWithDetails.giver v)) in
  offsetAtInstant tz now = Some offset →
  (∀ wall, offsetAtWallClock tz wall = Some offset) →
  timeOfDay (now + offset) ≠ REMINDER_HOUR * MS_PER_HOUR →
  ∃ r', lookupAssignment (rowId v) w' = Some r' ∧
    ∀ w'', reminderStep now
             (AssignmentWithDetails.mk r' (AssignmentWithDetails.giver v)
                (AssignmentWithDetails.receiver v)) w''
           = (Some Skipped, w'').
Proof.
  intros Hsent Hr Hn Hc tz Ho Hw Hten.
  apply reminderStep_sent in Hsent as (d & Hd & Hsent).
  rewrite Hr in Hsent. simpl in Hsent.
  eexists. split; [exact Hsent|]. intros w''.
  destruct (getNext10AMInTimezone_fixed_offset
              (Participant.timezone (AssignmentWithDetails.giver v)) now offset
              Ho Hw) as (d' & Hd' & Hle & Hiff).
  rewrite Hd in Hd'. injection Hd' as <-.
  eapply reminderStep_not_due; simpl; [exact Hn|exact Hc|reflexivity|].
  destruct (decide (d = now)) as [Heq|Hne]; [by apply Hiff in Heq|lia].
Qed.

End ReminderFacts.

Section FirstReminder.
Import Storage Server DateFns Tz Schedule.
Local Open Scope Z_scope.

(** What a sweep finds: with a token, the rows that await a reminder, and
    the time. *)
Lemma sendGiftReminders_run `{ZoneDatabase} w token :
  (getSlackToken w).1 = Some (Some token) →
  sendGiftReminders w
  = reminderLoop (clock w)
      (omap (withDetails (db w)) (filter needsReminder (assignments (db w))))
      0 0 0 w.
Proof.
  intros Htoken. unfold sendGiftReminders. unfold bind at 1.
  destruct (getSlackToken_run w) as [t Ht]. rewrite Ht in Htoken |- *.
  simpl in Htoken. injection Htoken as ->.
  unfold bind. by cbn [getAssignmentsNeedingReminder newDate gets].
Qed.

(** The part of C3 that holds.  Take an assignment that awaits its
    reminders, was notified at [notifiedAt] and has no [nextReminderAt]
    yet, with a giver who can be reached on Slack; let [tz] be the giver's
    zone, or the default zone when the giver has none.  If the zone is
    known, [notifiedAt] is day [D] at 09:00 there and the sweep completes,
    it stores day [D+7] at 10:00 local converted to UTC; if that instant
    is already before now, it stores the next 10:00 local that is not
    before the local reading of now. *)
Lemma first_reminder_anchored `{ZoneDatabase} w token a v notifiedAt :
  (getSlackToken w).1 = Some (Some token) →
  NoDup (Assignment.id <$> assignments (db w)) →
  a ∈ assignments (db w) →
  needsReminder a →
  Assignment.notifiedAt a = Some notifiedAt →
  Assignment.nextReminderAt a = None →
  withDetails (db w) a = Some v →
  JS.truthy (Participant.slackUserId (AssignmentWithDetails.giver v)) = true →
  is_Some (sendGiftReminders w).1 →
  let tz := orDefault (Participant.timezone (AssignmentWithDetails.giver v)) in
  let now := clock w in
  let stored := lookupAssignment (Assignment.id a) (sendGiftReminders w).2 in
  ∀ D offset offset7 due,
    offsetAtInstant tz notifiedAt = Some offset →
    notifiedAt + offset = atHour D 9 →
    offsetAtInstant tz (addDays notifiedAt 7) = Some offset7 →
    -9 * MS_PER_HOUR ≤ offset7 - offset < 15 * MS_PER_HOUR →
    fromZonedTime (atHour (D + 7) REMINDER_HOUR) tz = Some due →
    (now ≤ due → stored = Some (Assignment.setNextReminder due a)) ∧
    (due < now →
       ∀ zonedNow, toZonedTime now tz = Some zonedNow →
       ∃ target, isNext10AM zonedNow target ∧
         ∀ next, fromZonedTime target tz = Some next →
                 stored = Some (Assignment.setNextReminder next a)).
Proof.
  intros Htoken Hnd Hin Hneeds Hnotified Hnext Hv Hslack Hdone tz now stored.
  intros D offset offset7 due Ho Hlocal Ho7 Hshift Hdue.
  assert (AssignmentWithDetails.row v = a) as Hrow by (by eapply withDetails_row).
  assert (getFirstReminderDate
            (Participant.timezone (AssignmentWithDetails.giver v)) notifiedAt
          = Some due) as Hfirst.
  { unfold getFirstReminderDate. fold tz.
    rewrite (firstReminder_spec tz notifiedAt (addDays notifiedAt 7 + offset7) D).
    - done.
    - unfold toZonedTime. by rewrite Ho7.
    - revert Hlocal Hshift.
      unfold dayOf, addDays, atHour, MS_PER_DAY, MS_PER_HOUR.
      intros Hlocal Hshift. Z.div_mod_to_equations. lia. }
  (* what the sweep stores, given the date that the turn computes *)
  assert (∀ d,
            (if isBeforeDate
                  (getFirstReminderDate
                     (Participant.timezone (AssignmentWithDetails.giver v))
                     notifiedAt) now
             then getNext10AMInTimezone
                    (Participant.timezone (AssignmentWithDetails.giver v)) now
             else getFirstReminderDate
                    (Participant.timezone (AssignmentWithDetails.giver v))
                    notifiedAt) = Some d →
            stored = Some (Assignment.setNextReminder d a)) as Hstored.
  { intros d Hd. subst stored. revert Hdone.
    rewrite (sendGiftReminders_run w token Htoken). intros Hdone.
    rewrite <-Hrow.
    apply (reminderLoop_first_encounter _ _ _ _ _ _ _ _ notifiedAt
             (default EmptyString
                  (Participant.slackUserId (AssignmentWithDetails.giver v))));
      [| | | | | |exact Hd|exact Hdone].
    - by apply NoDup_details_ids.
    - apply list_elem_of_omap. exists a. split; [|done].
      by apply list_elem_of_filter.
    - by rewrite Hrow.
    - unfold orNull. rewrite Hslack.
      by destruct (Participant.slackUserId _).
    - by rewrite Hrow.
    - rewrite Hrow. by apply find_of_NoDup. }
  rewrite Hfirst in Hstored. unfold isBeforeDate, isBefore in Hstored. split.
  - intros Hle. apply Hstored. by destruct (Z.ltb_spec due now); [lia|].
  - intros Hlt zonedNow Hz.
    destruct (next10AM_spec tz now zonedNow Hz) as (target & Htarget & Hcomputed).
    exists target. split; [done|]. intros next Hn.
    apply Hstored. destruct (Z.ltb_spec due now); [|lia].
    unfold getNext10AMInTimezone. fold tz. by rewrite Hcomputed.
Qed.

(** C3 (the defect).  The giver's profile names a zone that the
    conversion does not know.  [getFirstReminderDate] does not fall back
    to the default zone, nor to the seven days of its [catch] branch: the
    conversion does not throw, and the function returns the Invalid Date.
    The sweep compares it with now, which is false, and hands it to the
    statement that stores [nextReminderAt], which throws.  The sweep ends
    there with the exception and the assignment is as before, with no
    [nextReminderAt]. *)
Theorem first_reminder_unknown_zone_aborts_sweep `{ZoneDatabase}
    w token a v notifiedAt :
  (getSlackToken w).1 = Some (Some token) →
  NoDup (Assignment.id <$> assignments (db w)) →
  a ∈ assignments (db w) →
  needsReminder a →
  Assignment.notifiedAt a = Some notifiedAt →
  Assignment.nextReminderAt a = None →
  withDetails (db w) a = Some v →
  JS.truthy (Participant.slackUserId (AssignmentWithDetails.giver v)) = true →
  let timezone := Participant.timezone (AssignmentWithDetails.giver v) in
  offsetAtInstant (orDefault timezone) (addDays notifiedAt 7) = None →
  getFirstReminderDate timezone notifiedAt = None ∧
  (sendGiftReminders w).1 = None ∧
  lookupAssignment (Assignment.id a) (sendGiftReminders w).2 = Some a.
Proof.
  intros Htoken Hnd Hin Hneeds Hnotified Hnext Hv Hslack timezone Hunknown.
  assert (AssignmentWithDetails.row v = a) as Hrow by (by eapply withDetails_row).
  pose proof (getFirstReminderDate_unknown_zone timezone notifiedAt Hunknown)
    as Hfirst.
  split; [done|].
  rewrite (sendGiftReminders_run w token Htoken). rewrite <-Hrow.
  apply (reminderLoop_invalid_date _ _ _ _ _ _ _ _ notifiedAt
           (default EmptyString
                (Participant.slackUserId (AssignmentWithDetails.giver v)))).
  - by apply NoDup_details_ids.
  - apply list_elem_of_omap. exists a. split; [|done].
    by apply list_elem_of_filter.
  - by rewrite Hrow.
  - unfold orNull. rewrite Hslack.
    by destruct (Participant.slackUserId _).
  - by rewrite Hrow.
  - rewrite Hrow. by apply find_of_NoDup.
  - fold timezone. by rewrite Hfirst.
Qed.

(** The token that [getSlackToken] answers depends on the settings and on
    the environment only. *)
Lemma getSlackToken_same w w' :
  slackSettings (db w') = slackSettings (db w) →
  envSlackBotToken w' = envSlackBotToken w →
  (getSlackToken w').1 = (getSlackToken w).1.
Proof.
  intros Hs He. unfold getSlackToken, bind, getSlackSettings, gets. simpl.
  rewrite Hs. destruct (head _) as [s|]; [destruct (JS.truthy _)|];
    simpl; by rewrite ?He.
Qed.

(** C4 (the defect).  A sweep that runs when the giver's zone reads
    10:00:00.000 to the millisecond sends the reminder that is due and
    stores, as the next reminder, that very instant: [getNext10AMInTimezone]
    moves to the next day only when 10:00 is strictly before the local
    reading.  A second sweep at the same clock reading finds the
    assignment due again and sends a second reminder. *)
Theorem reminder_resent_at_ten_sharp `{ZoneDatabase}
    w token a v notifiedAt channel next zoned reply1 reply2 :
  (getSlackToken w).1 = Some (Some token) →
  assignments (db w) = [a] →
  needsReminder a →
  withDetails (db w) a = Some v →
  Assignment.notifiedAt a = Some notifiedAt →
  orNull (Participant.slackUserId (AssignmentWithDetails.giver v)) = Some channel →
  Assignment.nextReminderAt a = Some next →
  next ≤ clock w →
  let tz := orDefault (Participant.timezone (AssignmentWithDetails.giver v)) in
  toZonedTime (clock w) tz = Some zoned →
  timeOfDay zoned = REMINDER_HOUR * MS_PER_HOUR →
  fromZonedTime zoned tz = Some (clock w) →
  slackApi w (slackCalls w) = Slack.Json reply1 → Slack.ok reply1 = true →
  slackApi w (S (slackCalls w)) = Slack.Json reply2 → Slack.ok reply2 = true →
  let w1 := (sendGiftReminders w).2 in
  let w2 := (sendGiftReminders w1).2 in
  (sendGiftReminders w).1 = Some (mkReminderCounts 1 0 0) ∧
  clock w1 = clock w ∧
  lookupAssignment (Assignment.id a) w1
  = Some (Assignment.setReminderSent (clock w) (clock w) a) ∧
  (sendGiftReminders w1).1 = Some (mkReminderCounts 1 0 0) ∧
  outbox w2
  = outbox w ++
    [Slack.mkOutbound channel (reminderText v) (Slack.Json reply1);
     Slack.mkOutbound channel
       (Slack.DailyReminder (Participant.name (AssignmentWithDetails.giver v))
          (Participant.name (AssignmentWithDetails.receiver v)))
       (Slack.Json reply2)].
Proof.
  intros Htoken Hrows Hneeds Hv Hnotified Hchannel Hnext Hdue tz Hzoned Hten Hback
    Hr1 Hok1 Hr2 Hok2.
  assert (AssignmentWithDetails.row v = a) as Hrow by (by eapply withDetails_row).
  pose proof (getNext10AMInTimezone_at_ten
                (Participant.timezone (AssignmentWithDetails.giver v))
                (clock w) zoned Hzoned Hten Hback) as Hsame.
  (* the first sweep *)
  assert (sendGiftReminders w = reminderLoop (clock w) [v] 0 0 0 w) as Hsweep1.
  { rewrite (sendGiftReminders_run w token Htoken), Hrows.
    rewrite filter_cons_True, filter_nil by done. simpl. by rewrite Hv. }
  destruct (reminderStep_due (clock w) v w notifiedAt channel next reply1)
    as (Hout1 & Hdb1 & Hclock1 & Hapi1 & Hcalls1 & Henv1 & Hstep1);
    [by rewrite Hrow|done|by rewrite Hrow|done|done|done|].
  rewrite Hsame in Hstep1.
  set (p1 := (postMessage channel (reminderText v) w).2) in *.
  set (a' := Assignment.setReminderSent (clock w) (clock w) a).
  set (w1 := withDb (withAssignments
                       (updateWhere Assignment.id (Assignment.id a)
                          (Assignment.setReminderSent (clock w) (clock w)))) p1).
  assert (sendGiftReminders w = (Some (mkReminderCounts 1 0 0), w1)) as Hrun1.
  { rewrite Hsweep1. cbn [reminderLoop]. unfold bind. rewrite Hstep1.
    by rewrite Hrow. }
  rewrite Hrun1. cbn [fst snd].
  assert (assignments (db w1) = [a']) as Hrows1.
  { subst w1. simpl. rewrite Hdb1, Hrows. unfold updateWhere. simpl.
    by rewrite decide_True. }
  (* the second sweep meets the row as the first one left it *)
  set (v' := AssignmentWithDetails.mk a' (AssignmentWithDetails.giver v)
               (AssignmentWithDetails.receiver v)).
  assert (withDetails (db w1) a' = Some v') as Hv'.
  { revert Hv. unfold withDetails. subst w1. simpl. rewrite Hdb1.
    destruct (findParticipant _ _) as [g|]; [|done].
    destruct (findParticipant _ _) as [r|]; [|done].
    by intros [= <-]. }
  assert (sendGiftReminders w1 = reminderLoop (clock w1) [v'] 0 0 0 w1) as Hsweep2.
  { rewrite (sendGiftReminders_run w1 token).
    - rewrite Hrows1. rewrite filter_cons_True, filter_nil.
      + cbn [omap list_omap]. by rewrite Hv'.
      + destruct Hneeds. by split.
    - rewrite (getSlackToken_same w w1); [done| |].
      + subst w1. simpl. by rewrite Hdb1.
      + subst w1. simpl. by rewrite Henv1. }
  assert (clock w1 = clock w) as Hclock by (subst w1; simpl; by rewrite Hclock1).
  destruct (reminderStep_due (clock w) v' w1 notifiedAt channel (clock w) reply2)
    as (Hout2 & _ & _ & _ & _ & _ & Hstep2); [done|done|done|lia| |done|].
  { subst w1. simpl. by rewrite Hapi1, Hcalls1. }
  assert (reminderText v'
          = Slack.DailyReminder (Participant.name (AssignmentWithDetails.giver v))
              (Participant.name (AssignmentWithDetails.receiver v))) as Htext
    by done.
  rewrite Htext in Hout2, Hstep2.
  change (AssignmentWithDetails.giver v') with (AssignmentWithDetails.giver v)
    in Hstep2.
  rewrite Hsame in Hstep2.
  split_and!.
  - done.
  - done.
  - subst w1. rewrite lookupAssignment_update by done.
    rewrite decide_True by done. unfold lookupAssignment.
    rewrite Hdb1, Hrows. simpl. by rewrite bool_decide_eq_true_2.
  - rewrite Hsweep2, Hclock. cbn [reminderLoop]. unfold bind.
    by rewrite Hstep2.
  - rewrite Hsweep2, Hclock. cbn [reminderLoop]. unfold bind.
    rewrite Hstep2. simpl. rewrite Hout2. subst w1. simpl.
    rewrite Hout1. by rewrite <-app_assoc.
Qed.

End FirstReminder.

Section ReminderExamples.
Import Storage Server DateFns Tz Schedule Examples.
Local Open Scope Z_scope.

(** Bob has no zone on record.  He was notified on 5 January 2025 at
    09:00 in the default zone (07:00 UTC); the sweep of the next day
    stores 12 January 2025 at 10:00 there, 08:00 UTC. *)
Lemma first_reminder_anchored_example :
  let row := notifiedRow "a1" "p2" "p1" (atHour 20093 7) None None in
  let w := world [row] [] [] alwaysOk (atHour 20094 8) in
  Participant.timezone bob = None ∧
  @toZonedTime sampleZones (atHour 20093 7) DEFAULT_TIMEZONE
    = Some (atHour 20093 9) ∧
  lookupAssignment "a1" (@sendGiftReminders sampleZones w).2
  = Some (Assignment.setNextReminder (atHour 20100 8) row).
Proof.
  intros row w. split; [reflexivity|]. split; [reflexivity|].
  refine (proj1
    (@first_reminder_anchored sampleZones w "xoxb-token" row
       (AssignmentWithDetails.mk row bob alice) (atHour 20093 7)
       _ _ _ _ _ _ _ _ _
       20093 (2 * MS_PER_HOUR) (2 * MS_PER_HOUR) (atHour 20100 8) _ _ _ _ _) _).
  - reflexivity.
  - apply (bool_decide_unpack _). vm_compute. exact I.
  - apply list_elem_of_here.
  - split; reflexivity.
  - reflexivity.
  - reflexivity.
  - reflexivity.
  - reflexivity.
  - vm_compute. by eexists.
  - reflexivity.
  - reflexivity.
  - reflexivity.
  - unfold MS_PER_HOUR. lia.
  - reflexivity.
  - vm_compute. discriminate.
Qed.

(** Dave's profile names a zone that the conversion does not know.  He
    was notified on 5 January 2025 at 07:00 UTC, which is 09:00 in the
    default zone: falling back to the default zone would give 12 January
    at 10:00 there, 08:00 UTC.  The sweep of the next day throws instead
    and stores nothing. *)
Lemma first_reminder_unknown_zone_aborts_sweep_witness :
  let row := notifiedRow "a2" "p4" "p2" (atHour 20093 7) None None in
  let w := world [row] [] [] alwaysOk (atHour 20094 8) in
  Participant.timezone dave = Some "Mars/Olympus" ∧
  @getFirstReminderDate sampleZones None (atHour 20093 7)
    = Some (atHour 20100 8) ∧
  @getFirstReminderDate sampleZones (Some "Mars/Olympus") (atHour 20093 7)
    = None ∧
  (@sendGiftReminders sampleZones w).1 = None ∧
  lookupAssignment "a2" (@sendGiftReminders sampleZones w).2 = Some row.
Proof.
  intros row w. split; [reflexivity|]. split; [reflexivity|].
  apply (@first_reminder_unknown_zone_aborts_sweep sampleZones w "xoxb-token" row
           (AssignmentWithDetails.mk row dave bob) (atHour 20093 7)).
  - reflexivity.
  - apply (bool_decide_unpack _). vm_compute. exact I.
  - apply list_elem_of_here.
  - split; reflexivity.
  - reflexivity.
  - reflexivity.
  - reflexivity.
  - reflexivity.
  - reflexivity.
Defined.

(** Alice lives in Riga, where it is 10:00:00.000 on 12 January 2025 at
    08:00:00.000 UTC.  Her reminder is due; two sweeps at that reading
    of the clock send it twice. *)
Lemma reminder_resent_at_ten_sharp_witness :
  let row := notifiedRow "a1" "p1" "p2" (atHour 20090 7) None
               (Some (atHour 20100 8)) in
  let w := world [row] [] [] alwaysOk (atHour 20100 8) in
  let w1 := (@sendGiftReminders sampleZones w).2 in
  let w2 := (@sendGiftReminders sampleZones w1).2 in
  @toZonedTime sampleZones (clock w) "Europe/Riga" = Some (atHour 20100 10) ∧
  (@sendGiftReminders sampleZones w).1 = Some (mkReminderCounts 1 0 0) ∧
  clock w1 = clock w ∧
  lookupAssignment "a1" w1
  = Some (Assignment.setReminderSent (clock w) (clock w) row) ∧
  (@sendGiftReminders sampleZones w1).1 = Some (mkReminderCounts 1 0 0) ∧
  outbox w2
  = [Slack.mkOutbound "U1" (Slack.FirstReminder "Alice" "Bob") replyOk;
     Slack.mkOutbound "U1" (Slack.DailyReminder "Alice" "Bob") replyOk].
Proof.
  intros row w. split; [reflexivity|].
  apply (@reminder_resent_at_ten_sharp sampleZones w "xoxb-token" row
           (AssignmentWithDetails.mk row alice bob) (atHour 20090 7) "U1"
           (atHour 20100 8) (atHour 20100 10)
           (Slack.mkReply true None) (Slack.mkReply true None)).
  - reflexivity.
  - reflexivity.
  - split; reflexivity.
  - reflexivity.
  - reflexivity.
  - reflexivity.
  - reflexivity.
  - vm_compute. discriminate.
  - reflexivity.
  - reflexivity.
  - reflexivity.
  - reflexivity.
  - reflexivity.
  - reflexivity.
  - reflexivity.
Defined.

End ReminderExamples.

(* ===================================================================== *)
(** * Gift confirmations ([handleGiftConfirmation]) *)
(* ===================================================================== *)

Section GiftFacts.
Import Storage Server.

Local Abbreviation rowId v := (Assignment.id (AssignmentWithDetails.row v)).

Lemma withDetails_same_participants d d' a :
  participants d' = participants d → withDetails d' a = withDetails d a.
Proof. unfold withDetails. by intros ->. Qed.

Lemma withDetails_updated d f a :
  keepsKeys f →
  withDetails d (f a)
  = (λ v, AssignmentWithDetails.mk (f (AssignmentWithDetails.row v))
            (AssignmentWithDetails.giver v) (AssignmentWithDetails.receiver v))
    <$> withDetails d a.
Proof.
  intros Hf. unfold withDetails. destruct (Hf a) as (_ & -> & ->).
  by repeat case_match.
Qed.

Lemma omap_withDetails_update d id f rows :
  keepsKeys f →
  omap (withDetails d) (updateWhere Assignment.id id f rows)
  = updateView id f <$> omap (withDetails d) rows.
Proof.
  intros Hf. induction rows as [|a rows IH]; [done|].
  unfold updateWhere in *. cbn [fmap list_fmap omap list_omap].
  rewrite IH. clear IH.
  destruct (decide (Assignment.id a = id)) as [Ha|Ha].
  - rewrite withDetails_updated by done.
    destruct (withDetails d a) as [v|] eqn:Hv; [|done].
    simpl. f_equal. unfold updateView.
    rewrite (withDetails_row _ _ _ Hv). by rewrite decide_True.
  - destruct (withDetails d a) as [v|] eqn:Hv; [|done].
    simpl. f_equal. unfold updateView.
    rewrite (withDetails_row _ _ _ Hv). by rewrite decide_False.
Qed.

Lemma view_row_in_table w v :
  v ∈ assignmentViews w → AssignmentWithDetails.row v ∈ assignments (db w).
Proof.
  unfold assignmentViews. intros (a & Ha & Hv)%list_elem_of_omap.
  by rewrite (withDetails_row _ _ _ Hv).
Qed.

Lemma lookupAssignment_is_Some w a :
  a ∈ assignments (db w) →
  ∃ r, lookupAssignment (Assignment.id a) w = Some r ∧
       Assignment.id r = Assignment.id a.
Proof.
  unfold lookupAssignment. induction (assignments (db w)) as [|b rows IH].
  { by intros ?%elem_of_nil. }
  intros Hin. simpl. case_bool_decide as Hb; [by exists b|].
  apply elem_of_cons in Hin as [->|Hin]; [done|]. by apply IH.
Qed.

Lemma find_Some_filter {A} (P : A → bool) l x :
  List.find P l = Some x → x ∈ l ∧ P x = true.
Proof.
  intros Hf. apply find_some in Hf as [Hin HP].
  split; [by apply list_elem_of_In|done].
Qed.

Lemma find_of_filter_singleton {A} (P : A → bool) l x :
  filter (λ y, P y = true) l = [x] → List.find P l = Some x.
Proof.
  induction l as [|y l IH]; [done|]. rewrite filter_cons. simpl.
  destruct (P y) eqn:Hy.
  - rewrite decide_True by done. by intros [= ->].
  - rewrite decide_False by (by intros ?). apply IH.
Qed.

End GiftFacts.

Section GiftConfirmation.
Import Storage Server.

Local Abbreviation rowId v := (Assignment.id (AssignmentWithDetails.row v)).

Lemma updateWhere_compose {A} (getId : A → string) id (f g : A → A) rows :
  (∀ r, getId (f r) = getId r) →
  updateWhere getId id g (updateWhere getId id f rows)
  = updateWhere getId id (g ∘ f) rows.
Proof.
  intros Hf. unfold updateWhere. rewrite <-list_fmap_compose.
  apply list_fmap_ext. intros _ r _. simpl.
  destruct (decide (getId r = id)) as [Hr|Hr].
  - by rewrite decide_True by (by rewrite Hf).
  - by rewrite decide_False.
Qed.

(** What an affirmative reply of a giver with an assignment awaiting
    confirmation does: the row is marked, and the outbox grows by the
    notice to the receiver, if the receiver is to be notified, and then by
    the thanks to the giver (unless the notice could not be sent). *)
Lemma handleGiftConfirmation_yes u lowerText token w v res w1 :
  List.find (awaitsConfirmation u) (assignmentViews w) = Some v →
  isYes lowerText = true →
  handleGiftConfirmation u lowerText token w = (res, w1) →
  ∃ g sent,
    keepsKeys g ∧ (∀ r, Assignment.giftSent (g r) = Some true) ∧
    assignments (db w1) = updateWhere Assignment.id (rowId v) g (assignments (db w)) ∧
    participants (db w1) = participants (db w) ∧
    outbox w1 = outbox w ++ sent ∧
    giftNotices sent
    = match receiverToNotify v with
      | Some channel =>
          [Slack.mkOutbound channel Slack.GiftOnItsWay (slackApi w (slackCalls w))]
      | None => []
      end.
Proof.
  intros Hfind Hyes. unfold handleGiftConfirmation.
  unfold bind at 1. cbn [getAllAssignmentsWithDetails gets].
  fold (assignmentViews w). rewrite Hfind, Hyes. cbn [negb andb].
  unfold receiverToNotify.
  unfold bind at 1. cbn [updateAssignmentGiftStatus bind newDate gets modify].
  set (mark := Assignment.setGiftStatus true (Some (clock w))).
  set (thanks := Slack.ThanksForConfirming
                   (Participant.name (AssignmentWithDetails.receiver v))).
  destruct (orNull (Participant.slackUserId (AssignmentWithDetails.receiver v)))
    as [channel|] eqn:Hch.
  - case_bool_decide as Hrn; cbn [negb].
    + (* already notified: only the thanks *)
      cbv [bind ret throw postMessage nextAnswer modify]. simpl.
      intros Hrun.
      exists mark, [Slack.mkOutbound u thanks (slackApi w (slackCalls w))].
      destruct (slackApi w (slackCalls w)); simplify_eq/=; by split_and!.
    + (* the notice, the flag, the thanks *)
      cbv [bind ret throw postMessage nextAnswer modify
           updateAssignmentReceiverNotified]. simpl.
      destruct (slackApi w (slackCalls w)) as [| |reply] eqn:Hr1; simpl.
      * intros [= <- <-].
        exists mark, [Slack.mkOutbound channel Slack.GiftOnItsWay Slack.NetworkError].
        by split_and!.
      * intros Hrun. exists (Assignment.setReceiverNotified ∘ mark).
        exists [Slack.mkOutbound channel Slack.GiftOnItsWay Slack.NotJson;
                Slack.mkOutbound u thanks (slackApi w (S (slackCalls w)))].
        destruct (slackApi w (S (slackCalls w))); simplify_eq/=;
          rewrite updateWhere_compose by done; rewrite <-app_assoc; by split_and!.
      * intros Hrun. exists (Assignment.setReceiverNotified ∘ mark).
        exists [Slack.mkOutbound channel Slack.GiftOnItsWay (Slack.Json reply);
                Slack.mkOutbound u thanks (slackApi w (S (slackCalls w)))].
        destruct (slackApi w (S (slackCalls w))); simplify_eq/=;
          rewrite updateWhere_compose by done; rewrite <-app_assoc; by split_and!.
  - cbv [bind ret throw postMessage nextAnswer modify]. simpl.
    intros Hrun.
    exists mark, [Slack.mkOutbound u thanks (slackApi w (slackCalls w))].
    assert (∀ b : bool, (if b then @None string else None) = None) as ->
      by (by intros []).
    destruct (slackApi w (slackCalls w)); simplify_eq/=; by split_and!.
Qed.


Lemma omap_withDetails_same d d' (rows : list Assignment.t) :
  participants d' = participants d →
  omap (withDetails d') rows = omap (withDetails d) rows.
Proof.
  intros Hp. induction rows as [|a rows IH]; [done|].
  cbn [omap list_omap]. by rewrite IH, (withDetails_same_participants d d').
Qed.

Lemma assignmentViews_updated w w1 id g :
  keepsKeys g →
  participants (db w1) = participants (db w) →
  assignments (db w1) = updateWhere Assignment.id id g (assignments (db w)) →
  assignmentViews w1 = updateView id g <$> assignmentViews w.
Proof.
  intros Hg Hp Ha. unfold assignmentViews.
  rewrite Ha, (omap_withDetails_same (db w) (db w1)) by done.
  by apply omap_withDetails_update.
Qed.

(** Once the only assignment that awaited the giver's confirmation is
    marked as sent, none awaits it. *)
Lemma nothing_left_to_confirm u w w1 v g :
  filter (λ a, awaitsConfirmation u a = true) (assignmentViews w) = [v] →
  keepsKeys g → (∀ r, Assignment.giftSent (g r) = Some true) →
  participants (db w1) = participants (db w) →
  assignments (db w1) = updateWhere Assignment.id (rowId v) g (assignments (db w)) →
  List.find (awaitsConfirmation u) (assignmentViews w1) = None.
Proof.
  intros Hone Hg Hsent Hp Ha.
  rewrite (assignmentViews_updated w w1 (rowId v) g) by done.
  destruct (List.find _ _) as [v'|] eqn:Hfind; [|done]. exfalso.
  apply find_Some_filter in Hfind as [Hin Hawaits].
  apply list_elem_of_fmap in Hin as (v0 & -> & Hin0).
  unfold updateView in Hawaits.
  destruct (decide (rowId v0 = rowId v)) as [Hid|Hid].
  - unfold awaitsConfirmation in Hawaits. simpl in Hawaits.
    rewrite !andb_true_iff, negb_true_iff, bool_decide_eq_false in Hawaits.
    destruct Hawaits as [[_ Hn] _]. by apply Hn.
  - assert (v0 ∈ filter (λ a, awaitsConfirmation u a = true) (assignmentViews w))
      as Hv0 by (by apply list_elem_of_filter).
    rewrite Hone in Hv0. apply list_elem_of_singleton in Hv0. by subst v0.
Qed.

Lemma handleGiftConfirmation_idle u lowerText token w :
  List.find (awaitsConfirmation u) (assignmentViews w) = None →
  handleGiftConfirmation u lowerText token w = (Some false, w).
Proof.
  intros Hnone. unfold handleGiftConfirmation, bind.
  cbn [getAllAssignmentsWithDetails gets]. fold (assignmentViews w).
  by rewrite Hnone.
Qed.

Lemma confirmAll_idle u token later w :
  List.find (awaitsConfirmation u) (assignmentViews w) = None →
  confirmAll u token later w = w.
Proof.
  intros Hnone. unfold confirmAll.
  induction later as [|t later IH]; [done|]. simpl.
  by rewrite handleGiftConfirmation_idle.
Qed.

(** A reply that is negative and not affirmative: an encouragement goes
    to the giver and the assignments stay as they are. *)
Lemma handleGiftConfirmation_no u lowerText token w v :
  List.find (awaitsConfirmation u) (assignmentViews w) = Some v →
  isYes lowerText = false → isNo lowerText = true →
  let w1 := (handleGiftConfirmation u lowerText token w).2 in
  assignments (db w1) = assignments (db w) ∧
  outbox w1
  = outbox w ++
    [Slack.mkOutbound u
       (Slack.Encouragement (Participant.name (AssignmentWithDetails.receiver v)))
       (slackApi w (slackCalls w))].
Proof.
  intros Hfind Hyes Hno w1. subst w1.
  destruct (handleGiftConfirmation u lowerText token w) as [res w1] eqn:Hrun.
  revert Hrun. unfold handleGiftConfirmation.
  unfold bind at 1. cbn [getAllAssignmentsWithDetails gets].
  fold (assignmentViews w). rewrite Hfind, Hyes, Hno. cbn [negb andb].
  cbv [bind ret throw postMessage nextAnswer modify]. simpl.
  destruct (slackApi w (slackCalls w)); by intros [= <- <-].
Qed.

Lemma marked_row_is_sent w w1 v g :
  v ∈ assignmentViews w →
  keepsKeys g → (∀ r, Assignment.giftSent (g r) = Some true) →
  assignments (db w1) = updateWhere Assignment.id (rowId v) g (assignments (db w)) →
  ∃ r, lookupAssignment (rowId v) w1 = Some r ∧ Assignment.giftSent r = Some true.
Proof.
  intros Hin Hg Hsent Ha.
  apply view_row_in_table, lookupAssignment_is_Some in Hin as (r0 & Hr0 & _).
  exists (g r0). split; [|done].
  unfold lookupAssignment in *. rewrite Ha.
  rewrite find_updateWhere by (intros r; apply Hg).
  by rewrite decide_True, Hr0.
Qed.

(** C6 (as amended).  Let exactly one assignment await the confirmation
    of a giver.  On an affirmative reply the handler marks it as sent and
    sends the notice to the receiver once if the receiver has a Slack
    identifier and was not notified before, and not at all otherwise;
    however often the handler runs again for that giver, nothing more
    happens.  On a reply that is negative and not affirmative it sends an
    encouragement to the giver and leaves the assignments as they are. *)
Theorem gift_confirmed_once u token lowerText w v :
  filter (λ a, awaitsConfirmation u a = true) (assignmentViews w) = [v] →
  let w1 := (handleGiftConfirmation u lowerText token w).2 in
  (isYes lowerText = true →
     (∃ r, lookupAssignment (rowId v) w1 = Some r ∧
           Assignment.giftSent r = Some true) ∧
     (∃ sent, outbox w1 = outbox w ++ sent ∧
        giftNotices sent
        = match receiverToNotify v with
          | Some channel =>
              [Slack.mkOutbound channel Slack.GiftOnItsWay
                 (slackApi w (slackCalls w))]
          | None => []
          end) ∧
     (∀ later, confirmAll u token later w1 = w1))
  ∧
  (isYes lowerText = false → isNo lowerText = true →
     assignments (db w1) = assignments (db w) ∧
     outbox w1
     = outbox w ++
       [Slack.mkOutbound u
          (Slack.Encouragement
             (Participant.name (AssignmentWithDetails.receiver v)))
          (slackApi w (slackCalls w))]).
Proof.
  intros Hone w1.
  pose proof (find_of_filter_singleton _ _ _ Hone) as Hfind.
  split.
  - intros Hyes. subst w1.
    destruct (handleGiftConfirmation u lowerText token w) as [res w1] eqn:Hrun.
    apply (handleGiftConfirmation_yes _ _ _ _ v) in Hrun
      as (g & sent & Hg & Hsent & Ha & Hp & Hout & Hnotices); [|done..].
    simpl. split_and!.
    + apply (marked_row_is_sent w w1 v g); try done.
      by apply find_Some_filter in Hfind as [? _].
    + by exists sent.
    + intros later. apply confirmAll_idle.
      by apply (nothing_left_to_confirm u w w1 v g).
  - intros Hyes Hno. by apply handleGiftConfirmation_no.
Qed.

(** C10 (as amended).  For a giver with an assignment awaiting
    confirmation the affirmative test is made first: a reply that equals
    "yes" or "y" or contains "sent" or "done" marks the gift as sent,
    whatever the negative test says of it.  "not yet sent" passes both
    tests; "not sent yet" passes the affirmative test only, because the
    negative test asks for "no", "n" or the unbroken "not yet". *)
Theorem affirmative_reply_wins u token lowerText w v :
  List.find (awaitsConfirmation u) (assignmentViews w) = Some v →
  (bool_decide (lowerText = "yes") || bool_decide (lowerText = "y")
   || JS.includes lowerText "sent" || JS.includes lowerText "done") = true →
  (∃ r, lookupAssignment (rowId v)
          (handleGiftConfirmation u lowerText token w).2 = Some r ∧
        Assignment.giftSent r = Some true) ∧
  (isYes "not yet sent" = true ∧ isNo "not yet sent" = true) ∧
  (isYes "not sent yet" = true ∧ isNo "not sent yet" = false).
Proof.
  intros Hfind Hyes. split; [|by vm_compute].
  destruct (handleGiftConfirmation u lowerText token w) as [res w1] eqn:Hrun.
  apply (handleGiftConfirmation_yes _ _ _ _ v) in Hrun
    as (g & sent & Hg & Hsent & Ha & _); [|done..].
  apply (marked_row_is_sent w w1 v g); try done.
  by apply find_Some_filter in Hfind as [? _].
Qed.

End GiftConfirmation.

(* ===================================================================== *)
(** * The onboarding conversation ([processSlackMessage]) *)
(* ===================================================================== *)

Section OnboardingFacts.
Import Storage Server.

Lemma returns_ret {A} (Q : A → Prop) a : Q a → returns Q (ret a).
Proof. by intros HQ w a' w' [= <- _]. Qed.

Lemma returns_bind {A B} (Q : B → Prop) (m : M A) (k : A → M B) :
  (∀ a, returns Q (k a)) → returns Q (bind m k).
Proof.
  intros Hk w b w'. unfold bind. destruct (m w) as [[a|] w1]; [|done].
  apply Hk.
Qed.

(** The handlers of this section leave the sessions table alone, except
    for [updateOnboardingSession]. *)
Lemma postMessage_sameSessions channel text :
  keeps sameSessions (postMessage channel text).
Proof. intros w. unfold postMessage, bind. simpl. by destruct (slackApi w _). Qed.

Lemma fetch_sameSessions : keeps sameSessions fetch.
Proof. intros w. unfold fetch, bind. simpl. by destruct (slackApi w _). Qed.

Lemma getSlackToken_sameSessions : keeps sameSessions getSlackToken.
Proof. intros w. destruct (getSlackToken_run w) as [t ->]. reflexivity. Qed.

Lemma getAdminContactMention_sameSessions : keeps sameSessions getAdminContactMention.
Proof. intros w. destruct (getAdminContactMention_run w) as [t ->]. reflexivity. Qed.

Lemma handleGiftConfirmation_sameSessions u lowerText token :
  keeps sameSessions (handleGiftConfirmation u lowerText token).
Proof.
  unfold handleGiftConfirmation.
  repeat first
    [ apply postMessage_sameSessions
    | (by intros w)
    | frame_step ].
Qed.

Lemma dispatch_sameSessions session contact messageText lowerText :
  keeps sameSessions (dispatch session contact messageText lowerText).
Proof.
  unfold dispatch.
  repeat first
    [ apply getSlackToken_sameSessions | apply getAdminContactMention_sameSessions
    | apply fetch_sameSessions
    | apply json_keeps; apply _
    | (by intros w)
    | frame_step ].
Qed.


(** A step that the [switch] hands back holds the state without an
    update, or moves the state forward. *)
Lemma dispatch_allowed session contact messageText lowerText :
  returns (λ step, ∀ st, step = Some st → stepAllowed session st)
          (dispatch session contact messageText lowerText).
Proof.
  unfold dispatch. cbv zeta.
  repeat match goal with
  | |- returns _ (bind _ _) => apply returns_bind; intros ?
  | |- returns _ (if decide _ then _ else _) => case_decide
  | |- returns _ (if ?b then _ else _) => destruct b
  | |- returns _ (ret _) => apply returns_ret; intros st [= <-]
  end.
  all: first
    [ by left
    | right;
      match goal with
      | Hst : Session.conversationState _ = _ |- _ => simpl; rewrite Hst
      end;
      eexists _, _; split_and!; [reflexivity|reflexivity|lia] ].
Qed.

(** A finished session is left alone: the [switch] returns at once. *)
Lemma dispatch_terminal session contact messageText lowerText w :
  isTerminal (Session.conversationState session) →
  dispatch session contact messageText lowerText w = (Some None, w).
Proof. unfold dispatch. by intros [-> | ->]. Qed.

Lemma find_updateWhere_keeping {A} (P : A → bool) (getId : A → string)
    (f : A → A) id rows :
  (∀ r, P (f r) = P r) →
  List.find P (updateWhere getId id f rows)
  = (λ r, if decide (getId r = id) then f r else r) <$> List.find P rows.
Proof.
  intros HP. induction rows as [|r rows IH]; [done|].
  unfold updateWhere in *. cbn [fmap list_fmap List.find].
  destruct (decide (getId r = id)) as [Hr|Hr].
  - rewrite HP. destruct (P r); [|apply IH]. simpl. by rewrite decide_True.
  - destruct (P r); [|apply IH]. simpl. by rewrite decide_False.
Qed.

Lemma sessionOf_same u w w' :
  sameSessions w w' → sessionOf u w' = sessionOf u w.
Proof. unfold sameSessions, sessionOf. by intros ->. Qed.

(** The session after one message: the one before, or the one before
    with an allowed step applied to it. *)
Lemma processSlackMessage_session u messageText w s :
  sessionOf u w = Some s →
  sessionOf u (processSlackMessage u messageText w).2 = Some s ∨
  ∃ st now, stepAllowed s st ∧
    sessionOf u (processSlackMessage u messageText w).2
    = Some (Session.apply (newState st) (updates st) now s).
Proof.
  intros Hs.
  destruct (processSlackMessage u messageText w) as [res wf] eqn:Hrun.
  cbn [snd]. revert Hrun.
  unfold processSlackMessage. unfold bind at 1.
  destruct (getSlackToken_run w) as [t ->].
  destruct t as [token|]; [|intros [= _ <-]; by left].
  set (lowerText := JS.trim (JS.toLowerCase messageText)).
  unfold bind at 1.
  pose proof (handleGiftConfirmation_sameSessions u lowerText token w) as Hgift.
  destruct (handleGiftConfirmation u lowerText token w) as [[handled|] w1];
    simpl in Hgift;
    [|intros [= _ <-]; left; by rewrite (sessionOf_same u w w1)].
  destruct handled;
    [intros [= _ <-]; left; by rewrite (sessionOf_same u w w1)|].
  unfold bind at 1. cbn [getOnboardingSession gets].
  fold (sessionOf u w1). rewrite (sessionOf_same u w w1), Hs by done.
  unfold bind at 1. cbn [getSlackContactByUserId gets].
  destruct (List.find _ (slackContacts (db w1))) as [contact|];
    [|intros [= _ <-]; left; by rewrite (sessionOf_same u w w1)].
  unfold bind at 1.
  pose proof (dispatch_sameSessions s contact messageText lowerText w1) as Hd.
  pose proof (dispatch_allowed s contact messageText lowerText w1) as Hallowed.
  destruct (dispatch s contact messageText lowerText w1) as [[step|] w2];
    simpl in Hd.
  2:{ intros [= _ <-]. left. rewrite (sessionOf_same u w w2); [done|]. by etrans. }
  assert (sessionOf u w2 = Some s) as Hs2.
  { rewrite (sessionOf_same u w w2); [done|]. by etrans. }
  destruct step as [st|]; [|intros [= _ <-]; by left].
  unfold bind at 1. cbn [updateOnboardingSession bind newDate gets modify].
  set (w3 := withDb _ w2).
  assert (sessionOf u w3
          = Some (Session.apply (newState st) (updates st) (clock w2) s)) as Hs3.
  { subst w3. unfold sessionOf in *. simpl.
    rewrite find_updateWhere_keeping by done. rewrite Hs2. simpl.
    by rewrite decide_True. }
  intros Hrun. right. exists st, (clock w2). split; [by eapply Hallowed|].
  destruct (responseMessage st) as [prompt|]; [|by injection Hrun as _ <-].
  revert Hrun. unfold bind.
  pose proof (postMessage_sameSessions u (Slack.Onboarding prompt) w3) as Hp.
  destruct (postMessage u (Slack.Onboarding prompt) w3) as [[r|] w4];
    simpl in *; intros [= _ <-]; by rewrite (sessionOf_same u w3 w4).
Qed.


Lemma stateRank_lt_ne state state' i j :
  stateRank state = Some i → stateRank state' = Some j → i < j → state' ≠ state.
Proof. intros Hi Hj Hlt ->. rewrite Hi in Hj. injection Hj as ->. lia. Qed.

Lemma advances_trans s1 s2 s3 : advances s1 s2 → advances s2 s3 → advances s1 s3.
Proof.
  intros [->|(i & j & Hi & Hj & Hij)] [->|(j' & k & Hj' & Hk & Hjk)].
  - by left.
  - right. by exists j', k.
  - right. by exists i, j.
  - right. rewrite Hj in Hj'. injection Hj' as <-. exists i, k.
    split_and!; [done|done|lia].
Qed.

(** A state that moved forward twice has not come back. *)
Lemma advances_back s1 s2 s3 :
  advances s1 s2 → advances s2 s3 → s3 = s1 → s2 = s1.
Proof.
  intros [->|(i & j & Hi & Hj & Hij)] H23 Heq; [done|]. exfalso.
  destruct H23 as [->|(j' & k & Hj' & Hk & Hjk)].
  - by apply (stateRank_lt_ne s1 s2 i j).
  - subst s3. rewrite Hj in Hj'. injection Hj' as <-.
    rewrite Hi in Hk. injection Hk as <-. lia.
Qed.

Global Instance laterSession_preorder : PreOrder laterSession.
Proof.
  split.
  - intros s. split; [done|by left|done].
  - intros s1 s2 s3 [Hf12 Hs12 Hh12] [Hf23 Hs23 Hh23]. split.
    + by etrans.
    + by eapply advances_trans.
    + intros Heq f.
      assert (Session.conversationState s2 = Session.conversationState s1) as H21
        by (by eapply advances_back).
      rewrite Hh23 by congruence. by apply Hh12.
Qed.

Lemma get_apply_kept newState u now s f :
  is_Some (Session.get f s) →
  is_Some (Session.get f (Session.apply newState u now s)).
Proof.
  destruct f; simpl; unfold Session.overwrite; intros Hs;
    by repeat case_match.
Qed.

Lemma apply_later s st now :
  stepAllowed s st →
  laterSession s (Session.apply (newState st) (updates st) now s).
Proof.
  intros Hallowed. split.
  - intros f. unfold Session.collected. rewrite !list_elem_of_filter.
    intros [Hf Hin]. split; [by apply get_apply_kept|done].
  - destruct Hallowed as [[-> _]|Hlt]; [by left|by right].
  - simpl. intros Heq f.
    destruct Hallowed as [[_ ->]|(i & j & Hi & Hj & Hij)]; [by destruct f|].
    exfalso. exact (stateRank_lt_ne _ _ _ _ Hi Hj Hij Heq).
Qed.

(** Gift confirmations send no onboarding prompt. *)
Lemma postMessage_outboxGrowsBy (P : Slack.Outbound → Prop) channel text :
  (∀ r, P (Slack.mkOutbound channel text r)) →
  keeps (outboxGrowsBy P) (postMessage channel text).
Proof.
  intros HP w. exists [Slack.mkOutbound channel text (slackApi w (slackCalls w))].
  split; [apply postMessage_outbox|]. by constructor.
Qed.

Lemma outbox_untouched (P : Slack.Outbound → Prop) (f : World → World) :
  (∀ w, outbox (f w) = outbox w) → keeps (outboxGrowsBy P) (modify f).
Proof. intros Hf w. exists []. simpl. by rewrite Hf, app_nil_r. Qed.

Lemma handleGiftConfirmation_no_prompt u lowerText token :
  keeps (outboxGrowsBy (λ o, Slack.isOnboarding (Slack.text o) = false))
        (handleGiftConfirmation u lowerText token).
Proof.
  unfold handleGiftConfirmation, updateAssignmentGiftStatus,
    updateAssignmentReceiverNotified, getAllAssignmentsWithDetails, newDate.
  repeat first
    [ apply postMessage_outboxGrowsBy; by intros r
    | apply outbox_untouched; by intros w
    | frame_step ].
Qed.

Lemma onboardingPrompts_grow w w' :
  outboxGrowsBy (λ o, Slack.isOnboarding (Slack.text o) = false) w w' →
  onboardingPrompts (outbox w') = onboardingPrompts (outbox w).
Proof.
  intros (sent & -> & Hsent). unfold onboardingPrompts.
  rewrite filter_app.
  assert (filter (λ o, Slack.isOnboarding (Slack.text o) = true) sent = []) as ->.
  { induction Hsent as [|o sent Ho _ IH]; [done|].
    rewrite filter_cons, decide_False by (by rewrite Ho). done. }
  by rewrite app_nil_r.
Qed.

(** A message to a finished session: the sessions table stays as it is
    and no onboarding prompt is sent. *)
Lemma processSlackMessage_terminal u messageText w s :
  sessionOf u w = Some s →
  isTerminal (Session.conversationState s) →
  let w' := (processSlackMessage u messageText w).2 in
  slackOnboardingSessions (db w') = slackOnboardingSessions (db w) ∧
  onboardingPrompts (outbox w') = onboardingPrompts (outbox w).
Proof.
  intros Hs Hterminal.
  destruct (processSlackMessage u messageText w) as [res wf] eqn:Hrun.
  cbn [snd]. cbv zeta. revert Hrun.
  unfold processSlackMessage. unfold bind at 1.
  destruct (getSlackToken_run w) as [t ->].
  destruct t as [token|]; [|by intros [= _ <-]].
  set (lowerText := JS.trim (JS.toLowerCase messageText)).
  unfold bind at 1.
  pose proof (handleGiftConfirmation_sameSessions u lowerText token w) as Hgift.
  pose proof (handleGiftConfirmation_no_prompt u lowerText token w) as Hout.
  apply onboardingPrompts_grow in Hout.
  destruct (handleGiftConfirmation u lowerText token w) as [[handled|] w1];
    simpl in Hgift, Hout; [|by intros [= _ <-]].
  destruct handled; [by intros [= _ <-]|].
  unfold bind at 1. cbn [getOnboardingSession gets].
  fold (sessionOf u w1). rewrite (sessionOf_same u w w1), Hs by done.
  unfold bind at 1. cbn [getSlackContactByUserId gets].
  destruct (List.find _ (slackContacts (db w1))) as [contact|];
    [|by intros [= _ <-]].
  unfold bind at 1. rewrite dispatch_terminal by done.
  by intros [= _ <-].
Qed.


Lemma processSlackMessage_later u messageText w s :
  sessionOf u w = Some s →
  ∃ s', sessionOf u (processSlackMessage u messageText w).2 = Some s' ∧
        laterSession s s'.
Proof.
  intros Hs.
  destruct (processSlackMessage_session u messageText w s Hs)
    as [Hsame|(st & now & Hallowed & Hstep)].
  - exists s. split; [done|reflexivity].
  - eexists. split; [exact Hstep|]. by apply apply_later.
Qed.

(** C5. Whatever messages [processSlackMessage] handles for the user of
    an onboarding session, the session it ends with has every field that
    was collected before, its state has not moved backward, and while the
    state is held the fields are unchanged (a failed validation only
    prompts again).  A session in the state Completed or Declined stays
    as it is: the sessions table does not change, and no onboarding
    prompt is sent. *)
Theorem onboarding_session_never_regresses u messages w s :
  sessionOf u w = Some s →
  let w' := processAll u messages w in
  ∃ s', sessionOf u w' = Some s' ∧
    laterSession s s' ∧
    (isTerminal (Session.conversationState s) →
       s' = s ∧
       slackOnboardingSessions (db w') = slackOnboardingSessions (db w) ∧
       onboardingPrompts (outbox w') = onboardingPrompts (outbox w)).
Proof.
  simpl. revert w s. induction messages as [|m messages IH]; intros w s Hs.
  { exists s. split_and!; [done|reflexivity|done]. }
  unfold processAll in *. cbn [foldl].
  set (w1 := (processSlackMessage u m w).2).
  destruct (processSlackMessage_later u m w s Hs) as (s1 & Hs1 & Hlater1).
  fold w1 in Hs1.
  destruct (IH w1 s1 Hs1) as (s' & Hs' & Hlater & Hterminal').
  exists s'. split_and!; [done|by etrans|].
  intros Hterminal.
  destruct (processSlackMessage_terminal u m w s Hs Hterminal) as [Htable Hout].
  fold w1 in Htable, Hout.
  assert (s1 = s) as ->.
  { unfold sessionOf in Hs, Hs1. rewrite Htable, Hs in Hs1. by injection Hs1. }
  destruct (Hterminal' Hterminal) as (-> & Htable' & Hout').
  split_and!; [done|congruence|congruence].
Qed.

End OnboardingFacts.

(* ===================================================================== *)
(** * The routes for matching and for exclusions *)
(* ===================================================================== *)

Section RouteFacts.
Import Storage Routes Examples.

(** The event that [/api/events/match] works on is fetched or made
    without touching the random source, the participants, the exclusions
    or the assignments. *)
Lemma currentEvent_or_created w :
  ∃ e w1,
    match head (events (db w)) with
    | Some e => ret e
    | None =>
        let* now := newDate in
        createEvent (Event.SecretSantaOfYear now) "draft" None
    end w = (Some e, w1) ∧
    random w1 = random w ∧
    participants (db w1) = participants (db w) ∧
    exclusions (db w1) = exclusions (db w) ∧
    assignments (db w1) = assignments (db w).
Proof.
  cbv [bind getCurrentEvent gets ret newDate createEvent genRandomUuid modify].
  destruct (head (events (db w))) as [e|] eqn:He; simpl.
  - by exists e, w.
  - rewrite He. simpl. by eexists _, _.
Qed.

(** C8 (as amended).  With fewer than two identifiers [generateMatching]
    answers [null] at once, without starting an attempt and without
    drawing a random number; this is the same [null] that it answers when
    the attempts are used up.  The condition of its own is raised by the
    route: with fewer than three participants [/api/events/match] answers
    400 with the message for too few participants, without calling the
    engine and without touching the assignments, and when the engine
    finds nothing for three or more it answers 400 with another message. *)
Theorem too_few_participants_fail_fast ids pairs g w :
  (length ids < 2 → Matching.generateMatchingRun ids pairs g = (None, 0, g)) ∧
  (length (participants (db w)) < 3 →
     ∃ w', postEventsMatch w
           = (Some (mkResponse 400 (ErrorBody TOO_FEW_PARTICIPANTS)), w') ∧
           random w' = random w ∧
           assignments (db w') = assignments (db w)) ∧
  (3 ≤ length (participants (db w)) →
     Matching.generateMatching (Participant.id <$> participants (db w))
       ((λ e, Matching.mkExclusionPair (Exclusion.participantId e)
                (Exclusion.excludedParticipantId e)) <$> exclusions (db w))
       (random w) = None →
     ∃ w', postEventsMatch w
           = (Some (mkResponse 400 (ErrorBody NO_VALID_MATCHING)), w') ∧
           assignments (db w') = assignments (db w)) ∧
  TOO_FEW_PARTICIPANTS ≠ NO_VALID_MATCHING.
Proof.
  split_and!; [apply generateMatchingRun_too_few| | |done].
  - intros Hfew. unfold postEventsMatch, tryCatch. unfold bind at 1.
    cbn [getCurrentEvent gets]. unfold bind at 1.
    destruct (currentEvent_or_created w) as (e & w1 & -> & Hr & Hp & _ & Ha).
    cbv [bind getParticipants gets]. rewrite Hp.
    apply Nat.ltb_lt in Hfew as ->. by exists w1.
  - intros Hmany Hnone. unfold postEventsMatch, tryCatch. unfold bind at 1.
    cbn [getCurrentEvent gets]. unfold bind at 1.
    destruct (currentEvent_or_created w) as (e & w1 & -> & Hr & Hp & Hx & Ha).
    cbv [bind getParticipants getExclusionPairs gets]. rewrite Hp.
    apply Nat.ltb_ge in Hmany as ->. rewrite Hx.
    unfold generateMatching. rewrite Hr.
    unfold Matching.generateMatching in Hnone.
    destruct (Matching.generateMatchingRun _ _ _) as [[res n] g'].
    simpl in Hnone. subst res. by eexists.
Qed.

Lemma too_few_participants_fail_fast_witness :
  Matching.generateMatchingRun ["solo"] [] Matching.countingRng
    = (None, 0, Matching.countingRng) ∧
  TOO_FEW_PARTICIPANTS ≠ NO_VALID_MATCHING.
Proof.
  destruct (too_few_participants_fail_fast ["solo"] [] Matching.countingRng
              (world [] [] [] alwaysOk 0)) as (Hengine & _ & _ & Hdistinct).
  split; [apply Hengine; vm_compute; lia|exact Hdistinct].
Defined.

(** One identifier is too few; two participants of whom the first
    excludes the second cannot be matched.  The engine gives the same
    answer to both. *)
Lemma too_few_is_answered_like_infeasible :
  Matching.generateMatching ["solo"] [] Matching.countingRng = None ∧
  Matching.generateMatching ["a"; "b"] [Matching.mkExclusionPair "a" "b"]
    Matching.countingRng = None ∧
  Matching.generateMatching ["solo"] [] Matching.countingRng
  = Matching.generateMatching ["a"; "b"] [Matching.mkExclusionPair "a" "b"]
      Matching.countingRng.
Proof. by vm_compute. Qed.

(** The schema accepts any two strings: it does not compare them. *)
Lemma insertExclusionSchema_parse_strings (fields : gmap string JsonValue) p e :
  fields !! "participantId" = Some (JString p) →
  fields !! "excludedParticipantId" = Some (JString e) →
  insertExclusionSchema_parse (Some fields) = Some (p, e).
Proof. intros Hp He. unfold insertExclusionSchema_parse. simpl. by rewrite Hp, He. Qed.

(** The route stores the pair it is given whenever both identifiers are
    those of participants, equal or not. *)
Lemma postExclusions_accepts (fields : gmap string JsonValue) p e w gp ge :
  fields !! "participantId" = Some (JString p) →
  fields !! "excludedParticipantId" = Some (JString e) →
  findParticipant p (participants (db w)) = Some gp →
  findParticipant e (participants (db w)) = Some ge →
  let stored := Exclusion.mk (uuid w (uuidsDrawn w)) p e in
  (postExclusions (Some fields) w).1
    = Some (mkResponse 200 (ExclusionCreated stored)) ∧
  exclusions (db (postExclusions (Some fields) w).2)
    = exclusions (db w) ++ [stored].
Proof.
  intros Hp He Hgp Hge. unfold postExclusions.
  rewrite (insertExclusionSchema_parse_strings fields p e) by done.
  cbv [tryCatch bind createExclusion gets genRandomUuid modify ret].
  by rewrite Hgp, Hge.
Qed.

(** A body that the schema refuses changes nothing. *)
Lemma postExclusions_rejects body w :
  insertExclusionSchema_parse body = None →
  postExclusions body w = (Some (mkResponse 400 ZodIssues), w).
Proof. intros Hparse. unfold postExclusions. by rewrite Hparse. Qed.

(** The dialog of the client refuses to exclude a participant from
    themselves. *)
Lemma handleAddExclusion_self id :
  id ≠ EmptyString →
  ExclusionDialog.handleAddExclusion id id
  = ExclusionDialog.Toast "Error" "Cannot exclude a participant from themselves.".
Proof.
  intros Hid. unfold ExclusionDialog.handleAddExclusion.
  destruct id as [|c id]; [done|]. simpl. by rewrite decide_True.
Qed.

(** C9 (the defect).  A request to [/api/exclusions] whose two
    identifiers are the same participant is answered 200 and the pair is
    stored, although the dialog of the client refuses the same pair. *)
Theorem self_exclusion_is_stored :
  let body : RequestBody :=
    Some (<["participantId" := JString "p1"]>
          (<["excludedParticipantId" := JString "p1"]> ∅)) in
  let w := world [] [] [] alwaysOk 0 in
  (postExclusions body w).1
    = Some (mkResponse 200 (ExclusionCreated (Exclusion.mk "a-uuid" "p1" "p1"))) ∧
  exclusions (db w) = [] ∧
  exclusions (db (postExclusions body w).2) = [Exclusion.mk "a-uuid" "p1" "p1"] ∧
  ExclusionDialog.handleAddExclusion "p1" "p1"
  = ExclusionDialog.Toast "Error" "Cannot exclude a participant from themselves.".
Proof. by vm_compute. Qed.

End RouteFacts.

(* ===================================================================== *)
(** * The properties on concrete data *)
(* ===================================================================== *)

Section Scenarios.
Import Storage Server Examples.
Local Open Scope Z_scope.

Lemma gift_confirmed_once_witness :
  let w1 := (handleGiftConfirmation "U2" "yes" "xoxb-token" reminded).2 in
  filter (λ a, awaitsConfirmation "U2" a = true) (assignmentViews reminded)
    = [bobToAlice] ∧
  isYes "yes" = true ∧
  (∃ sent, outbox w1 = outbox reminded ++ sent ∧
     giftNotices sent = [Slack.mkOutbound "U1" Slack.GiftOnItsWay replyOk]) ∧
  confirmAll "U2" "xoxb-token" ["yes"; "done"; "sent"] w1 = w1.
Proof.
  intros w1.
  assert (filter (λ a, awaitsConfirmation "U2" a = true) (assignmentViews reminded)
          = [bobToAlice]) as Hone by reflexivity.
  destruct (gift_confirmed_once "U2" "xoxb-token" "yes" reminded bobToAlice Hone)
    as [Hyes _].
  destruct (Hyes eq_refl) as (_ & Hsent & Hlater).
  split_and!; [exact Hone|reflexivity|exact Hsent|apply Hlater].
Defined.

(** Carol has no Slack identifier on record.  Alice, whose only
    assignment awaiting confirmation is the one to Carol, confirms: the
    gift is marked as sent, Alice is thanked, and no notice goes to the
    receiver, now or when the handler runs again. *)
Lemma gift_notice_needs_slack_id_counterexample :
  let w1 := (handleGiftConfirmation "U1" "yes" "xoxb-token" reminded).2 in
  let w2 := (handleGiftConfirmation "U1" "yes" "xoxb-token" w1).2 in
  filter (λ a, awaitsConfirmation "U1" a = true) (assignmentViews reminded)
    = [aliceToCarol] ∧
  isYes "yes" = true ∧
  Assignment.giftSent <$> lookupAssignment "a1" w1 = Some (Some true) ∧
  outbox w2 = [Slack.mkOutbound "U1" (Slack.ThanksForConfirming "Carol") replyOk] ∧
  length (giftNotices (outbox w2)) ≠ 1%nat.
Proof. vm_compute. split_and!; (reflexivity || discriminate). Qed.

Lemma affirmative_reply_wins_witness :
  List.find (awaitsConfirmation "U2") (assignmentViews reminded) = Some bobToAlice ∧
  isNo "not yet sent" = true ∧
  ∃ r, lookupAssignment "a2"
         (handleGiftConfirmation "U2" "not yet sent" "xoxb-token" reminded).2
       = Some r ∧ Assignment.giftSent r = Some true.
Proof.
  split; [reflexivity|]. split; [reflexivity|].
  refine (proj1 (affirmative_reply_wins "U2" "xoxb-token" "not yet sent"
                   reminded bobToAlice _ _)); reflexivity.
Defined.

(** "not sent yet" is taken for an affirmative reply, but it does not pass
    the negative test: it is neither "no" nor "n" and does not contain
    "not yet". *)
Lemma not_sent_yet_is_not_negative_counterexample :
  isYes "not sent yet" = true ∧
  JS.includes "not sent yet" "not yet" = false ∧
  isNo "not sent yet" ≠ true.
Proof. vm_compute. split_and!; (reflexivity || discriminate). Qed.

Lemma onboarding_session_never_regresses_witness :
  let s := sessionIn "s1" "c1" "U9" ONBOARDING_STATES.AWAITING_CONSENT in
  sessionOf "U9" invited = Some s ∧
  ∃ s', sessionOf "U9" (processAll "U9" ["yes"; "x"; "ada lovelace"] invited)
        = Some s' ∧ laterSession s s'.
Proof.
  intros s. split; [reflexivity|].
  destruct (onboarding_session_never_regresses "U9" ["yes"; "x"; "ada lovelace"]
              invited s eq_refl) as (s' & Hs' & Hlater & _).
  by exists s'.
Defined.

(** The validation rules of the conversation on an example: a name of one
    character is refused and changes nothing but the time of the last
    interaction; six digits are no phone number, seven are. *)
Example onboarding_validation :
  let named := processAll "U9" ["yes"; "x"] invited in
  let w := processAll "U9" ["yes"; "ada lovelace"; "latvia"; "riga"; "lv-1010";
                            "1 brivibas iela"; "123456"] invited in
  (Session.conversationState <$> sessionOf "U9" named
     = Some ONBOARDING_STATES.COLLECTING_NAME) ∧
  (Session.collected <$> sessionOf "U9" named = Some []) ∧
  (Session.conversationState <$> sessionOf "U9" w
     = Some ONBOARDING_STATES.COLLECTING_PHONE) ∧
  (Session.collectedName <$> sessionOf "U9" w = Some (Some "Ada Lovelace")) ∧
  (Session.conversationState <$> sessionOf "U9" (processAll "U9" ["1234567"] w)
     = Some ONBOARDING_STATES.COLLECTING_NOTES).
Proof. by vm_compute. Qed.

(** A notification pass on an example: the send to Alice is refused, the
    one to Bob goes through, Carol is not found on Slack.  Only Bob's
    assignment is marked. *)
Example notification_pass :
  let after := (sendAllNotifications "e1" None matched).2 in
  (sendAllNotifications "e1" None matched).1 = Some (mkNotifyCounts 1 2) ∧
  notifyOutcomes None (assignmentViews matched) matched
    = [("a1", false); ("a2", true); ("a3", false)] ∧
  Assignment.notified <$> assignments (db after)
    = [Some false; Some true; Some false] ∧
  Assignment.notifiedAt <$> assignments (db after) = [None; Some 77; None].
Proof. by vm_compute. Qed.

End Scenarios.

(* ===================================================================== *)
(** * The matching engine: what the search finds *)
(* ===================================================================== *)

Section MatchingSearch.
Import Matching MatchingSpec.

Section Exhaustive.
Variable exclusionSet : gset string.

Local Abbreviation valid := (λ gv r, isValidAssignment exclusionSet gv r = true).

(** The loop over the candidates does not give up before the search
    below a candidate that leads to a result has been made. *)
Lemma tryReceivers_complete recurse giver receivers current candidates g r :
  r ∈ candidates →
  isValidAssignment exclusionSet giver r = true →
  (∀ cur g0, is_Some (recurse (filter (λ x, x ≠ r) receivers) cur g0).1) →
  is_Some (tryReceivers exclusionSet recurse giver receivers current candidates g).1.
Proof.
  intros Hin Hv Hrec. revert g.
  induction candidates as [|c rest IH]; intros g; [by apply elem_of_nil in Hin|].
  simpl. destruct (decide (c = r)) as [->|Hne].
  - rewrite Hv. destruct (Hrec (current ++ [mkPair giver r]) g) as [found Hf].
    destruct (recurse _ _ g) as [[f|] g1]; simplify_eq/=. by eexists.
  - assert (r ∈ rest) as Hr by (apply elem_of_cons in Hin as [?|?]; done).
    destruct (isValidAssignment exclusionSet giver c); [|by apply IH].
    destruct (recurse _ _ g) as [[f|] g1]; [by eexists|by apply IH].
Qed.

Lemma filter_ne_Permutation (r : string) rs receivers :
  NoDup receivers → r :: rs ≡ₚ receivers →
  rs ≡ₚ filter (λ x, x ≠ r) receivers.
Proof.
  intros Hnd Hp. rewrite <-Hp in Hnd |- *.
  apply NoDup_cons in Hnd as [Hr Hnd].
  rewrite filter_cons_False by (by intros ?).
  clear Hp. symmetry. induction rs as [|x rs IH]; [done|].
  apply not_elem_of_cons in Hr as [Hne Hr]. apply NoDup_cons in Hnd as [_ Hnd].
  rewrite filter_cons_True by done. f_equiv. by apply IH.
Qed.

(** The backtracking search is exhaustive: when the receivers can be
    handed to the givers so that every pair is accepted, it returns a
    result. *)
Lemma findAssignment_complete givers receivers rs current g :
  NoDup receivers → rs ≡ₚ receivers →
  Forall2 valid givers rs →
  is_Some (findAssignment exclusionSet givers receivers current g).1.
Proof.
  intros Hnd Hp Hall. revert receivers current g Hnd Hp.
  induction Hall as [|gv r gs rs Hv _ IH]; intros receivers current g Hnd Hp.
  { by eexists. }
  cbn [findAssignment]. destruct (shuffle receivers g) as [shuffled g1] eqn:Hs.
  apply (tryReceivers_complete _ _ _ _ _ _ r); [|done|].
  - pose proof (shuffle_Permutation receivers g) as Hsh.
    rewrite Hs in Hsh. simpl in Hsh. rewrite Hsh, <-Hp. left.
  - intros cur g0. apply IH; [by apply NoDup_filter|].
    by apply filter_ne_Permutation.
Qed.

Lemma Forall2_Permutation_l {A B} (P : A → B → Prop) l l' k :
  l ≡ₚ l' → Forall2 P l k → ∃ k', k ≡ₚ k' ∧ Forall2 P l' k'.
Proof.
  intros Hp. revert k.
  induction Hp as [|x l1 l2 _ IH|x y l0|l1 l2 l3 _ IH1 _ IH2]; intros k Hall.
  - exists k. by inversion Hall.
  - inversion Hall as [|? b ? k1 Hx Hrest]; subst.
    destruct (IH _ Hrest) as (k2 & Hk & Hall2).
    exists (b :: k2). split; [by f_equiv|by constructor].
  - inversion Hall as [|? b ? k1 Hy Hrest]; subst.
    inversion Hrest as [|? a ? k0 Hx Hrest0]; subst.
    exists (a :: b :: k0). split; [apply Permutation_swap|by repeat constructor].
  - destruct (IH1 _ Hall) as (k2 & Hk2 & Hall2).
    destruct (IH2 _ Hall2) as (k3 & Hk3 & Hall3).
    exists k3. split; [by etrans|done].
Qed.

(** The first attempt succeeds when there is something to find. *)
Lemma attemptLoop_first ids rs remaining attempt g :
  NoDup ids → rs ≡ₚ ids → Forall2 valid ids rs →
  ∃ m g', attemptLoop exclusionSet ids (S remaining) attempt g
          = (Some m, S attempt, g').
Proof.
  intros Hnd Hp Hall. cbn [attemptLoop].
  destruct (shuffle ids g) as [sg g1] eqn:H1.
  destruct (shuffle ids g1) as [sr g2] eqn:H2.
  pose proof (shuffle_Permutation ids g) as Hsg. rewrite H1 in Hsg. simpl in Hsg.
  pose proof (shuffle_Permutation ids g1) as Hsr. rewrite H2 in Hsr. simpl in Hsr.
  destruct (Forall2_Permutation_l valid ids sg rs) as (rs2 & Hrs2 & Hall2);
    [done..|].
  destruct (findAssignment_complete sg sr rs2 [] g2) as [m Hm].
  - by rewrite Hsr.
  - by rewrite <-Hrs2, Hp, Hsr.
  - done.
  - destruct (findAssignment exclusionSet sg sr [] g2) as [[f|] g3]; simplify_eq/=.
    by eexists _, _.
Qed.

End Exhaustive.

(** X1. The search of [generateMatching] is exhaustive, whatever the
    random source: for at least two distinct participants, as soon as the
    receivers can be handed out so that the engine's own test accepts
    every pair, a matching is returned, and on the first attempt. *)
Theorem generateMatching_finds_a_matching ids pairs rs g :
  NoDup ids → 2 ≤ length ids → rs ≡ₚ ids →
  Forall2 (λ gv r, isValidAssignment (buildExclusionSet pairs) gv r = true) ids rs →
  ∃ m g', generateMatchingRun ids pairs g = (Some m, 1, g').
Proof.
  intros Hnd Hlen Hp Hall. unfold generateMatchingRun.
  destruct (Nat.ltb_spec (length ids) 2) as [?|_]; [lia|].
  by apply (attemptLoop_first _ ids rs).
Qed.

Lemma generateMatching_finds_a_matching_witness :
  let ids := ["a"; "b"; "c"] in
  let pairs := [mkExclusionPair "a" "b"] in
  ∃ m g', generateMatchingRun ids pairs countingRng = (Some m, 1, g').
Proof.
  intros ids pairs.
  apply (generateMatching_finds_a_matching ids pairs ["c"; "a"; "b"]).
  - by apply (bool_decide_unpack _).
  - simpl. lia.
  - by apply (bool_decide_unpack _).
  - repeat constructor.
Defined.

Section Reachable.
Context {A : Type}.
Implicit Types l p q : list A.

Lemma advance_0 g : advance 0 g = g.
Proof. destruct g as [s c]. unfold advance. simpl. f_equal. lia. Qed.

Lemma advance_advance n k g : advance k (advance n g) = advance (n + k) g.
Proof. unfold advance. simpl. f_equal. lia. Qed.

Lemma reads_app g d1 d2 :
  reads g (d1 ++ d2) → reads g d1 ∧ reads (advance (length d1) g) d2.
Proof.
  intros Hr. split.
  - intros k d Hk. apply Hr. by apply lookup_app_l_Some.
  - intros k d Hk. simpl. rewrite <-Nat.add_assoc. apply Hr.
    rewrite lookup_app_r by lia. by replace (length d1 + k - length d1) with k by lia.
Qed.

Lemma reads_sourceOf draws : reads (sourceOf draws) draws.
Proof. intros k d Hk. simpl. by rewrite Hk. Qed.

Lemma length_swap l i j : length (swap l i j) = length l.
Proof.
  unfold swap. destruct (l !! i); [|done]. destruct (l !! j); [|done].
  by rewrite !length_insert.
Qed.

Lemma swap_app l s i j :
  i < length l → j < length l → swap (l ++ s) i j = swap l i j ++ s.
Proof.
  intros Hi Hj. unfold swap. rewrite !lookup_app_l by done.
  destruct (l !! i) as [x|]; [|done]. destruct (l !! j) as [y|]; [|done].
  rewrite insert_app_l by done. by rewrite insert_app_l by (by rewrite length_insert).
Qed.

(** The loop of the shuffle at index [i] leaves what lies behind [i]
    alone. *)
Lemma shuffleFrom_app i l s g :
  i < length l →
  shuffleFrom i (l ++ s) g = ((shuffleFrom i l g).1 ++ s, (shuffleFrom i l g).2).
Proof.
  revert l g. induction i as [|i IH]; intros l g Hi; [done|].
  cbn [shuffleFrom]. unfold randomBelow.
  assert (source g (cursor g) mod (S i + 1) < length l) as Hj.
  { pose proof (Nat.mod_upper_bound (source g (cursor g)) (S i + 1)). lia. }
  rewrite swap_app by done. apply IH. rewrite length_swap. lia.
Qed.

(** Every order of the elements is the outcome of the shuffle for some
    numbers drawn, one number for each turn of the loop. *)
Lemma shuffleFrom_reach q p :
  p ≡ₚ q →
  ∃ draws, ∀ g, reads g draws →
    shuffleFrom (length p - 1) p g = (q, advance (length draws) g).
Proof.
  revert p. induction q as [|x q IH] using rev_ind; intros p Hp.
  { apply Permutation_nil_r in Hp as ->. exists []. intros g _. simpl.
    by rewrite advance_0. }
  pose proof (Permutation_length Hp) as Hlen. rewrite length_app in Hlen.
  simpl in Hlen.
  destruct (length q) as [|n] eqn:Hq.
  { apply length_zero_iff_nil in Hq as ->. simpl in Hp.
    apply Permutation_singleton_r in Hp as ->. exists []. intros g _. simpl.
    by rewrite advance_0. }
  assert (x ∈ p) as [j Hj]%list_elem_of_lookup.
  { rewrite Hp, elem_of_app. right. left. }
  pose proof (lookup_lt_Some _ _ _ Hj) as Hjlt.
  destruct (lookup_lt_is_Some_2 p (S n)) as [y Hy]; [lia|].
  set (p1 := swap p (S n) j).
  assert (p1 !! S n = Some x) as Hlast.
  { subst p1. unfold swap. rewrite Hy, Hj.
    destruct (decide (j = S n)) as [->|Hne].
    - rewrite list_lookup_insert_eq by (rewrite length_insert; lia). congruence.
    - rewrite list_lookup_insert_ne by done.
      by rewrite list_lookup_insert_eq by lia. }
  assert (length p1 = S (S n)) as Hlen1 by (subst p1; rewrite length_swap; lia).
  assert (p1 = take (S n) p1 ++ [x]) as Hsplit.
  { rewrite <-(take_drop_middle p1 (S n) x) at 1 by done.
    by rewrite drop_ge by lia. }
  assert (take (S n) p1 ≡ₚ q) as Hp0.
  { apply (inj (.++ [x])). rewrite <-Hsplit. subst p1.
    by rewrite swap_Permutation. }
  destruct (IH _ Hp0) as (draws & Hdraws).
  assert (length (take (S n) p1) = S n) as Hlen0 by (rewrite length_take; lia).
  rewrite Hlen0 in Hdraws. simpl in Hdraws. rewrite Nat.sub_0_r in Hdraws.
  exists (j :: draws). intros g Hg.
  replace (length p - 1) with (S n) by lia.
  cbn [shuffleFrom]. unfold randomBelow.
  replace (source g (cursor g)) with j.
  2:{ symmetry. rewrite <-(Nat.add_0_r (cursor g)). by apply Hg. }
  rewrite Nat.mod_small by lia. fold p1. rewrite Hsplit.
  rewrite shuffleFrom_app by lia.
  rewrite Hdraws.
  - simpl. f_equal. unfold advance. simpl. f_equal. lia.
  - intros k d Hk. simpl. rewrite <-Nat.add_succ_r. by apply Hg.
Qed.

Lemma shuffle_reach l l' :
  l ≡ₚ l' →
  ∃ draws, ∀ g, reads g draws → shuffle l g = (l', advance (length draws) g).
Proof. apply shuffleFrom_reach. Qed.

(** X2. The Fisher-Yates shuffle can bring the elements into every order,
    and into nothing else: a list is the outcome of the shuffle for some
    random source exactly when it is a permutation of the input. *)
Theorem shuffle_reaches_every_order l l' :
  (∃ g, (shuffle l g).1 = l') ↔ l ≡ₚ l'.
Proof.
  split.
  - intros [g <-]. by rewrite shuffle_Permutation.
  - intros (draws & Hd)%shuffle_reach. exists (sourceOf draws).
    by rewrite Hd by apply reads_sourceOf.
Qed.

End Reachable.

Section EveryMatching.
Variable exclusionSet : gset string.

Local Abbreviation valid := (λ gv r, isValidAssignment exclusionSet gv r = true).

(** For suitable numbers drawn the search hands out the receivers just as
    asked, without ever going back. *)
Lemma findAssignment_reach givers rs receivers current :
  Forall2 valid givers rs → NoDup receivers → rs ≡ₚ receivers →
  ∃ draws, ∀ g, reads g draws →
    findAssignment exclusionSet givers receivers current g
    = (Some (current ++ zip_with mkPair givers rs), advance (length draws) g).
Proof.
  intros Hall. revert receivers current.
  induction Hall as [|gv r gs rs Hv _ IH]; intros receivers current Hnd Hp.
  { exists []. intros g _. simpl. by rewrite app_nil_r, advance_0. }
  pose proof (filter_ne_Permutation r rs receivers Hnd Hp) as Hrest.
  destruct (shuffle_reach receivers (r :: filter (λ x, x ≠ r) receivers))
    as (d1 & Hd1).
  { by rewrite <-Hrest. }
  destruct (IH (filter (λ x, x ≠ r) receivers) (current ++ [mkPair gv r]))
    as (d2 & Hd2); [by apply NoDup_filter|done|].
  exists (d1 ++ d2). intros g [Hg1 Hg2]%reads_app.
  cbn [findAssignment]. rewrite (Hd1 g Hg1). cbn [tryReceivers].
  rewrite Hv, (Hd2 _ Hg2). rewrite advance_advance, length_app.
  by rewrite <-app_assoc.
Qed.

Lemma zip_with_fmap_pairs (m : list Pair) :
  zip_with mkPair (giverId <$> m) (receiverId <$> m) = m.
Proof. induction m as [|[gv r] m IH]; [done|]. simpl. by f_equal. Qed.

Lemma accepted_Forall2 (m : list Pair) :
  accepted exclusionSet m → Forall2 valid (giverId <$> m) (receiverId <$> m).
Proof. induction 1; simpl; by constructor. Qed.

(** Some random source makes the first attempt return [m]. *)
Lemma attemptLoop_reach ids m remaining attempt :
  NoDup ids → matches ids m → accepted exclusionSet m →
  ∃ g, (attemptLoop exclusionSet ids (S remaining) attempt g).1.1 = Some m.
Proof.
  intros Hnd [Hg Hr] Hacc.
  destruct (shuffle_reach ids (giverId <$> m)) as (da & Hda); [done|].
  destruct (shuffle_reach ids ids) as (db & Hdb); [done|].
  destruct (findAssignment_reach (giverId <$> m) (receiverId <$> m) ids [])
    as (dc & Hdc); [by apply accepted_Forall2|done|done|].
  exists (sourceOf (da ++ db ++ dc)).
  pose proof (reads_sourceOf (da ++ db ++ dc)) as [Ha [Hb Hc]%reads_app]%reads_app.
  cbn [attemptLoop]. rewrite (Hda _ Ha), (Hdb _ Hb), (Hdc _ Hc). simpl.
  by rewrite zip_with_fmap_pairs.
Qed.

End EveryMatching.

(** X3. The results that [generateMatching] can return, over all random
    sources, are exactly the matchings of the participants that its test
    accepts, provided there are at least two participants and no
    identifier occurs twice: no acceptable matching is out of reach. *)
Theorem generateMatching_reaches_every_matching ids pairs m :
  (∃ g, generateMatching ids pairs g = Some m)
  ↔ 2 ≤ length ids ∧ NoDup ids ∧ matches ids m ∧
    accepted (buildExclusionSet pairs) m.
Proof.
  split.
  - intros [g Hm]. split.
    { destruct (Nat.lt_ge_cases (length ids) 2) as [Hlt|?]; [|done].
      unfold generateMatching in Hm.
      by rewrite generateMatchingRun_too_few in Hm. }
    apply generateMatching_picks in Hm
      as (givers & rs & -> & Hlen & Hg & Hr & Hnd & Hall).
    split; [done|]. split.
    + split; [by rewrite fmap_giverId_zip|by rewrite fmap_receiverId_zip].
    + unfold accepted. clear -Hall. induction Hall; simpl; by constructor.
  - intros (Hlen & Hnd & Hm & Hacc).
    destruct (attemptLoop_reach (buildExclusionSet pairs) ids m 99 0)
      as [g Hg]; [done..|].
    exists g. unfold generateMatching, generateMatchingRun.
    destruct (Nat.ltb_spec (length ids) 2) as [?|_]; [lia|]. exact Hg.
Qed.

Section Keys.

(** Two identifiers of one length and what follows them can be read off
    the key. *)
Lemma exclusionKey_inj g r g' r' :
  String.length g = String.length g' →
  exclusionKey g r = exclusionKey g' r' → g = g' ∧ r = r'.
Proof.
  unfold exclusionKey. revert g'.
  induction g as [|c g IH]; intros [|c' g'] Hlen Heq; simplify_eq/=; [done|].
  destruct (IH g') as [-> ->]; done.
Qed.

(** For identifiers of one length the set of keys says what the list of
    exclusions says. *)
Lemma isValidAssignment_exact len ids pairs g r :
  uniformIds len ids pairs → g ∈ ids →
  isValidAssignment (buildExclusionSet pairs) g r = true
  ↔ g ≠ r ∧ mkExclusionPair g r ∉ pairs.
Proof.
  intros [Hids Hpairs] Hg. split; [apply isValidAssignment_sound|].
  intros [Hne Hnot]. unfold isValidAssignment.
  rewrite decide_False by done. case_decide as Hkey; [|done]. exfalso.
  apply elem_of_buildExclusionSet in Hkey as ([p e] & Hin & Hkey).
  simpl in Hkey. apply exclusionKey_inj in Hkey as [-> ->]; [done|].
  rewrite Forall_forall in Hids. rewrite Forall_forall in Hpairs.
  rewrite (Hids _ Hg). symmetry. by apply (Hpairs _ Hin).
Qed.

End Keys.

(** X4. With keys of one length, as the database makes them, the engine
    answers [null] only when there is nothing to find: for at least two
    distinct participants it returns a matching, whatever the random
    source, exactly when some matching of the participants avoids every
    self-pair and every excluded pair. *)
Theorem generateMatching_iff_possible len ids pairs g :
  NoDup ids → 2 ≤ length ids → uniformIds len ids pairs →
  is_Some (generateMatching ids pairs g)
  ↔ ∃ m, matches ids m ∧ respects pairs m.
Proof.
  intros Hnd Hlen Hu. split.
  - intros [m Hm]. exists m.
    apply generateMatching_picks in Hm
      as (givers & rs & -> & Hl & Hg & Hr & _ & Hall).
    split; [split; [by rewrite fmap_giverId_zip|by rewrite fmap_receiverId_zip]|].
    by apply accepted_pairs.
  - intros (m & [Hg Hr] & Hres).
    assert (Forall2 (λ gv r, isValidAssignment (buildExclusionSet pairs) gv r = true)
              (giverId <$> m) (receiverId <$> m)) as Hall.
    { assert (∀ p, p ∈ m → giverId p ∈ ids) as Hin.
      { intros p Hp. rewrite <-Hg. by apply list_elem_of_fmap_2. }
      clear Hg Hr. induction Hres as [|p m [Hne Hnot] _ IH]; simpl; constructor.
      - apply (isValidAssignment_exact len ids); [done|apply Hin; left|done].
      - apply IH. intros q Hq. apply Hin. by right. }
    destruct (Forall2_Permutation_l _ (giverId <$> m) ids _ Hg Hall)
      as (rs & Hrs & Hall').
    destruct (attemptLoop_first (buildExclusionSet pairs) ids rs 99 0 g)
      as (found & g' & Hrun); [done|by rewrite <-Hrs|done|].
    unfold generateMatching, generateMatchingRun.
    destruct (Nat.ltb_spec (length ids) 2) as [?|_]; [lia|].
    unfold MAX_ATTEMPTS. rewrite Hrun. by eexists.
Qed.

Lemma generateMatching_iff_possible_witness :
  let ids := ["p1"; "p2"; "p3"] in
  let pairs := [mkExclusionPair "p1" "p2"; mkExclusionPair "p2" "p1"] in
  is_Some (generateMatching ids pairs countingRng)
  ↔ ∃ m, matches ids m ∧ respects pairs m.
Proof.
  intros ids pairs. apply (generateMatching_iff_possible 2 ids pairs).
  - by apply (bool_decide_unpack _).
  - simpl. lia.
  - split; repeat constructor.
Defined.

End MatchingSearch.

(* ===================================================================== *)
(** * The schedule computations: how far away the reminders are *)
(* ===================================================================== *)

Section ScheduleWindows.
Import DateFns Tz Schedule.
Context `{ZoneDatabase}.
Local Open Scope Z_scope.

(** X5. In a zone whose offset does not change, the first reminder falls
    on the seventh local day after the day of the notification, at
    10:00:00.000 local time.  Counted from the notification it is not a
    full week away when the notification went out after 10:00 local time:
    it comes more than 7 days less 14 hours and at most 7 days and 10
    hours later. *)
Theorem getFirstReminderDate_window timezone notifiedAt offset :
  offsetAtInstant (orDefault timezone) (addDays notifiedAt 7) = Some offset →
  (∀ wall, offsetAtWallClock (orDefault timezone) wall = Some offset) →
  ∃ first, getFirstReminderDate timezone notifiedAt = Some first ∧
    timeOfDay (first + offset) = REMINDER_HOUR * MS_PER_HOUR ∧
    dayOf (first + offset) = dayOf (notifiedAt + offset) + 7 ∧
    notifiedAt + 7 * MS_PER_DAY - 14 * MS_PER_HOUR < first
      ≤ notifiedAt + 7 * MS_PER_DAY + 10 * MS_PER_HOUR.
Proof.
  intros Ho Hw.
  unfold getFirstReminderDate, firstReminder, toZonedTime, fromZonedTime.
  rewrite Ho. simpl. rewrite Hw. simpl. eexists. split; [done|].
  rewrite atReminderHour_eq.
  unfold timeOfDay, dayOf, atHour, addDays, REMINDER_HOUR, MS_PER_DAY, MS_PER_HOUR.
  split_and!; Z.div_mod_to_equations; lia.
Qed.

(** X6. In a zone whose offset does not change, the instant that
    [getNext10AMInTimezone] answers reads 10:00:00.000 on the local
    clock, is not before the instant asked about and is less than a day
    after it. *)
Theorem getNext10AMInTimezone_within_a_day timezone now offset :
  offsetAtInstant (orDefault timezone) now = Some offset →
  (∀ wall, offsetAtWallClock (orDefault timezone) wall = Some offset) →
  ∃ next, getNext10AMInTimezone timezone now = Some next ∧
    timeOfDay (next + offset) = REMINDER_HOUR * MS_PER_HOUR ∧
    now ≤ next < now + MS_PER_DAY.
Proof.
  intros Ho Hw. unfold getNext10AMInTimezone.
  destruct (next10AM_spec (orDefault timezone) now (now + offset))
    as (target & [Htime Hrange] & ->).
  { unfold toZonedTime. by rewrite Ho. }
  unfold fromZonedTime. rewrite Hw. simpl. eexists. split; [done|].
  replace (target - offset + offset) with target by lia.
  split; [done|lia].
Qed.

End ScheduleWindows.

Section ScheduleWindowsExamples.
Import DateFns Tz Schedule.
Local Open Scope Z_scope.

(** Notified at 19:30 UTC on 12 January 2025, a giver in the zone UTC is
    reminded on 19 January at 10:00 UTC, 6 days 14 hours 30 minutes
    later. *)
Lemma getFirstReminderDate_window_witness :
  let notifiedAt := 20100 * MS_PER_DAY + 19 * MS_PER_HOUR + 30 * MS_PER_MINUTE in
  @getFirstReminderDate sampleZones (Some "UTC") notifiedAt
    = Some (20107 * MS_PER_DAY + 10 * MS_PER_HOUR) ∧
  ∃ first, @getFirstReminderDate sampleZones (Some "UTC") notifiedAt = Some first ∧
    timeOfDay (first + 0) = REMINDER_HOUR * MS_PER_HOUR ∧
    dayOf (first + 0) = dayOf (notifiedAt + 0) + 7 ∧
    notifiedAt + 7 * MS_PER_DAY - 14 * MS_PER_HOUR < first
      ≤ notifiedAt + 7 * MS_PER_DAY + 10 * MS_PER_HOUR.
Proof.
  intros notifiedAt. split; [reflexivity|].
  apply (@getFirstReminderDate_window sampleZones (Some "UTC") notifiedAt 0);
    [reflexivity|intros wall; reflexivity].
Defined.

(** One millisecond after 10:00 UTC the next 10:00 is that of the next
    day. *)
Lemma getNext10AMInTimezone_within_a_day_witness :
  let now := 20100 * MS_PER_DAY + 10 * MS_PER_HOUR + 1 in
  @getNext10AMInTimezone sampleZones (Some "UTC") now
    = Some (20101 * MS_PER_DAY + 10 * MS_PER_HOUR) ∧
  ∃ next, @getNext10AMInTimezone sampleZones (Some "UTC") now = Some next ∧
    timeOfDay (next + 0) = REMINDER_HOUR * MS_PER_HOUR ∧
    now ≤ next < now + MS_PER_DAY.
Proof.
  intros now. split; [reflexivity|].
  apply (@getNext10AMInTimezone_within_a_day sampleZones (Some "UTC") now 0);
    [reflexivity|intros wall; reflexivity].
Defined.

End ScheduleWindowsExamples.

(* ===================================================================== *)
(** * The storage layer: deletions and the settings row *)
(* ===================================================================== *)

Section DeleteFacts.
Import Storage DatabaseStorage Server.

(** A delete goes through when no row that goes is referred to. *)
Lemma deleteReferenced_run {A} (getId : A → string) (goes : A → Prop)
    `{!∀ r, Decision (goes r)} refs rows withRows w :
  (∀ r, r ∈ rows (db w) → goes r → getId r ∉ refs (db w)) →
  deleteReferenced getId goes refs rows withRows w
  = (Some tt, withDb (withRows (filter (λ r, ¬ goes r))) w).
Proof.
  intros Hfree. unfold deleteReferenced, bind, gets. simpl.
  destruct (existsb _ _) eqn:Hex; [exfalso|done].
  apply existsb_exists in Hex as (r & Hin & Hr).
  apply andb_true_iff in Hr as [Hg Href].
  apply bool_decide_eq_true in Hg. apply bool_decide_eq_true in Href.
  by apply (Hfree r); [apply list_elem_of_In|..].
Qed.

Lemma not_elem_of_fmap_filter {A} (f : A → string) (P : A → Prop)
    `{!∀ a, Decision (P a)} x (l : list A) :
  (∀ a, P a → f a ≠ x) → x ∉ f <$> filter P l.
Proof.
  intros HP (a & -> & [Ha _]%list_elem_of_filter)%list_elem_of_fmap.
  by apply (HP a).
Qed.

(** X7. [deleteParticipant] never fails on a foreign key: it first takes
    away every assignment and every exclusion that names the
    participant, so the last delete is not refused.  Afterwards nothing
    refers to the participant; all other participants, and the rows that
    do not name the deleted one, are kept in their order; the other
    tables are untouched; and if every reference named a participant
    before, every reference does so after. *)
Theorem deleteParticipant_leaves_no_reference id w :
  ∃ w', deleteParticipant id w = (Some tt, w') ∧
    participants (db w')
      = filter (λ p, Participant.id p ≠ id) (participants (db w)) ∧
    assignments (db w')
      = filter (λ a, Assignment.giverId a ≠ id ∧ Assignment.receiverId a ≠ id)
               (assignments (db w)) ∧
    exclusions (db w')
      = filter (λ e, Exclusion.participantId e ≠ id ∧
                     Exclusion.excludedParticipantId e ≠ id)
               (exclusions (db w)) ∧
    (id ∉ participantRefs (db w')) ∧
    (participantsResolve (db w) → participantsResolve (db w')) ∧
    events (db w') = events (db w) ∧
    slackSettings (db w') = slackSettings (db w) ∧
    slackContacts (db w') = slackContacts (db w) ∧
    slackOnboardingSessions (db w') = slackOnboardingSessions (db w).
Proof.
  unfold deleteParticipant.
  cbv [bind modify]. cbn [fst snd].
  assert (∀ d r,
    r ∈ participantRefs
          (withAssignments (filter (λ a, Assignment.receiverId a ≠ id))
            (withAssignments (filter (λ a, Assignment.giverId a ≠ id))
              (withExclusions
                 (filter (λ e, Exclusion.excludedParticipantId e ≠ id))
                 (withExclusions
                    (filter (λ e, Exclusion.participantId e ≠ id)) d)))) →
    r ≠ id ∧ r ∈ participantRefs d) as Hrefs.
  { intros d r. unfold participantRefs. simpl. rewrite !elem_of_app.
    intros [Hin|[Hin|[Hin|Hin]]];
      apply list_elem_of_fmap in Hin
        as (x & -> & [? [? ?]%list_elem_of_filter]%list_elem_of_filter);
      (split; [done|]);
      [left|right; left|right; right; left|right; right; right];
      by apply list_elem_of_fmap_2. }
  rewrite deleteReferenced_run.
  2:{ intros r _ -> Hin. simpl in Hin. by apply Hrefs in Hin as [? _]. }
  eexists. split; [reflexivity|]. simpl.
  split_and!; try done.
  - rewrite list_filter_filter. apply list_filter_iff. tauto.
  - rewrite list_filter_filter. apply list_filter_iff. tauto.
  - intros Hin. by apply Hrefs in Hin as [? _].
  - intros Hres r [Hne Hr]%Hrefs.
    apply Hres in Hr. apply list_elem_of_fmap in Hr as (p & -> & Hp).
    apply list_elem_of_fmap_2, list_elem_of_filter. by split.
Qed.

Lemma filter_none {A} (l : list A) : filter (λ _, ¬ True) l = [].
Proof.
  induction l as [|x l IH]; [done|].
  by rewrite filter_cons_False by (by intros Hn; apply Hn).
Qed.

(** X8. [resetAll] clears the tables in an order that the foreign keys
    allow, so it never fails, whatever the tables hold: assignments and
    exclusions go before the participants and the events, the sessions
    before the contacts.  It empties every table but the Slack settings;
    the token and the admin contact in force stay the same. *)
Theorem resetAll_keeps_the_connection w :
  ∃ w', resetAll w = (Some tt, w') ∧
    db w' = mkDatabase [] [] [] [] (slackSettings (db w)) [] [] ∧
    getSlackToken w' = ((getSlackToken w).1, w') ∧
    getAdminContactMention w' = ((getAdminContactMention w).1, w').
Proof.
  unfold resetAll. cbv [bind modify]. cbn [fst snd].
  rewrite deleteReferenced_run by (by intros r _ _ ?%elem_of_nil).
  rewrite deleteReferenced_run by (by intros r _ _ ?%elem_of_nil).
  rewrite deleteReferenced_run by (by intros r _ _ ?%elem_of_nil).
  eexists. split; [reflexivity|].
  split.
  { unfold withDb, withSlackContacts, withSessions, withEvents, withParticipants,
      withExclusions, withAssignments. simpl. by rewrite !filter_none. }
  unfold getSlackToken, getAdminContactMention, bind, getSlackSettings, gets.
  simpl. split.
  - destruct (head _) as [s|]; [destruct (JS.truthy _)|]; done.
  - destruct (head _) as [s|]; [destruct (orNull _)|]; done.
Qed.

Global Instance onboardingStill_preorder : PreOrder onboardingStill.
Proof.
  split; [by intros w|].
  intros w1 w2 w3 (? & ? & ?) (? & ? & ?). unfold onboardingStill. split_and!; congruence.
Qed.

Lemma postMessage_onboardingStill channel text :
  keeps onboardingStill (postMessage channel text).
Proof. intros w. unfold postMessage, bind. simpl. by destruct (slackApi w _). Qed.

Lemma handleGiftConfirmation_onboardingStill u lowerText token :
  keeps onboardingStill (handleGiftConfirmation u lowerText token).
Proof.
  unfold handleGiftConfirmation.
  repeat first
    [ apply postMessage_onboardingStill
    | (by intros w)
    | frame_step ].
Qed.

(** A user without a session starts nothing. *)
Lemma processSlackMessage_unknown_user u messageText w :
  sessionOf u w = None →
  let w' := (processSlackMessage u messageText w).2 in
  onboardingStill w w' ∧
  onboardingPrompts (outbox w') = onboardingPrompts (outbox w).
Proof.
  intros Hs.
  destruct (processSlackMessage u messageText w) as [res wf] eqn:Hrun.
  cbn [snd]. cbv zeta. revert Hrun.
  unfold processSlackMessage. unfold bind at 1.
  destruct (getSlackToken_run w) as [t ->].
  destruct t as [token|]; [|by intros [= _ <-]].
  set (lowerText := JS.trim (JS.toLowerCase messageText)).
  unfold bind at 1.
  pose proof (handleGiftConfirmation_onboardingStill u lowerText token w) as Hgift.
  pose proof (handleGiftConfirmation_no_prompt u lowerText token w) as Hout.
  apply onboardingPrompts_grow in Hout.
  destruct (handleGiftConfirmation u lowerText token w) as [[handled|] w1];
    simpl in Hgift, Hout; [|by intros [= _ <-]].
  destruct handled; [by intros [= _ <-]|].
  unfold bind at 1. cbn [getOnboardingSession gets].
  fold (sessionOf u w1).
  assert (sessionOf u w1 = None) as ->.
  { unfold sessionOf in *. destruct Hgift as (_ & _ & ->). done. }
  by intros [= _ <-].
Qed.

(** X9. [deleteSlackContact] never fails on the foreign key: the
    sessions of the contact go first.  The other contacts and sessions
    are kept in their order and every session still has its contact.  If
    the sessions of a Slack user all belonged to the deleted contact, a
    later message of that user starts nothing: no participant, contact or
    session is made or changed and no onboarding prompt is sent. *)
Theorem deleteSlackContact_forgets_the_conversation id u w :
  (∀ s, s ∈ slackOnboardingSessions (db w) →
        Session.slackUserId s = u → Session.slackContactId s = id) →
  ∃ w', deleteSlackContact id w = (Some tt, w') ∧
    slackContacts (db w')
      = filter (λ c, SlackContact.id c ≠ id) (slackContacts (db w)) ∧
    slackOnboardingSessions (db w')
      = filter (λ s, Session.slackContactId s ≠ id)
               (slackOnboardingSessions (db w)) ∧
    (contactsResolve (db w) → contactsResolve (db w')) ∧
    ∀ messageText,
      let w'' := (processSlackMessage u messageText w').2 in
      onboardingStill w' w'' ∧
      onboardingPrompts (outbox w'') = onboardingPrompts (outbox w').
Proof.
  intros Hbelong. unfold deleteSlackContact. cbv [bind modify]. cbn [fst snd].
  rewrite deleteReferenced_run.
  2:{ intros c _ ->. unfold contactRefs. simpl.
      apply not_elem_of_fmap_filter. tauto. }
  eexists. split; [reflexivity|]. simpl. split_and!; try done.
  - intros Hres r Hr. unfold contactRefs in Hr. simpl in Hr.
    apply list_elem_of_fmap in Hr as (s & -> & [Hne Hs]%list_elem_of_filter).
    assert (Session.slackContactId s ∈ SlackContact.id <$> slackContacts (db w))
      as (c & Hc & Hin)%list_elem_of_fmap.
    { apply Hres. by apply list_elem_of_fmap_2. }
    simpl. rewrite Hc. apply list_elem_of_fmap_2, list_elem_of_filter.
    split; [|done]. intros Hg. apply Hne. congruence.
  - intros messageText. cbv zeta.
    match goal with
    | |- context [processSlackMessage u messageText ?w1] =>
        pose proof (processSlackMessage_unknown_user u messageText w1) as Hlater
    end.
    simpl in Hlater. apply Hlater.
    unfold sessionOf. simpl.
    destruct (List.find _ _) as [s|] eqn:Hfind; [exfalso|done].
    apply find_Some_filter in Hfind as [[Hne Hin]%list_elem_of_filter Hu].
    apply bool_decide_eq_true in Hu. by apply Hne, Hbelong.
Qed.

Lemma deleteSlackContact_forgets_the_conversation_witness :
  let w := Examples.invited in
  ∃ w', deleteSlackContact "c1" w = (Some tt, w') ∧
    slackContacts (db w') = [] ∧
    slackOnboardingSessions (db w') = [] ∧
    (contactsResolve (db w) → contactsResolve (db w')) ∧
    ∀ messageText,
      let w'' := (processSlackMessage "U9" messageText w').2 in
      onboardingStill w' w'' ∧
      onboardingPrompts (outbox w'') = onboardingPrompts (outbox w').
Proof.
  intros w.
  destruct (deleteSlackContact_forgets_the_conversation "c1" "U9" w)
    as (w' & Hrun & Hc & Hs & Hres & Hlater).
  { intros s [->|[]%elem_of_nil]%elem_of_cons _. reflexivity. }
  exists w'. split_and!; [exact Hrun|by rewrite Hc|by rewrite Hs|exact Hres|exact Hlater].
Defined.


End DeleteFacts.

Section SettingsFacts.
Import Storage DatabaseStorage Server Api.

(** What [getSlackToken] and [getAdminContactMention] answer is read off
    the first row of the settings. *)
Lemma getSlackToken_head w :
  getSlackToken w
  = (Some (match head (slackSettings (db w)) with
           | Some s =>
               if JS.truthy (SlackSettings.botToken s)
               then SlackSettings.botToken s
               else orNull (envSlackBotToken w)
           | None => orNull (envSlackBotToken w)
           end), w).
Proof.
  unfold getSlackToken, bind, getSlackSettings, gets. simpl.
  destruct (head _) as [s|]; [destruct (JS.truthy _)|]; done.
Qed.

Lemma getAdminContactMention_head w :
  getAdminContactMention w
  = (Some (match head (slackSettings (db w)) with
           | Some s =>
               match orNull (SlackSettings.adminSlackId s) with
               | Some id => "<@" +:+ id +:+ ">"
               | None => "the organizer"
               end
           | None => "the organizer"
           end), w).
Proof.
  unfold getAdminContactMention, bind, getSlackSettings, gets. simpl.
  destruct (head _) as [s|]; [destruct (orNull _)|]; done.
Qed.

(** X10. Disconnecting Slack on the dashboard never fails and clears the
    stored token only: the admin contact stays as it was, the settings
    table keeps its single row, and from then on the token in force is
    the one of the environment, if there is one. *)
Theorem deleteSlackSettings_falls_back_to_env w :
  ∃ w', deleteSlackSettings w = (Some (mkResponse 200 Success), w') ∧
    getSlackToken w' = (Some (orNull (envSlackBotToken w)), w') ∧
    getAdminContactMention w' = ((getAdminContactMention w).1, w') ∧
    length (slackSettings (db w')) = length (slackSettings (db w)) `max` 1.
Proof.
  unfold deleteSlackSettings, tryCatch, saveSlackSettings.
  cbv [bind getSlackSettings gets modify ret]. cbn [fst snd].
  rewrite !getAdminContactMention_head.
  destruct (slackSettings (db w)) as [|s rows] eqn:Hrows; simpl.
  - eexists. split; [reflexivity|].
    rewrite getSlackToken_head, getAdminContactMention_head. simpl.
    rewrite Hrows. simpl. done.
  - eexists. split; [reflexivity|].
    rewrite getSlackToken_head, getAdminContactMention_head. simpl.
    rewrite Hrows. simpl. split_and!; [done|done|lia].
Qed.

Section Connect.
Context `{ReplyDetails}.

(** X11. A bot token is stored only after it was checked: it has to
    start with [xoxb-], and [auth.test] has to answer [ok] for it.  A
    token of another form is refused without asking Slack; a token that
    Slack does not accept, or a failure of the call, leaves the database
    as it is.  Once stored, the token is the one in force, whatever the
    environment holds, and the admin contact is as before. *)
Theorem postSlackSettings_stores_only_checked_tokens botToken w :
  ∃ response w',
    postSlackSettings botToken w = (Some response, w') ∧
    (status response = 200 →
       ∃ token reply,
         botToken = Some token ∧ String.prefix "xoxb-" token = true ∧
         slackApi w (slackCalls w) = Slack.Json reply ∧ Slack.ok reply = true ∧
         getSlackToken w' = (Some (Some token), w') ∧
         getAdminContactMention w' = ((getAdminContactMention w).1, w')) ∧
    (status response ≠ 200 → db w' = db w) ∧
    (String.prefix "xoxb-" (default EmptyString botToken) = false →
       status response = 400 ∧ slackCalls w' = slackCalls w).
Proof.
  unfold postSlackSettings, tryCatch.
  destruct botToken as [token|]; simpl.
  2:{ eexists _, _. split; [reflexivity|]. by split_and!. }
  destruct (orNull (Some token)) as [t|] eqn:Ht.
  2:{ eexists _, _. split; [reflexivity|]. simpl. by split_and!. }
  assert (t = token) as ->.
  { unfold orNull in Ht. destruct (JS.truthy _); by simplify_eq. }
  destruct (String.prefix "xoxb-" token) eqn:Hp.
  2:{ eexists _, _. split; [reflexivity|]. simpl. by split_and!. }
  destruct token as [|c token]; [done|].
  cbv [bind gets fetch nextAnswer json ret throw saveSlackSettings
       getSlackSettings modify]. cbn [fst snd].
  destruct (slackApi w (slackCalls w)) as [| |[[] user]] eqn:Hapi; cbn [fst snd].
  - eexists _, _. split; [reflexivity|]. simpl. by split_and!.
  - eexists _, _. split; [reflexivity|]. simpl. by split_and!.
  - destruct (slackSettings (db w)) as [|s rows] eqn:Hrows; simpl;
      rewrite Hrows; simpl.
    + eexists _, _. split; [reflexivity|]. simpl. split_and!; try done.
      intros _. exists (String c token), (Slack.mkReply true user).
      rewrite getSlackToken_head, !getAdminContactMention_head. simpl.
      rewrite Hrows. simpl. by split_and!.
    + eexists _, _. split; [reflexivity|]. simpl. split_and!; try done.
      intros _. exists (String c token), (Slack.mkReply true user).
      rewrite getSlackToken_head, !getAdminContactMention_head. simpl.
      rewrite Hrows. simpl. by split_and!.
  - eexists _, _. split; [reflexivity|]. simpl. by split_and!.
Qed.

End Connect.
End SettingsFacts.

(* ===================================================================== *)
(** * The imports from Slack *)
(* ===================================================================== *)

Section ImportFacts.
Import Storage DatabaseStorage Server Api.

Lemma find_None_not_elem_of {A} (f : A → string) x (l : list A) :
  List.find (λ a, bool_decide (f a = x)) l = None ↔ x ∉ f <$> l.
Proof.
  induction l as [|a l IH]; simpl.
  - split; [intros _ ?%elem_of_nil; done|done].
  - rewrite not_elem_of_cons. case_bool_decide as Ha.
    + split; [done|]. by intros [? _].
    + rewrite IH. split; [by split|by intros [_ ?]].
Qed.

Lemma find_is_Some_elem_of {A} (f : A → string) x (l : list A) :
  x ∈ f <$> l → is_Some (List.find (λ a, bool_decide (f a = x)) l).
Proof.
  intros Hin. destruct (List.find _ l) as [a|] eqn:Hf; [by eexists|].
  by apply find_None_not_elem_of in Hf.
Qed.

(** The loop of the import of contacts: a user is skipped when a contact
    has the Slack identifier already, and becomes a contact otherwise. *)
Lemma importContacts_spec users imported skipped w :
  NoDup (contactUserIds w) →
  ∃ imported' skipped' new w',
    importContacts users imported skipped w
      = (Some (imported ++ imported', skipped ++ skipped'), w') ∧
    length imported' + length skipped' = length users ∧
    length new = length imported' ∧
    slackContacts (db w') = slackContacts (db w) ++ new ∧
    Forall (λ c, SlackContact.status c = CONTACT_STATUS.IMPORTED) new ∧
    NoDup (contactUserIds w') ∧
    (∀ x, x ∈ contactUserIds w' ↔ x ∈ contactUserIds w ∨ x ∈ Api.id <$> users) ∧
    participants (db w') = participants (db w) ∧
    slackOnboardingSessions (db w') = slackOnboardingSessions (db w).
Proof.
  revert imported skipped w.
  induction users as [|user users IH]; intros imported skipped w Hnd.
  { exists [], [], [], w. rewrite !app_nil_r. split_and!; try done.
    intros x. rewrite fmap_nil, elem_of_nil. tauto. }
  cbn [importContacts]. unfold bind at 1. cbn [getSlackContactByUserId gets].
  destruct (List.find _ (slackContacts (db w))) as [c|] eqn:Hfind.
  - destruct (IH imported (skipped ++ [realName user]) w Hnd)
      as (imp & sk & new & w' & -> & Hlen & Hnew & Hc & Hst & Hnd' & Hids & Hp & Hs).
    exists imp, (realName user :: sk), new, w'.
    rewrite <-app_assoc. split_and!; try done.
    + simpl. lia.
    + intros x. rewrite Hids, fmap_cons, elem_of_cons.
      assert (Api.id user ∈ contactUserIds w) as Hin.
      { apply find_Some_filter in Hfind as [Hin Hu].
        apply bool_decide_eq_true in Hu. rewrite <-Hu.
        by apply list_elem_of_fmap_2. }
      split; [tauto|]. intros [?|[->|?]]; tauto.
  - unfold createSlackContact. unfold bind at 1.
    cbv [bind getSlackContactByUserId gets genRandomUuid modify ret].
    cbn [fst snd db slackContacts]. rewrite Hfind. cbn [fst snd].
    set (created := SlackContact.mk _ _ _ _ _ _ _ _).
    set (w1 := withDb _ _).
    apply find_None_not_elem_of in Hfind.
    assert (contactUserIds w1 = contactUserIds w ++ [Api.id user]) as Hids1.
    { subst w1. unfold contactUserIds. simpl. by rewrite fmap_app. }
    destruct (IH (imported ++ [realName user]) skipped w1)
      as (imp & sk & new & w' & Hrun & Hlen & Hnew & Hc & Hst & Hnd' & Hids & Hp & Hs).
    { rewrite Hids1. apply NoDup_app. split_and!; [done| |apply NoDup_singleton].
      intros x Hx ->%list_elem_of_singleton. done. }
    exists (realName user :: imp), sk, (created :: new), w'.
    fold importContacts. rewrite Hrun, <-app_assoc. split_and!; try done.
    + simpl. lia.
    + simpl. lia.
    + rewrite Hc. subst w1. simpl. by rewrite <-app_assoc.
    + by constructor.
    + intros x. rewrite Hids, Hids1, elem_of_app, list_elem_of_singleton,
        fmap_cons, elem_of_cons. tauto.
Qed.

(** Users who are all contacts already are all skipped. *)
Lemma importContacts_known users imported skipped w :
  (∀ x, x ∈ Api.id <$> users → x ∈ contactUserIds w) →
  importContacts users imported skipped w
  = (Some (imported, skipped ++ (realName <$> users)), w).
Proof.
  revert skipped. induction users as [|user users IH]; intros skipped Hknown.
  { simpl. by rewrite app_nil_r. }
  cbn [importContacts]. unfold bind at 1. cbn [getSlackContactByUserId gets].
  destruct (find_is_Some_elem_of SlackContact.slackUserId (Api.id user)
              (slackContacts (db w))) as [c ->].
  { apply Hknown. rewrite fmap_cons. left. }
  rewrite IH; [by rewrite fmap_cons, <-app_assoc|].
  intros x Hx. apply Hknown. rewrite fmap_cons. by right.
Qed.

(** X12. The import of contacts never fails; it answers 400 for a missing
    or empty list and touches nothing then.  Otherwise every user of the
    list is either imported or skipped, a user being skipped when a
    contact has the Slack identifier already, also when that contact was
    made for an earlier entry of the same list.  If no two contacts shared
    an identifier before, none do after, and the contacts then are those
    of before followed by the new ones, whose identifiers are those of
    the list.  Sending the same list again imports nothing and skips
    every user. *)
Theorem postSlackContactsImport_keeps_contacts_unique users w :
  NoDup (contactUserIds w) →
  ∃ response w',
    postSlackContactsImport users w = (Some response, w') ∧
    match users with
    | None | Some [] => response = failure 400 "No users provided" ∧ w' = w
    | Some users =>
        ∃ importedNames skippedNames,
          response = mkResponse 200 (ContactsImported importedNames skippedNames) ∧
          length importedNames + length skippedNames = length users ∧
          NoDup (contactUserIds w') ∧
          (∀ x, x ∈ contactUserIds w'
                ↔ x ∈ contactUserIds w ∨ x ∈ Api.id <$> users) ∧
          slackContacts (db w) `prefix_of` slackContacts (db w') ∧
          length (slackContacts (db w'))
            = length (slackContacts (db w)) + length importedNames ∧
          postSlackContactsImport (Some users) w'
            = (Some (mkResponse 200 (ContactsImported [] (realName <$> users))), w')
    end.
Proof.
  intros Hnd. unfold postSlackContactsImport, tryCatch.
  destruct users as [[|user users]|]; [by eexists _, _| |by eexists _, _].
  set (l := user :: users).
  destruct (importContacts_spec l [] [] w Hnd)
    as (imp & sk & new & w' & Hrun & Hlen & Hnew & Hc & Hst & Hnd' & Hids & _).
  unfold bind at 1. rewrite Hrun. cbn [ret fst snd app].
  exists (mkResponse 200 (ContactsImported imp sk)), w'. split; [done|].
  exists imp, sk. split_and!; try done.
  - rewrite Hc. by apply prefix_app_r.
  - rewrite Hc, length_app. lia.
  - unfold bind. rewrite importContacts_known; [done|].
    intros x Hx. apply Hids. by right.
Qed.

Lemma postSlackContactsImport_keeps_contacts_unique_witness :
  let zed := mkSlackUser "U9" "zed" "Zed" None None in
  let amy := mkSlackUser "U7" "amy" "Amy Adams" (Some "amy@example.org") None in
  ∃ w',
    postSlackContactsImport (Some [zed; amy; amy]) Examples.invited
      = (Some (mkResponse 200 (ContactsImported ["Amy Adams"] ["Zed"; "Amy Adams"])),
         w') ∧
    contactUserIds w' = ["U9"; "U7"] ∧
    postSlackContactsImport (Some [zed; amy; amy]) w'
      = (Some (mkResponse 200 (ContactsImported [] ["Zed"; "Amy Adams"; "Amy Adams"])),
         w').
Proof.
  intros zed amy.
  destruct (postSlackContactsImport_keeps_contacts_unique
              (Some [zed; amy; amy]) Examples.invited)
    as (response & w' & Hrun & imp & sk & -> & _ & _ & _ & _ & _ & Hagain).
  { by apply (bool_decide_unpack _). }
  exists w'. vm_compute in Hrun. injection Hrun as Himp Hsk Hw.
  subst imp sk. split; [by rewrite <-Hw|]. split; [by rewrite <-Hw|exact Hagain].
Defined.

Lemma existsb_known_false user userEmail (ps : list Participant.t) :
  existsb (knownAs user userEmail) ps = false →
  (Api.id user ∉ omap Participant.slackUserId ps) ∧
  (userEmail ∉ Participant.email <$> ps).
Proof.
  intros Hex. split.
  - intros (p & Hp & Hid)%list_elem_of_omap.
    assert (existsb (knownAs user userEmail) ps = true) as Ht; [|congruence].
    apply existsb_exists. exists p. split; [by apply list_elem_of_In|].
    unfold knownAs. by rewrite Hid, bool_decide_eq_true_2.
  - intros (p & -> & Hp)%list_elem_of_fmap.
    assert (existsb (knownAs user (Participant.email p)) ps = true) as Ht;
      [|congruence].
    apply existsb_exists. exists p. split; [by apply list_elem_of_In|].
    unfold knownAs.
    rewrite (bool_decide_eq_true_2 (Participant.email p = _)) by done.
    apply orb_true_r.
Qed.

Lemma existsb_known_app user userEmail (ps new : list Participant.t) :
  existsb (knownAs user userEmail) ps = true →
  existsb (knownAs user userEmail) (ps ++ new) = true.
Proof. intros Hex. by rewrite existsb_app, Hex. Qed.

Lemma importUsers_spec users imported skipped noEmail w :
  NoDup (Participant.email <$> participants (db w)) →
  NoDup (omap Participant.slackUserId (participants (db w))) →
  ∃ imported' skipped' noEmail' new w',
    importUsers users imported skipped noEmail w
      = (Some (imported ++ imported', skipped ++ skipped', noEmail ++ noEmail'), w') ∧
    length imported' + length skipped' + length noEmail' = length users ∧
    length new = length imported' ∧
    participants (db w') = participants (db w) ++ new ∧
    Forall (λ p, JS.includes (Participant.email p) "@" = true ∧
                 is_Some (Participant.slackUserId p)) new ∧
    NoDup (Participant.email <$> participants (db w')) ∧
    NoDup (omap Participant.slackUserId (participants (db w'))) ∧
    (∀ user userEmail, user ∈ users → usableEmail user userEmail →
       existsb (knownAs user userEmail) (participants (db w')) = true) ∧
    assignments (db w') = assignments (db w) ∧
    exclusions (db w') = exclusions (db w).
Proof.
  revert imported skipped noEmail w.
  induction users as [|user users IH]; intros imported skipped noEmail w He Hs.
  { exists [], [], [], [], w. rewrite !app_nil_r. split_and!; try done.
    by intros user userEmail ?%elem_of_nil. }
  cbn [importUsers].
  assert (∀ w', (∀ user0 userEmail, user0 ∈ users → usableEmail user0 userEmail →
                   existsb (knownAs user0 userEmail) (participants (db w')) = true) →
                (∀ userEmail, usableEmail user userEmail →
                   existsb (knownAs user userEmail) (participants (db w')) = true) →
                ∀ user0 userEmail, user0 ∈ user :: users → usableEmail user0 userEmail →
                   existsb (knownAs user0 userEmail) (participants (db w')) = true)
    as Hcover.
  { intros w' Hrest Hhere user0 userEmail [->|Hin]%elem_of_cons Hu;
      [by apply Hhere|by apply Hrest]. }
  destruct (orNull (email user)) as [userEmail|] eqn:Hemail.
  2:{ destruct (IH imported skipped (noEmail ++ [realName user]) w He Hs)
        as (imp & sk & ne & new & w' & -> & Hlen & Hnew & Hp & Hok & He' & Hs'
            & Hex & Ha & Hx).
      exists imp, sk, (realName user :: ne), new, w'.
      rewrite <-app_assoc. split_and!; try done; [simpl; lia|].
      apply Hcover; [done|]. intros e [? _]. congruence. }
  destruct (JS.includes userEmail "@") eqn:Hat.
  2:{ destruct (IH imported skipped (noEmail ++ [realName user]) w He Hs)
        as (imp & sk & ne & new & w' & -> & Hlen & Hnew & Hp & Hok & He' & Hs'
            & Hex & Ha & Hx).
      exists imp, sk, (realName user :: ne), new, w'.
      rewrite <-app_assoc. split_and!; try done; [simpl; lia|].
      apply Hcover; [done|]. intros e [? ?]. congruence. }
  unfold bind at 1. cbn [getParticipants gets].
  change (existsb _ (participants (db w)))
    with (existsb (knownAs user userEmail) (participants (db w))).
  destruct (existsb _ (participants (db w))) eqn:Hknown.
  - destruct (IH imported (skipped ++ [realName user]) noEmail w He Hs)
      as (imp & sk & ne & new & w' & -> & Hlen & Hnew & Hp & Hok & He' & Hs'
          & Hex & Ha & Hx).
    exists imp, (realName user :: sk), ne, new, w'.
    rewrite <-app_assoc. split_and!; try done; [simpl; lia|].
    apply Hcover; [done|]. intros e [? _].
    assert (e = userEmail) as -> by congruence.
    rewrite Hp. by apply existsb_known_app.
  - apply existsb_known_false in Hknown as [Hid Hmail].
    unfold createParticipant.
    cbv [bind genRandomUuid modify ret]. cbn [fst snd].
    set (created := Participant.mk _ _ _ _ _ _ _ _ _ _ _ _ _ _).
    set (w1 := withDb _ _).
    assert (participants (db w1) = participants (db w) ++ [created]) as Hp1
      by done.
    destruct (IH (imported ++ [realName user]) skipped noEmail w1)
      as (imp & sk & ne & new & w' & Hrun & Hlen & Hnew & Hp & Hok & He' & Hs'
          & Hex & Ha & Hx).
    { rewrite Hp1, fmap_app. apply NoDup_app. split_and!; [done| |apply NoDup_singleton].
      intros x Hx ->%list_elem_of_singleton. done. }
    { rewrite Hp1, omap_app. apply NoDup_app. split_and!; [done| |apply NoDup_singleton].
      intros x Hx ->%list_elem_of_singleton. done. }
    exists (realName user :: imp), sk, ne, (created :: new), w'.
    fold importUsers. rewrite Hrun, <-app_assoc. split_and!; try done.
    + simpl. lia.
    + simpl. lia.
    + by rewrite Hp, Hp1, <-app_assoc.
    + constructor; [|done]. split; [done|by eexists].
    + apply Hcover; [done|]. intros e [? _].
      assert (e = userEmail) as -> by congruence.
      rewrite Hp, Hp1, <-app_assoc, existsb_app. apply orb_true_iff. right.
      simpl. unfold knownAs. simpl. by rewrite bool_decide_eq_true_2.
Qed.

(** Users who have no usable address or are participants already leave
    the tables as they are. *)
Lemma importUsers_known users imported skipped noEmail w :
  (∀ user userEmail, user ∈ users → usableEmail user userEmail →
     existsb (knownAs user userEmail) (participants (db w)) = true) →
  ∃ skipped' noEmail',
    importUsers users imported skipped noEmail w
    = (Some (imported, skipped ++ skipped', noEmail ++ noEmail'), w).
Proof.
  revert skipped noEmail.
  induction users as [|user users IH]; intros skipped noEmail Hknown.
  { exists [], []. simpl. by rewrite !app_nil_r. }
  assert (∀ user0 userEmail, user0 ∈ users → usableEmail user0 userEmail →
            existsb (knownAs user0 userEmail) (participants (db w)) = true) as Hrest.
  { intros user0 e Hin. apply Hknown. by right. }
  cbn [importUsers].
  destruct (orNull (email user)) as [userEmail|] eqn:Hemail.
  2:{ destruct (IH skipped (noEmail ++ [realName user]) Hrest) as (sk & ne & ->).
      exists sk, (realName user :: ne). by rewrite <-app_assoc. }
  destruct (JS.includes userEmail "@") eqn:Hat.
  2:{ destruct (IH skipped (noEmail ++ [realName user]) Hrest) as (sk & ne & ->).
      exists sk, (realName user :: ne). by rewrite <-app_assoc. }
  unfold bind at 1. cbn [getParticipants gets].
  change (existsb _ (participants (db w)))
    with (existsb (knownAs user userEmail) (participants (db w))).
  rewrite (Hknown user userEmail); [|left|by split].
  destruct (IH (skipped ++ [realName user]) noEmail Hrest) as (sk & ne & ->).
  exists (realName user :: sk), ne. by rewrite <-app_assoc.
Qed.

(** X13. The import of Slack users as participants never fails, and
    answers 400 for a missing or empty list.  Otherwise every user of the
    list is counted once: without an address that has an at sign under
    [noEmail], with the Slack identifier or the address of a participant
    under [skipped], and else as imported.  The participants of before
    stay, in their order, followed by one new row for each imported user;
    if no two participants shared an address or a Slack identifier
    before, none do after.  Sending the same list again imports
    nothing. *)
Theorem postSlackImport_adds_nobody_twice users w :
  NoDup (Participant.email <$> participants (db w)) →
  NoDup (omap Participant.slackUserId (participants (db w))) →
  ∃ response w',
    postSlackImport users w = (Some response, w') ∧
    match users with
    | None | Some [] => response = failure 400 "No users provided" ∧ w' = w
    | Some users =>
        ∃ importedNames skippedNames noEmailNames,
          response = mkResponse 200
                       (UsersImported importedNames skippedNames noEmailNames) ∧
          length importedNames + length skippedNames + length noEmailNames
            = length users ∧
          participants (db w) `prefix_of` participants (db w') ∧
          length (participants (db w'))
            = length (participants (db w)) + length importedNames ∧
          NoDup (Participant.email <$> participants (db w')) ∧
          NoDup (omap Participant.slackUserId (participants (db w'))) ∧
          ∃ skippedAgain noEmailAgain,
            postSlackImport (Some users) w'
            = (Some (mkResponse 200 (UsersImported [] skippedAgain noEmailAgain)),
               w')
    end.
Proof.
  intros He Hs. unfold postSlackImport, tryCatch.
  destruct users as [[|user users]|]; [by eexists _, _| |by eexists _, _].
  set (l := user :: users).
  destruct (importUsers_spec l [] [] [] w He Hs)
    as (imp & sk & ne & new & w' & Hrun & Hlen & Hnew & Hp & Hok & He' & Hs'
        & Hex & _).
  unfold bind at 1. rewrite Hrun. cbn [ret fst snd app].
  exists (mkResponse 200 (UsersImported imp sk ne)), w'. split; [done|].
  exists imp, sk, ne. split_and!; try done.
  - rewrite Hp. by apply prefix_app_r.
  - rewrite Hp, length_app. lia.
  - destruct (importUsers_known l [] [] [] w' Hex) as (sk2 & ne2 & Hagain).
    exists sk2, ne2. unfold bind. by rewrite Hagain.
Qed.

Lemma postSlackImport_adds_nobody_twice_witness :
  let zed := mkSlackUser "U9" "zed" "Zed" None None in
  let amy := mkSlackUser "U7" "amy" "Amy Adams" (Some "amy@example.org") None in
  let al := mkSlackUser "U1" "al" "Al" (Some "al@example.org") None in
  ∃ w',
    postSlackImport (Some [zed; amy; al; amy]) Examples.invited
      = (Some (mkResponse 200
                 (UsersImported ["Amy Adams"] ["Al"; "Amy Adams"] ["Zed"])), w') ∧
    length (participants (db w')) = 5 ∧
    ∃ skippedAgain noEmailAgain,
      postSlackImport (Some [zed; amy; al; amy]) w'
      = (Some (mkResponse 200 (UsersImported [] skippedAgain noEmailAgain)), w').
Proof.
  intros zed amy al.
  destruct (postSlackImport_adds_nobody_twice
              (Some [zed; amy; al; amy]) Examples.invited)
    as (response & w' & Hrun & imp & sk & ne & -> & _ & _ & _ & _ & _ & Hagain).
  { by apply (bool_decide_unpack _). }
  { by apply (bool_decide_unpack _). }
  exists w'. vm_compute in Hrun. injection Hrun as Himp Hsk Hne Hw.
  subst imp sk ne. split; [by rewrite <-Hw|]. split; [by rewrite <-Hw|exact Hagain].
Defined.

End ImportFacts.

(* ===================================================================== *)
(** * The invitations *)
(* ===================================================================== *)

Section InvitationFacts.
Import Storage DatabaseStorage Server Api.
Context `{ReplyDetails} `{QueryOrder}.

Global Instance onlyInvitations_preorder : PreOrder onlyInvitations.
Proof.
  split; [by intros w|].
  intros w1 w2 w3 (? & ? & ? & ? & ? & ? & ? & ? & ?)
    (? & ? & ? & ? & ? & ? & ? & ? & ?).
  unfold onlyInvitations. split_and!; congruence.
Qed.

Lemma existsb_contact_id id (contacts : list SlackContact.t) :
  id ∈ SlackContact.id <$> contacts →
  existsb (λ c, bool_decide (SlackContact.id c = id)) contacts = true.
Proof.
  intros (c & -> & Hin)%list_elem_of_fmap. apply existsb_exists.
  exists c. split; [by apply list_elem_of_In|by apply bool_decide_eq_true_2].
Qed.

(** One turn of the loop: the call is made and recorded; the contact is
    marked and its session opened exactly when Slack accepted the call. *)
Lemma inviteStep_run c w :
  SlackContact.id c ∈ SlackContact.id <$> slackContacts (db w) →
  let answer := slackApi w (slackCalls w) in
  ∃ w', inviteStep c w
        = (Some (accepted answer,
                 mkInvited (SlackContact.slackUserId c)
                   (Invitation (SlackContact.displayName c)) answer), w') ∧
    onlyInvitations w w' ∧
    slackCalls w' = S (slackCalls w) ∧
    slackContacts (db w')
      = (if accepted answer
         then updateWhere SlackContact.id (SlackContact.id c) (invited (clock w))
                (slackContacts (db w))
         else slackContacts (db w)) ∧
    ∃ new, slackOnboardingSessions (db w') = slackOnboardingSessions (db w) ++ new ∧
           Forall2 opensFor (if accepted answer then [c] else []) new.
Proof.
  intros Hid answer. subst answer. unfold inviteStep.
  cbv [bind gets nextAnswer tryCatch json ret throw]. cbn [fst snd].
  destruct (slackApi w (slackCalls w)) as [| |[[] user]] eqn:Hapi; cbn [fst snd accepted Slack.ok].
  - eexists. split; [reflexivity|]. split_and!; try done.
    exists []. split; [simpl; by rewrite app_nil_r|constructor].
  - eexists. split; [reflexivity|]. split_and!; try done.
    exists []. split; [simpl; by rewrite app_nil_r|constructor].
  - unfold createOnboardingSession.
    cbv [bind gets genRandomUuid newDate modify ret updateSlackContact].
    cbn [fst snd db slackContacts]. rewrite existsb_contact_id by done.
    cbn [fst snd]. eexists. split; [reflexivity|]. split_and!; try done.
    eexists [_]. split; [reflexivity|]. by repeat constructor.
  - eexists. split; [reflexivity|]. split_and!; try done.
    exists []. split; [simpl; by rewrite app_nil_r|constructor].
Qed.

Lemma length_acceptedOf answers pending :
  length (acceptedOf answers pending) ≤ length pending.
Proof.
  revert answers. induction pending as [|c rest IH]; intros answers; simpl; [lia|].
  destruct (accepted (answers 0)); simpl; specialize (IH (λ k, answers (S k))); lia.
Qed.

Lemma fmap_id_updateWhere_contacts id f (rows : list SlackContact.t) :
  (∀ c, SlackContact.id (f c) = SlackContact.id c) →
  SlackContact.id <$> updateWhere SlackContact.id id f rows
  = SlackContact.id <$> rows.
Proof.
  intros Hf. unfold updateWhere. rewrite <-list_fmap_compose.
  apply list_fmap_ext. intros _ c _. simpl. by case_decide.
Qed.

(** Marking the accepted contacts one after the other marks every contact
    whose key is among theirs. *)
Lemma markInvited_cons now c ok (rows : list SlackContact.t) :
  markInvited now ok <$> updateWhere SlackContact.id (SlackContact.id c) (invited now) rows
  = markInvited now (c :: ok) <$> rows.
Proof.
  unfold updateWhere. rewrite <-list_fmap_compose.
  apply list_fmap_ext. intros _ c0 _. simpl. unfold markInvited.
  rewrite fmap_cons. destruct (decide (SlackContact.id c0 = SlackContact.id c)) as [Heq|Hne].
  - rewrite (bool_decide_eq_true_2 (_ ∈ _ :: _)) by (rewrite Heq; left).
    cbn [invited ContactPatch.apply SlackContact.id]. by case_bool_decide.
  - apply (f_equal (λ b : bool, if b then invited now c0 else c0)).
    apply bool_decide_ext. rewrite elem_of_cons.
    split; [by right|]. by intros [?|?].
Qed.

(** The loop: one call for each contact of the list, in order. *)
Lemma inviteLoop_run pending answers sent failed calls w :
  (∀ c, c ∈ pending → SlackContact.id c ∈ SlackContact.id <$> slackContacts (db w)) →
  (∀ k, answerAt w k = answers k) →
  let ok := acceptedOf answers pending in
  ∃ w', inviteLoop pending sent failed calls w
        = (Some (sent + length ok, failed + (length pending - length ok),
                 calls ++ imap (λ k c, mkInvited (SlackContact.slackUserId c)
                                         (Invitation (SlackContact.displayName c))
                                         (answers k)) pending), w') ∧
    onlyInvitations w w' ∧
    slackContacts (db w') = markInvited (clock w) ok <$> slackContacts (db w) ∧
    ∃ new, slackOnboardingSessions (db w') = slackOnboardingSessions (db w) ++ new ∧
           Forall2 opensFor ok new.
Proof.
  revert answers sent failed calls w.
  induction pending as [|c rest IH]; intros answers sent failed calls w Hids Hans.
  { exists w. simpl. rewrite !Nat.add_0_r, app_nil_r. split_and!; try done.
    - symmetry. etrans; [|apply list_fmap_id].
      by apply list_fmap_ext.
    - exists []. by rewrite app_nil_r. }
  cbn [inviteLoop]. unfold bind at 1.
  destruct (inviteStep_run c w) as (w1 & -> & Hframe & Hcalls & Hc1 & new1 & Hs1 & Hnew1).
  { apply Hids. left. }
  assert (slackApi w (slackCalls w) = answers 0) as Hanswer.
  { rewrite <-Hans. unfold answerAt. by rewrite Nat.add_0_r. }
  rewrite Hanswer in *. cbn [fst snd].
  pose proof Hframe as (_ & _ & _ & _ & _ & _ & Hclock & Hapi & _).
  assert (∀ c0, c0 ∈ rest →
            SlackContact.id c0 ∈ SlackContact.id <$> slackContacts (db w1)) as Hids1.
  { intros c0 Hc0. rewrite Hc1.
    destruct (accepted (answers 0));
      [rewrite fmap_id_updateWhere_contacts by done|]; apply Hids; by right. }
  assert (∀ k, answerAt w1 k = answers (S k)) as Hans1.
  { intros k. rewrite <-Hans. unfold answerAt.
    by rewrite Hapi, Hcalls, Nat.add_succ_comm. }
  pose proof (length_acceptedOf (λ k, answers (S k)) rest) as Hle.
  cbn [acceptedOf]. rewrite imap_cons.
  destruct (accepted (answers 0)).
  - destruct (IH (λ k, answers (S k)) (S sent) failed
                (calls ++ [mkInvited (SlackContact.slackUserId c)
                             (Invitation (SlackContact.displayName c)) (answers 0)])
                w1 Hids1 Hans1)
      as (w' & -> & Hframe' & Hc' & new' & Hs' & Hnew').
    exists w'. split_and!.
    + rewrite <-app_assoc. simpl.
      by replace (sent + S (length (acceptedOf (λ k, answers (S k)) rest)))
        with (S (sent + length (acceptedOf (λ k, answers (S k)) rest))) by lia.
    + by etrans.
    + rewrite Hc', Hc1, Hclock. apply markInvited_cons.
    + exists (new1 ++ new'). split; [by rewrite Hs', Hs1, app_assoc|].
      change (c :: ?l) with ([c] ++ l). by apply Forall2_app.
  - destruct (IH (λ k, answers (S k)) sent (S failed)
                (calls ++ [mkInvited (SlackContact.slackUserId c)
                             (Invitation (SlackContact.displayName c)) (answers 0)])
                w1 Hids1 Hans1)
      as (w' & -> & Hframe' & Hc' & new' & Hs' & Hnew').
    exists w'. split_and!.
    + rewrite <-app_assoc. simpl.
      by replace (failed + (S (length rest)
                            - length (acceptedOf (λ k, answers (S k)) rest)))
        with (S (failed + (length rest
                           - length (acceptedOf (λ k, answers (S k)) rest)))) by lia.
    + by etrans.
    + by rewrite Hc', Hc1, Hclock.
    + exists (new1 ++ new'). split; [by rewrite Hs', Hs1, app_assoc|].
      change (Forall2 opensFor ([] ++ acceptedOf (λ k, answers (S k)) rest)
                (new1 ++ new')).
      by apply Forall2_app.
Qed.

Lemma elem_of_pendingContacts c w :
  c ∈ pendingContacts w
  ↔ c ∈ slackContacts (db w) ∧ SlackContact.status c = CONTACT_STATUS.IMPORTED.
Proof.
  unfold pendingContacts.
  rewrite list_elem_of_filter, orderByDisplayName_Permutation. tauto.
Qed.

Lemma acceptedOf_subseteq answers pending c :
  c ∈ acceptedOf answers pending → c ∈ pending.
Proof.
  revert answers. induction pending as [|c0 rest IH]; intros answers; simpl; [done|].
  destruct (accepted (answers 0)).
  - intros [->|Hin]%elem_of_cons; [left|right; by eapply IH].
  - intros Hin. right. by eapply IH.
Qed.

(** The run of the route when there is a token and somebody to
    invite. *)
Lemma postSlackInvitationsSend_run w token :
  (getSlackToken w).1 = Some (Some token) →
  pendingContacts w ≠ [] →
  let pending := pendingContacts w in
  let ok := acceptedOf (answerAt w) pending in
  ∃ w',
    postSlackInvitationsSend w
    = (Some (mkResponse 200
               (InvitationsSent (length ok) (length pending - length ok)),
             imap (λ k c, mkInvited (SlackContact.slackUserId c)
                            (Invitation (SlackContact.displayName c))
                            (answerAt w k)) pending), w') ∧
    onlyInvitations w w' ∧
    slackContacts (db w') = markInvited (clock w) ok <$> slackContacts (db w) ∧
    ∃ new, slackOnboardingSessions (db w')
             = slackOnboardingSessions (db w) ++ new ∧
           Forall2 opensFor ok new.
Proof.
  intros Htoken Hsome. cbv zeta. unfold postSlackInvitationsSend, tryCatch.
  unfold bind at 1. destruct (getSlackToken_run w) as [t Ht].
  rewrite Ht in Htoken |- *. simpl in Htoken. injection Htoken as ->.
  unfold bind at 1. cbn [getSlackContacts gets]. fold (pendingContacts w).
  destruct (inviteLoop_run (pendingContacts w) (answerAt w) 0 0 [] w)
    as (w' & Hloop & Hframe & Hc & Hnew); [|done|].
  { intros c [Hin _]%elem_of_pendingContacts. by apply list_elem_of_fmap_2. }
  destruct (pendingContacts w) as [|c0 rest] eqn:Hpending; [done|].
  cbn [length Nat.eqb]. unfold bind at 1. rewrite Hloop.
  cbn [ret fst snd app]. by exists w'.
Qed.

(** X14. The invitation route never fails.  Without a token, or without
    a contact in the status imported, it answers 400 and does nothing.
    Otherwise it makes one call for each contact in the status imported,
    in the order of the query, and no other call.  A contact is marked
    invited, with the time of the run, and gets a session that awaits
    consent exactly when Slack accepted its call; the tallies are the
    numbers of the calls accepted and not accepted; nothing else changes.
    The contacts that wait for an invitation after the run are those of
    before whose call was not accepted: a second run invites nobody
    twice. *)
Theorem postSlackInvitationsSend_invites_each_once w :
  let pending := pendingContacts w in
  let ok := acceptedOf (answerAt w) pending in
  ∃ response calls w',
    postSlackInvitationsSend w = (Some (response, calls), w') ∧
    match (getSlackToken w).1, pending with
    | Some (Some _), _ :: _ =>
        response = mkResponse 200
                     (InvitationsSent (length ok) (length pending - length ok)) ∧
        calls = imap (λ k c, mkInvited (SlackContact.slackUserId c)
                               (Invitation (SlackContact.displayName c))
                               (answerAt w k)) pending ∧
        onlyInvitations w w' ∧
        slackContacts (db w') = markInvited (clock w) ok <$> slackContacts (db w) ∧
        (∃ new, slackOnboardingSessions (db w')
                  = slackOnboardingSessions (db w) ++ new ∧
                Forall2 opensFor ok new) ∧
        (∀ c, c ∈ pendingContacts w'
              ↔ c ∈ pending ∧ SlackContact.id c ∉ SlackContact.id <$> ok)
    | _, _ => status response = 400 ∧ calls = [] ∧ w' = w
    end.
Proof.
  cbv zeta.
  destruct (getSlackToken_run w) as [[token|] Ht].
  2:{ unfold postSlackInvitationsSend, tryCatch, bind. rewrite Ht.
      by eexists _, _, _. }
  destruct (pendingContacts w) as [|c0 rest] eqn:Hpending.
  { unfold postSlackInvitationsSend, tryCatch, bind. rewrite Ht.
    cbn [getSlackContacts gets]. fold (pendingContacts w). rewrite Hpending.
    by eexists _, _, _. }
  destruct (postSlackInvitationsSend_run w token)
    as (w' & Hrun & Hframe & Hc & Hnew); [by rewrite Ht|by rewrite Hpending|].
  rewrite Hpending in Hrun, Hc, Hnew.
  eexists _, _, w'. split; [exact Hrun|]. rewrite Ht. cbn [fst].
  split_and!; try done.
  intros c. rewrite <-Hpending, !elem_of_pendingContacts, Hc, Hpending. split.
  - intros [(c1 & -> & Hin)%list_elem_of_fmap Hst].
    unfold markInvited in *. case_bool_decide as Hok; [done|].
    by split_and!.
  - intros [[Hin Hst] Hok]. split; [|done].
    apply list_elem_of_fmap. exists c. split; [|done].
    unfold markInvited. by rewrite bool_decide_eq_false_2.
Qed.

Lemma find_app_None {A} (P : A → bool) l k :
  List.find P l = None → List.find P (l ++ k) = List.find P k.
Proof.
  induction l as [|x l IH]; [done|]. simpl. destruct (P x); [done|]. apply IH.
Qed.

Lemma find_fmap_keeping {A} (P : A → bool) (f : A → A) l :
  (∀ x, P (f x) = P x) → List.find P (f <$> l) = f <$> List.find P l.
Proof.
  intros HP. induction l as [|x l IH]; [done|]. simpl. rewrite HP.
  by destruct (P x).
Qed.

(** Among the sessions opened by a run there is one for each accepted
    contact; the first one of a Slack user awaits consent. *)
Lemma find_opened ok new c :
  Forall2 opensFor ok new → c ∈ ok →
  ∃ s, List.find (λ s, bool_decide
                         (Session.slackUserId s = SlackContact.slackUserId c)) new
       = Some s ∧
       Session.slackUserId s = SlackContact.slackUserId c ∧
       Session.conversationState s = ONBOARDING_STATES.AWAITING_CONSENT ∧
       Session.collected s = [].
Proof.
  induction 1 as [|c0 s0 ok new (Hid & Hu & Hst & Hcol) _ IH]; [by intros ?%elem_of_nil|].
  intros Hin. simpl. case_bool_decide as Hs0; [by exists s0|].
  apply elem_of_cons in Hin as [->|Hin]; [congruence|]. by apply IH.
Qed.

(** X15. A contact whose invitation Slack accepted and who answers with a
    yes is asked for the name: if the user had no session before and no
    gift of theirs awaits a confirmation, then after the run of the
    invitation route a message that contains "yes", "yeah", "sure" or
    "ok" moves the session of the user to the collection of the name,
    with nothing collected yet, sets the contact to in progress and sends
    one message, the question for the name. *)
Theorem invited_contact_is_asked_for_the_name w c token messageText :
  (getSlackToken w).1 = Some (Some token) →
  c ∈ acceptedOf (answerAt w) (pendingContacts w) →
  sessionOf (SlackContact.slackUserId c) w = None →
  List.find (awaitsConfirmation (SlackContact.slackUserId c)) (assignmentViews w)
    = None →
  consents messageText = true →
  let u := SlackContact.slackUserId c in
  let w1 := (postSlackInvitationsSend w).2 in
  let w2 := (processSlackMessage u messageText w1).2 in
  (∃ s, sessionOf u w2 = Some s ∧
        Session.conversationState s = ONBOARDING_STATES.COLLECTING_NAME ∧
        Session.collected s = []) ∧
  (∃ c', contactOf u w2 = Some c' ∧
         SlackContact.status c' = CONTACT_STATUS.IN_PROGRESS) ∧
  outbox w2
  = outbox w ++ [Slack.mkOutbound u (Slack.Onboarding Slack.AskName) (answerAt w1 0)].
Proof.
  intros Htoken Hc Hnone Hidle Hyes u w1 w2.
  pose proof (acceptedOf_subseteq _ _ _ Hc) as Hpending.
  destruct (postSlackInvitationsSend_run w token Htoken)
    as (w1' & Hrun & Hframe & Hcontacts & new & Hsessions & Hnew).
  { intros Hnil. rewrite Hnil in Hpending. by apply elem_of_nil in Hpending. }
  assert (w1 = w1') as Hw1 by (subst w1; by rewrite Hrun). clearbody w1. subst w1. clear Hrun.
  destruct Hframe as (Hp & He & Ha & Hx & Hset & Henv & Hclock & Hapi & Hout).
  (* the token is the same, and no gift awaits a confirmation *)
  assert (getSlackToken w1' = (Some (Some token), w1')) as Htoken1.
  { rewrite getSlackToken_head, Hset, Henv.
    rewrite getSlackToken_head in Htoken. simpl in Htoken. by rewrite Htoken. }
  assert (assignmentViews w1' = assignmentViews w) as Hviews.
  { unfold assignmentViews. rewrite Ha.
    by apply omap_withDetails_same. }
  (* the session and the contact that the message meets *)
  destruct (find_opened _ _ c Hnew Hc) as (s & Hfind & Hsu & Hst & Hcol).
  assert (sessionOf u w1' = Some s) as Hs1.
  { unfold sessionOf in *. rewrite Hsessions, find_app_None by done. done. }
  apply elem_of_pendingContacts in Hpending as [Hin _].
  destruct (find_is_Some_elem_of SlackContact.slackUserId u (slackContacts (db w)))
    as [c0 Hc0]; [by apply list_elem_of_fmap_2|].
  set (c1 := markInvited (clock w) (acceptedOf (answerAt w) (pendingContacts w)) c0).
  assert (List.find (λ c, bool_decide (SlackContact.slackUserId c = u))
            (slackContacts (db w1')) = Some c1) as Hc1.
  { rewrite Hcontacts, find_fmap_keeping, Hc0; [done|].
    intros x. unfold markInvited. by destruct (bool_decide (_ ∈ _)). }
  (* the run of [processSlackMessage] *)
  subst w2.
  destruct (processSlackMessage u messageText w1') as [res w2] eqn:Hrun.
  cbn [snd]. revert Hrun. unfold processSlackMessage.
  unfold bind at 1. rewrite Htoken1.
  unfold bind at 1. rewrite handleGiftConfirmation_idle by (by rewrite Hviews).
  unfold bind at 1. cbn [getOnboardingSession gets]. fold (sessionOf u w1').
  rewrite Hs1.
  unfold bind at 1. cbn [getSlackContactByUserId gets]. rewrite Hc1.
  unfold dispatch. rewrite Hst. rewrite decide_True by done.
  unfold consents in Hyes. cbv zeta in Hyes. rewrite Hyes.
  unfold bind at 1. unfold bind at 1.
  cbn [Storage.updateSlackContact modify ret].
  unfold bind at 1.
  cbn [Storage.updateOnboardingSession bind newDate gets modify
       responseMessage newState updates].
  set (w3 := withDb (withSessions _) _).
  unfold bind, ret.
  pose proof (postMessage_sameStore u (Slack.Onboarding Slack.AskName) w3)
    as [Hdb _].
  pose proof (postMessage_outbox u (Slack.Onboarding Slack.AskName) w3) as Hsent.
  destruct (postMessage u (Slack.Onboarding Slack.AskName) w3) as [r w4].
  simpl in Hdb, Hsent. intros Hrun.
  assert (w2 = w4) as -> by (destruct r; by injection Hrun). clear Hrun.
  unfold sessionOf, contactOf in *. rewrite Hdb, Hsent. subst w3. simpl.
  rewrite !find_updateWhere_keeping by done. rewrite Hs1, Hc1. simpl.
  rewrite !decide_True by done. split_and!.
  - eexists. split; [done|]. split; [done|]. destruct s. simpl in *. exact Hcol.
  - by eexists.
  - rewrite Hout. unfold answerAt. by rewrite Nat.add_0_r.
Qed.

End InvitationFacts.

Section InvitationExamples.
Import Storage DatabaseStorage Server Api.

Lemma invited_contact_is_asked_for_the_name_witness :
  let amy := Examples.contactOf "c2" "U7" "amy" CONTACT_STATUS.IMPORTED in
  let w := Examples.world [] [amy] [] Examples.alwaysOk 5 in
  let w1 := (@postSlackInvitationsSend bareReplies tableOrder w).2 in
  let w2 := (processSlackMessage "U7" "Yes, sure!" w1).2 in
  (∃ s, sessionOf "U7" w2 = Some s ∧
        Session.conversationState s = ONBOARDING_STATES.COLLECTING_NAME ∧
        Session.collected s = []) ∧
  (∃ c', contactOf "U7" w2 = Some c' ∧
         SlackContact.status c' = CONTACT_STATUS.IN_PROGRESS) ∧
  outbox w2
  = outbox w ++ [Slack.mkOutbound "U7" (Slack.Onboarding Slack.AskName)
                   Examples.replyOk].
Proof.
  intros amy w w1 w2.
  apply (@invited_contact_is_asked_for_the_name bareReplies tableOrder
           w amy "xoxb-token" "Yes, sure!").
  - reflexivity.
  - vm_compute. left.
  - reflexivity.
  - reflexivity.
  - vm_compute. reflexivity.
Defined.

End InvitationExamples.

(* ===================================================================== *)
(** * The notice to the receiver, over the dashboard and the replies *)
(* ===================================================================== *)

Section GiftNotices.
Import Storage DatabaseStorage Server Api.

Local Abbreviation rowId v := (Assignment.id (AssignmentWithDetails.row v)).

Global Instance noExtraNotice_preorder channel : PreOrder (noExtraNotice channel).
Proof.
  split; [intros w|intros w1 w2 w3]; unfold noExtraNotice; lia.
Qed.

Lemma length_filter_fmap_le {A} (P : A → Prop) `{!∀ x, Decision (P x)}
    (f : A → A) l :
  (∀ x, P (f x) → P x) →
  length (filter P (f <$> l)) ≤ length (filter P l).
Proof.
  intros Hf. induction l as [|x l IH]; [done|].
  rewrite fmap_cons, !filter_cons.
  destruct (decide (P (f x))) as [Hfx|Hfx].
  - rewrite decide_True by auto. simpl. lia.
  - destruct (decide (P x)); simpl; lia.
Qed.

Lemma length_filter_fmap_lt {A} (P : A → Prop) `{!∀ x, Decision (P x)}
    (f : A → A) l x :
  (∀ x, P (f x) → P x) → x ∈ l → P x → ¬ P (f x) →
  S (length (filter P (f <$> l))) ≤ length (filter P l).
Proof.
  intros Hf Hin Hx Hfx. induction l as [|y l IH]; [by apply elem_of_nil in Hin|].
  rewrite fmap_cons, !filter_cons.
  apply elem_of_cons in Hin as [<-|Hin].
  - rewrite decide_False, decide_True by done. simpl.
    pose proof (length_filter_fmap_le P f l Hf). lia.
  - specialize (IH Hin). destruct (decide (P (f y))) as [Hfy|Hfy].
    + rewrite decide_True by auto. simpl. lia.
    + destruct (decide (P y)); simpl; lia.
Qed.

(** An update of the rows that sets no flag of a receiver back opens no
    notice. *)
Lemma noticesOpen_update channel w w1 id g :
  keepsKeys g →
  (∀ r, Assignment.receiverNotified r = Some true →
        Assignment.receiverNotified (g r) = Some true) →
  participants (db w1) = participants (db w) →
  assignments (db w1) = updateWhere Assignment.id id g (assignments (db w)) →
  noticesOpen channel w1 ≤ noticesOpen channel w.
Proof.
  intros Hg Hflag Hp Ha. unfold noticesOpen.
  rewrite (assignmentViews_updated w w1 id g) by done.
  apply length_filter_fmap_le. intros v. unfold updateView, untold.
  destruct (decide _); [|done]. simpl. intros [Hc Hn]. split; [done|].
  intros Hr. by apply Hn, Hflag.
Qed.

(** Setting the flag of an assignment that was open closes it. *)
Lemma noticesOpen_told channel w w1 v :
  v ∈ assignmentViews w → untold channel v →
  participants (db w1) = participants (db w) →
  assignments (db w1)
  = updateWhere Assignment.id (rowId v) Assignment.setReceiverNotified
      (assignments (db w)) →
  S (noticesOpen channel w1) ≤ noticesOpen channel w.
Proof.
  intros Hin Hv Hp Ha. unfold noticesOpen.
  rewrite (assignmentViews_updated w w1 (rowId v) Assignment.setReceiverNotified)
    by done.
  apply (length_filter_fmap_lt _ _ _ v); [|done|done|].
  - intros v0. unfold updateView, untold.
    destruct (decide _); [|done]. simpl. by intros [_ []].
  - unfold updateView, untold. rewrite decide_True by done. simpl. by intros [_ []].
Qed.

Lemma noticesReached_snoc channel w w1 o :
  outbox w1 = outbox w ++ [o] →
  noticesReached channel w1
  = noticesReached channel w
    + (if decide (Slack.channel o = channel ∧ Slack.text o = Slack.GiftOnItsWay)
       then if reached o then 1 else 0 else 0).
Proof.
  intros Hout. unfold noticesReached, giftNoticesTo.
  rewrite Hout, !filter_app, length_app. f_equal.
  rewrite filter_cons, filter_nil. destruct (decide _); [|done].
  rewrite filter_cons, filter_nil. by destruct (reached o).
Qed.

(** A message that is no notice about a gift changes nothing of the
    count. *)
Lemma postMessage_noExtraNotice channel c text :
  text ≠ Slack.GiftOnItsWay → keeps (noExtraNotice channel) (postMessage c text).
Proof.
  intros Htext w. unfold noExtraNotice.
  destruct (postMessage_sameStore c text w) as [Hdb _].
  rewrite (noticesReached_snoc channel w _ _ (postMessage_outbox c text w)).
  rewrite decide_False by (simpl; by intros [_ ?]).
  unfold noticesOpen, assignmentViews. rewrite Hdb. lia.
Qed.

Lemma updateAssignmentGiftStatus_noExtraNotice channel id giftSent :
  keeps (noExtraNotice channel) (updateAssignmentGiftStatus id giftSent).
Proof.
  intros w. unfold noExtraNotice.
  cbn [updateAssignmentGiftStatus bind newDate gets modify snd].
  set (w1 := withDb _ w).
  assert (noticesOpen channel w1 ≤ noticesOpen channel w) as Hopen.
  { apply (noticesOpen_update channel w w1 id
             (Assignment.setGiftStatus giftSent
                (if giftSent then Some (clock w) else None)));
      [by intros r|done|done|done]. }
  assert (noticesReached channel w1 = noticesReached channel w) as -> by done.
  lia.
Qed.

(** The notice and the flag: the call to the receiver of an open
    assignment, followed by the update of the row. *)
Lemma tell_receiver channel c id v w :
  v ∈ assignmentViews w → rowId v = id →
  orNull (Participant.slackUserId (AssignmentWithDetails.receiver v)) = Some c →
  Assignment.receiverNotified (AssignmentWithDetails.row v) ≠ Some true →
  noExtraNotice channel w
    ((run postMessage c Slack.GiftOnItsWay in
      updateAssignmentReceiverNotified id) w).2.
Proof.
  intros Hin <- Hc Hflag. unfold bind at 1.
  destruct (postMessage_sameStore c Slack.GiftOnItsWay w) as [Hdb _].
  pose proof (postMessage_outbox c Slack.GiftOnItsWay w) as Hout.
  assert ((postMessage c Slack.GiftOnItsWay w).1 = None ↔
          slackApi w (slackCalls w) = Slack.NetworkError) as Hthrows.
  { unfold postMessage, bind, nextAnswer, modify. simpl.
    by destruct (slackApi w (slackCalls w)). }
  destruct (postMessage c Slack.GiftOnItsWay w) as [[r|] w1]; simpl in *.
  - (* the call came back: the flag is set *)
    set (w2 := withDb _ w1).
    assert (outbox w2 = outbox w ++
              [Slack.mkOutbound c Slack.GiftOnItsWay (slackApi w (slackCalls w))])
      as Hout2 by done.
    unfold noExtraNotice.
    rewrite (noticesReached_snoc channel w w2 _ Hout2). simpl.
    destruct (decide (c = channel ∧ _)) as [[-> _]|Hother].
    + assert (S (noticesOpen channel w2) ≤ noticesOpen channel w) as Hopen.
      { apply (noticesOpen_told channel w w2 v); [done|done| |].
        - subst w2. simpl. by rewrite Hdb.
        - subst w2. simpl. by rewrite Hdb. }
      destruct (reached _); lia.
    + assert (noticesOpen channel w2 ≤ noticesOpen channel w) as Hopen.
      { apply (noticesOpen_update channel w w2 (rowId v)
                 Assignment.setReceiverNotified); [by intros ?|done| |].
        - subst w2. simpl. by rewrite Hdb.
        - subst w2. simpl. by rewrite Hdb. }
      lia.
  - (* [fetch] rejected: nothing reached Slack, nothing is marked *)
    unfold noExtraNotice.
    rewrite (noticesReached_snoc channel w w1 _ Hout). simpl.
    assert (slackApi w (slackCalls w) = Slack.NetworkError) as ->
      by (by apply Hthrows).
    unfold reached. simpl.
    assert (noticesOpen channel w1 = noticesOpen channel w) as ->
      by (unfold noticesOpen, assignmentViews; by rewrite Hdb).
    destruct (decide _); lia.
Qed.

Lemma step_bind {A B} (R : relation World) `{!PreOrder R}
    (m : M A) (k : A → M B) w :
  R w (m w).2 → (∀ a w1, m w = (Some a, w1) → R w1 (k a w1).2) →
  R w (bind m k w).2.
Proof.
  intros Hm Hk. unfold bind. destruct (m w) as [[a|] w1] eqn:Hrun; [|done].
  simpl in Hm. etrans; [done|]. by eapply Hk.
Qed.

Lemma step_tryCatch {A} (R : relation World) `{!PreOrder R} (m h : M A) w :
  R w (m w).2 → keeps R h → R w (tryCatch m h w).2.
Proof.
  intros Hm Hh. unfold tryCatch. destruct (m w) as [[a|] w1]; [done|].
  simpl in Hm. etrans; [done|]. apply Hh.
Qed.

(** A reply of a giver brings no notice beyond the open ones. *)
Lemma handleGiftConfirmation_noExtraNotice channel u lowerText token :
  keeps (noExtraNotice channel) (handleGiftConfirmation u lowerText token).
Proof.
  intros w. unfold handleGiftConfirmation.
  unfold bind at 1. cbn [getAllAssignmentsWithDetails gets].
  fold (assignmentViews w).
  destruct (List.find _ (assignmentViews w)) as [v|] eqn:Hfind; [|done].
  apply find_Some_filter in Hfind as [Hin _]. cbv zeta.
  destruct (negb (isYes lowerText) && negb (isNo lowerText)); [done|].
  destruct (isYes lowerText).
  2:{ apply step_bind; [apply _| |done].
      by apply postMessage_noExtraNotice. }
  apply step_bind; [apply _|apply updateAssignmentGiftStatus_noExtraNotice|].
  intros [] w0 Hmark.
  assert (∃ v0, v0 ∈ assignmentViews w0 ∧ rowId v0 = rowId v ∧
                AssignmentWithDetails.receiver v0 = AssignmentWithDetails.receiver v ∧
                Assignment.receiverNotified (AssignmentWithDetails.row v0)
                = Assignment.receiverNotified (AssignmentWithDetails.row v))
    as (v0 & Hin0 & Hid0 & Hrec0 & Hflag0).
  { revert Hmark. cbn [updateAssignmentGiftStatus bind newDate gets modify].
    intros [= <-].
    set (mark := Assignment.setGiftStatus true (Some (clock w))).
    exists (updateView (rowId v) mark v). split.
    - rewrite (assignmentViews_updated w _ (rowId v) mark); [|by intros r|done|done].
      by apply list_elem_of_fmap_2.
    - unfold updateView. by rewrite decide_True. }
  apply step_bind; [apply _| |].
  - destruct (orNull _) as [c|] eqn:Hc; [|done].
    case_bool_decide as Hflag; [done|]. cbn [negb].
    apply (tell_receiver channel c _ v0); [done|done|by rewrite Hrec0|].
    by rewrite Hflag0.
  - intros _ w1 _. apply step_bind; [apply _| |done].
    by apply postMessage_noExtraNotice.
Qed.

(** The dashboard brings none either. *)
Lemma patchAssignmentsGiftStatus_noExtraNotice channel id giftSent :
  keeps (noExtraNotice channel) (patchAssignmentsGiftStatus id giftSent).
Proof.
  intros w. unfold patchAssignmentsGiftStatus.
  apply step_tryCatch; [apply _| |intros ?; reflexivity].
  apply step_bind; [apply _|apply updateAssignmentGiftStatus_noExtraNotice|].
  intros _ w0 _. apply step_bind; [apply _| |done].
  destruct giftSent; [|done].
  unfold bind at 1. cbn [getAllAssignmentsWithDetails gets].
  fold (assignmentViews w0).
  destruct (List.find _ (assignmentViews w0)) as [v|] eqn:Hfind; [|done].
  apply find_Some_filter in Hfind as [Hin Hid].
  apply bool_decide_eq_true in Hid.
  destruct (orNull _) as [c|] eqn:Hc; [|done].
  case_bool_decide as Hflag; [done|]. cbn [negb].
  unfold bind at 1. destruct (getSlackToken_run w0) as [t ->].
  destruct t as [token|]; [|done].
  by apply (tell_receiver channel c id v).
Qed.

(** X16. A receiver is told at most once for each assignment, whatever
    the admin sets on the dashboard and whatever the givers reply, in any
    order and whatever Slack answers: over every sequence of such actions
    the notices about a gift that reached Slack for a channel, together
    with the assignments whose receiver is reached there and is not yet
    marked as notified, never grow in number.  So no more notices reach a
    receiver than assignments were open for them, and none once all are
    marked. *)
Theorem receiver_told_at_most_once_per_assignment channel actions w :
  let w' := foldl doGiftAction w actions in
  noticesReached channel w' + noticesOpen channel w'
  ≤ noticesReached channel w + noticesOpen channel w.
Proof.
  simpl. change (noExtraNotice channel w (foldl doGiftAction w actions)).
  revert w. induction actions as [|action actions IH]; intros w; [done|].
  simpl. etrans; [|apply IH].
  destruct action as [id giftSent|u lowerText token]; simpl.
  - apply patchAssignmentsGiftStatus_noExtraNotice.
  - apply handleGiftConfirmation_noExtraNotice.
Qed.

End GiftNotices.

(* ===================================================================== *)
(** * The scheduler *)
(* ===================================================================== *)

Section SchedulerFacts.
Import Storage Server Scheduler.

(** A tick does nothing when the current event is not due. *)
Lemma checkScheduledEvents_idle w :
  (∀ e, head (events (db w)) = Some e → ¬ dueForNotification (clock w) e) →
  checkScheduledEvents w = (Some tt, w).
Proof.
  intros Hidle. unfold checkScheduledEvents, tryCatch.
  unfold bind at 1. cbn [getCurrentEvent gets].
  destruct (head (events (db w))) as [e|] eqn:He; [|done].
  unfold bind at 1. cbn [newDate gets].
  destruct (Event.scheduledDate e) as [scheduledDate|] eqn:Hdate; [|done].
  destruct (_ && _ && _) eqn:Hdue; [exfalso|done].
  rewrite !andb_true_iff, negb_true_iff, bool_decide_eq_true,
    bool_decide_eq_false in Hdue.
  destruct Hdue as [[Hm Hn] Hle%Z.leb_le].
  apply (Hidle e); [done|]. split; [by exists scheduledDate|done].
Qed.

Lemma head_updateWhere_events e f rows :
  head rows = Some e → head (updateWhere Event.id (Event.id e) f rows) = Some (f e).
Proof.
  destruct rows as [|e' rows]; [done|]. intros [= ->].
  unfold updateWhere. simpl. by rewrite decide_True.
Qed.

(** A pass for the current event never throws; it marks the event when
    a send succeeds or none fails, and otherwise leaves the event and the
    rows of the assignments as they are. *)
Lemma scheduledPass_run e w :
  head (events (db w)) = Some e →
  ∃ counts w',
    sendAllNotifications (Event.id e) None w = (Some counts, w') ∧
    if decide (passCloses (scheduledOutcomes e w)) then
      events (db w')
      = updateWhere Event.id (Event.id e) markNotificationsSent (events (db w))
    else
      events (db w') = events (db w) ∧ clock w' = clock w ∧
      ∀ x, lookupAssignment x w' = lookupAssignment x w.
Proof.
  intros He. unfold sendAllNotifications.
  unfold bind at 1. cbn [getAssignments gets].
  unfold bind at 1. cbn [getCurrentEvent gets]. rewrite He.
  fold (eventViews e w).
  destruct (notifyLoop_spec (chooseTemplate None (Some e)) (eventViews e w) 0 0 w)
    as (counts & w' & Hloop & Hs & Hf & Hc & Hev & Hrows).
  fold (scheduledOutcomes e w) in Hs, Hf, Hrows.
  unfold bind. rewrite Hloop.
  assert (((0 <? sent counts) || (failed counts =? 0)) = true
          ↔ passCloses (scheduledOutcomes e w)) as Hcloses.
  { unfold passCloses. rewrite orb_true_iff, Nat.ltb_lt, Nat.eqb_eq, Hs, Hf.
    simpl. rewrite <-!length_zero_iff_nil. lia. }
  destruct (decide (passCloses (scheduledOutcomes e w))) as [Hp|Hp].
  - rewrite (proj2 Hcloses Hp). cbn [updateEvent modify fst snd].
    eexists _, _. split; [done|]. simpl. by rewrite Hev.
  - destruct (_ || _) eqn:Hb; [exfalso; by apply Hp, Hcloses|]. simpl.
    eexists _, _. split; [done|]. split_and!; [done|done|].
    intros x. rewrite Hrows. case_bool_decide as Hx; [|done].
    exfalso. apply Hp. left. intros Hnil.
    assert ((x, true) ∈ filter succeeded (scheduledOutcomes e w)) as Hin
      by (by apply list_elem_of_filter).
    rewrite Hnil in Hin. by apply elem_of_nil in Hin.
Qed.

(** X17. A tick of the scheduler never throws, and does nothing unless
    the current event has a scheduled date that has come, a complete
    matching and no notifications sent yet.  When the event is due the
    tick is a notification pass for it.  If a send of the pass succeeds
    or none fails, the event is marked complete with its notifications
    sent, and from then on no tick does anything, at whatever time: the
    assignments whose sends failed are not tried again by the scheduler.
    If every send fails, the event and the rows of the assignments stay
    as they are, so that the event is still due at the next tick. *)
Theorem checkScheduledEvents_announces_once w :
  let w1 := (checkScheduledEvents w).2 in
  (checkScheduledEvents w).1 = Some tt ∧
  match head (events (db w)) with
  | Some e =>
      if decide (dueForNotification (clock w) e) then
        w1 = (sendAllNotifications (Event.id e) None w).2 ∧
        if decide (passCloses (scheduledOutcomes e w)) then
          head (events (db w1)) = Some (markNotificationsSent e) ∧
          ∀ w2, db w2 = db w1 → checkScheduledEvents w2 = (Some tt, w2)
        else
          events (db w1) = events (db w) ∧ clock w1 = clock w ∧
          ∀ x, lookupAssignment x w1 = lookupAssignment x w
      else w1 = w
  | None => w1 = w
  end.
Proof.
  simpl. destruct (head (events (db w))) as [e|] eqn:He.
  2:{ rewrite checkScheduledEvents_idle; [done|]. intros e. by rewrite He. }
  destruct (decide (dueForNotification (clock w) e)) as [Hdue|Hdue].
  2:{ rewrite checkScheduledEvents_idle; [done|].
      intros e'. rewrite He. by intros [= <-]. }
  destruct Hdue as ((scheduledDate & Hdate & Hle) & Hm & Hn).
  destruct (scheduledPass_run e w He) as (counts & w' & Hpass & Hafter).
  assert (checkScheduledEvents w = (Some tt, w')) as ->.
  { unfold checkScheduledEvents, tryCatch.
    unfold bind at 1. cbn [getCurrentEvent gets]. rewrite He.
    unfold bind at 1. cbn [newDate gets]. rewrite Hdate.
    rewrite (bool_decide_eq_true_2 _ Hm), (bool_decide_eq_false_2 _ Hn).
    rewrite (proj2 (Z.leb_le _ _) Hle). cbn [andb negb].
    unfold bind. by rewrite Hpass. }
  rewrite Hpass. simpl. split_and!; [done|done|].
  destruct (decide (passCloses (scheduledOutcomes e w))) as [Hp|Hp]; [|done].
  assert (head (events (db w')) = Some (markNotificationsSent e)) as Hhead
    by (rewrite Hafter; by apply head_updateWhere_events).
  split; [done|].
  intros w2 Hdb. apply checkScheduledEvents_idle.
  intros e2. rewrite Hdb, Hhead. intros [= <-] (_ & _ & Hsent). by apply Hsent.
Qed.

End SchedulerFacts.

(* ===================================================================== *)
(** * The login and the guard *)
(* ===================================================================== *)

Section AuthFacts.
Import Auth.






End AuthFacts.

(* ===================================================================== *)
(** * The phone numbers of Slack profiles *)
(* ===================================================================== *)

Section PhoneFacts.
Import Phone.

Lemma append_nil s : (EmptyString ++ s)%string = s.
Proof. done. Qed.

Lemma append_cons c a s : (String c a ++ s)%string = String c (a ++ s).
Proof. done. Qed.

Lemma span_lacks c a r :
  lacks c a = true → span c (a ++ String c r)%string = (a, String c r).
Proof.
  induction a as [|d a IH];
    rewrite ?append_nil, ?append_cons; cbn [lacks span].
  - by rewrite Ascii.eqb_refl.
  - intros [Hd Ha]%andb_true_iff. apply negb_true_iff in Hd.
    by rewrite Hd, IH.
Qed.

Lemma stripPrefix_other d p c s :
  d ≠ c → stripPrefix (String d p) (String c s) = None.
Proof.
  intros Hne. cbn [stripPrefix]. by rewrite (proj2 (Ascii.eqb_neq d c) Hne).
Qed.

Lemma stripPrefix_app p s : stripPrefix p (p ++ s)%string = Some s.
Proof.
  induction p as [|c p IH]; [by destruct s|].
  rewrite append_cons. cbn [stripPrefix]. by rewrite Ascii.eqb_refl.
Qed.

Lemma upTo_lacks c a r :
  a ≠ EmptyString → lacks c a = true →
  upTo c (a ++ String c r)%string = Some (a, r).
Proof.
  intros Hne Ha. unfold upTo. rewrite span_lacks by done. by destruct a.
Qed.

(** Both patterns match only at a [<]. *)
Lemma slackTelAt_start c s : c ≠ "<"%char → slackTelAt (String c s) = None.
Proof.
  intros Hc. unfold slackTelAt. by rewrite stripPrefix_other.
Qed.

Lemma simpleTelAt_start c s : c ≠ "<"%char → simpleTelAt (String c s) = None.
Proof.
  intros Hc. unfold simpleTelAt. by rewrite stripPrefix_other.
Qed.

Lemma firstMatch_skip pattern pre s :
  (∀ c s', c ≠ "<"%char → pattern (String c s') = None) →
  lacks "<" pre = true →
  firstMatch pattern (pre ++ s)%string = firstMatch pattern s.
Proof.
  intros Hstart. induction pre as [|c pre IH]; [done|].
  rewrite append_cons. cbn [lacks firstMatch].
  intros [Hc Hpre]%andb_true_iff. apply negb_true_iff in Hc.
  rewrite Hstart by (intros ->; by rewrite Ascii.eqb_refl in Hc).
  by apply IH.
Qed.

Lemma firstMatch_lacks pattern s :
  pattern EmptyString = None →
  (∀ c s', c ≠ "<"%char → pattern (String c s') = None) →
  lacks "<" s = true → firstMatch pattern s = None.
Proof.
  intros Hnil Hstart. induction s as [|c s IH]; cbn [lacks firstMatch].
  - by rewrite Hnil.
  - intros [Hc Hs]%andb_true_iff. apply negb_true_iff in Hc.
    rewrite Hstart by (intros ->; by rewrite Ascii.eqb_refl in Hc).
    by apply IH.
Qed.

(** X19. Of a phone number that carries a link of Slack,
    [<tel:number|display>], the display text is shown, trimmed: for a
    text with no [<] before the link, a link target that is not empty
    and has no bar, and a display text that is not empty and has no [>],
    whatever follows the link. *)
Theorem formatPhoneNumber_shows_the_display pre number display post :
  lacks "<" pre = true →
  number ≠ EmptyString → lacks "|" number = true →
  display ≠ EmptyString → lacks ">" display = true →
  formatPhoneNumber
    (Some (pre ++ "<tel:" ++ number ++ "|" ++ display ++ ">" ++ post)%string)
  = Some (JS.trim display).
Proof.
  intros Hpre Hn Hbar Hd Hgt. unfold formatPhoneNumber.
  assert (Server.orNull
            (Some (pre ++ "<tel:" ++ number ++ "|" ++ display ++ ">" ++ post)%string)
          = Some (pre ++ "<tel:" ++ number ++ "|" ++ display ++ ">" ++ post)%string)
    as ->.
  { unfold Server.orNull, JS.truthy. by destruct pre. }
  rewrite firstMatch_skip by (done || apply slackTelAt_start).
  assert (slackTelAt ("<tel:" ++ number ++ "|" ++ display ++ ">" ++ post)%string
          = Some display) as Hmatch.
  { unfold slackTelAt. rewrite stripPrefix_app. cbn [mbind option_bind].
    change ("|" ++ display ++ ">" ++ post)%string
      with (String "|" (display ++ String ">" post)%string).
    rewrite upTo_lacks by done. cbn [mbind option_bind snd].
    by rewrite upTo_lacks by done. }
  destruct ("<tel:" ++ number ++ "|" ++ display ++ ">" ++ post)%string eqn:Hs;
    cbn [firstMatch]; by rewrite Hmatch.
Qed.

Lemma formatPhoneNumber_shows_the_display_witness :
  formatPhoneNumber (Some "tel. <tel:+37120000000|+371 2000 0000 > (mobile)")
  = Some "+371 2000 0000".
Proof.
  apply (formatPhoneNumber_shows_the_display
           "tel. " "+37120000000" "+371 2000 0000 " " (mobile)");
    (reflexivity || discriminate).
Defined.

(** X20. A phone number without a [<] is shown as it is, and an absent
    or empty one as null. *)
Theorem formatPhoneNumber_keeps_plain_numbers phone :
  lacks "<" phone = true →
  formatPhoneNumber (Some phone)
  = if decide (phone = EmptyString) then None else Some phone.
Proof.
  intros Hplain. unfold formatPhoneNumber.
  destruct phone as [|c phone]; [done|].
  rewrite decide_False by done.
  assert (Server.orNull (Some (String c phone)) = Some (String c phone)) as ->
    by done.
  rewrite (firstMatch_lacks slackTelAt), (firstMatch_lacks simpleTelAt);
    [done|done|apply simpleTelAt_start|done|done|apply slackTelAt_start|done].
Qed.

Lemma formatPhoneNumber_keeps_plain_numbers_witness :
  formatPhoneNumber (Some "+371 2000 0000") = Some "+371 2000 0000".
Proof.
  apply (formatPhoneNumber_keeps_plain_numbers "+371 2000 0000"). reflexivity.
Defined.

End PhoneFacts.

(* ===================================================================== *)
(** * The manual pass and the resent invitation *)
(* ===================================================================== *)

Section NotifyRoute.
Import Storage Server Api.

Lemma length_outcomes (outcomes : list (string * bool)) :
  length (filter succeeded outcomes) + length (filter failedSend outcomes)
  = length outcomes.
Proof.
  induction outcomes as [|[x b] outcomes IH]; [done|].
  destruct b.
  - rewrite (filter_cons_True succeeded), (filter_cons_False failedSend)
      by done. simpl. lia.
  - rewrite (filter_cons_False succeeded), (filter_cons_True failedSend)
      by done. simpl. lia.
Qed.

(** X21. The manual pass, [POST /api/events/notify], never throws.
    Without a current event whose matching is complete it answers 400
    and changes nothing.  Otherwise it answers 200, and its two tallies
    account for every assignment of the event that was not notified
    before, once each: [sent + failed] is their number, whether or not
    the notifications of the event were marked as sent already. *)
Theorem postEventsNotify_accounts_for_every_assignment w :
  ∃ response w',
    postEventsNotify w = (Some response, w') ∧
    match head (events (db w)) with
    | Some e =>
        if bool_decide (Event.matchingComplete e = Some true) then
          ∃ sent failed,
            response = mkResponse 200 (Notified sent failed) ∧
            sent + failed
            = length (filter (λ v, Assignment.notified (AssignmentWithDetails.row v)
                                   ≠ Some true) (eventViews e w))
        else response = failure 400 "No completed matching to notify" ∧ w' = w
    | None => response = failure 400 "No completed matching to notify" ∧ w' = w
    end.
Proof.
  unfold postEventsNotify, tryCatch.
  unfold bind at 1. cbn [getCurrentEvent gets].
  destruct (head (events (db w))) as [e|] eqn:He; [|by eexists _, _].
  case_bool_decide as Hm; [|by eexists _, _].
  destruct (scheduledPass_run e w He) as (counts & w' & Hpass & _).
  unfold bind. rewrite Hpass. eexists _, _. split; [done|].
  exists (sent counts), (failed counts). split; [done|].
  revert Hpass. unfold sendAllNotifications.
  unfold bind at 1. cbn [getAssignments gets].
  unfold bind at 1. cbn [getCurrentEvent gets]. rewrite He.
  fold (eventViews e w).
  destruct (notifyLoop_spec (chooseTemplate None (Some e)) (eventViews e w) 0 0 w)
    as (counts' & w1 & Hloop & Hs & Hf & _).
  unfold bind at 1. rewrite Hloop. unfold bind.
  intros Hrun.
  assert (counts = counts') as ->.
  { revert Hrun. destruct (_ || _); simpl; by intros [= -> _]. }
  rewrite Hs, Hf. simpl. rewrite length_outcomes.
  rewrite <-(length_fmap fst), notifyOutcomes_keys. by rewrite length_fmap.
Qed.

End NotifyRoute.

Section ResendRoute.
Import Storage DatabaseStorage Server Api.
Context `{QueryOrder}.

(** X22. A resent invitation opens no conversation.  For a contact
    found by its key, with a token and a call that Slack accepts, the
    route answers 200, makes the one call, sets the contact to invited
    at the time of the call and leaves the sessions as they are; it
    creates none.  So if the Slack user of the contact had no session,
    none of their later messages is answered by the onboarding or
    changes a participant, a contact or a session. *)
Theorem resent_invitation_opens_no_conversation contactId contact token w :
  (getSlackToken w).1 = Some (Some token) →
  List.find (λ c, bool_decide (SlackContact.id c = contactId))
    (orderByDisplayName (slackContacts (db w))) = Some contact →
  accepted (answerAt w 0) = true →
  sessionOf (SlackContact.slackUserId contact) w = None →
  let result := postSlackInvitationsResend contactId w in
  let w1 := result.2 in
  result.1
  = Some (mkResponse 200 Success,
          [mkInvited (SlackContact.slackUserId contact)
             (InvitationReminder (SlackContact.displayName contact))
             (answerAt w 0)]) ∧
  slackContacts (db w1)
  = updateWhere SlackContact.id (SlackContact.id contact) (invited (clock w))
      (slackContacts (db w)) ∧
  sameSessions w w1 ∧
  ∀ messageText,
    let w2 := (processSlackMessage (SlackContact.slackUserId contact)
                 messageText w1).2 in
    onboardingStill w1 w2 ∧
    onboardingPrompts (outbox w2) = onboardingPrompts (outbox w1).
Proof.
  intros Htoken Hfind Hok Hnone.
  destruct (getSlackToken_run w) as [t Ht]. rewrite Ht in Htoken.
  simpl in Htoken. injection Htoken as ->.
  unfold answerAt in *. rewrite Nat.add_0_r in *.
  destruct (slackApi w (slackCalls w)) as [| |reply] eqn:Hanswer; [done|done|].
  simpl in Hok.
  assert (postSlackInvitationsResend contactId w
          = (Some (mkResponse 200 Success,
                   [mkInvited (SlackContact.slackUserId contact)
                      (InvitationReminder (SlackContact.displayName contact))
                      (Slack.Json reply)]),
             withDb (withSlackContacts
                       (updateWhere SlackContact.id (SlackContact.id contact)
                          (invited (clock w))))
                    (nextAnswer w).2)) as Hrun.
  { unfold postSlackInvitationsResend, tryCatch.
    unfold bind at 1. rewrite Ht.
    unfold bind at 1. cbn [getSlackContacts gets]. rewrite Hfind.
    unfold bind at 1. cbn [nextAnswer fst snd]. rewrite Hanswer.
    cbv [bind ret json newDate gets modify updateSlackContact]. simpl.
    by rewrite Hok. }
  rewrite Hrun. cbn [fst snd]. split_and!; [done|done|done|].
  intros messageText.
  match goal with
  | |- context [processSlackMessage ?u messageText ?w1] =>
      pose proof (processSlackMessage_unknown_user u messageText w1) as Hlater
  end.
  apply Hlater. exact Hnone.
Qed.

End ResendRoute.

Section ResendExamples.
Import Storage DatabaseStorage Server Api.

Lemma resent_invitation_opens_no_conversation_witness :
  let amy := Examples.contactOf "c2" "U7" "amy" CONTACT_STATUS.IMPORTED in
  let w := Examples.world [] [amy] [] Examples.alwaysOk 5 in
  let result := @postSlackInvitationsResend tableOrder "c2" w in
  result.1
  = Some (mkResponse 200 Success,
          [mkInvited "U7" (InvitationReminder "amy") Examples.replyOk]) ∧
  slackContacts (db result.2) = [invited 5 amy] ∧
  sameSessions w result.2 ∧
  ∀ messageText,
    let w2 := (processSlackMessage "U7" messageText result.2).2 in
    onboardingStill result.2 w2 ∧
    onboardingPrompts (outbox w2) = onboardingPrompts (outbox result.2).
Proof.
  intros amy w.
  apply (@resent_invitation_opens_no_conversation tableOrder
           "c2" amy "xoxb-token" w); reflexivity.
Defined.

End ResendExamples.

(* ===================================================================== *)
(** * After the announcement *)
(* ===================================================================== *)

Section AfterTheAnnouncement.
Import Storage Server Routes Api Scheduler.

Global Instance quiet_preorder : PreOrder quiet.
Proof.
  split; [by intros w|]. intros w1 w2 w3 H12 H23 Ha.
  destruct (H12 Ha) as [Ha2 Ho2]. destruct (H23 Ha2) as [Ha3 Ho3].
  split; [done|]. by rewrite Ho3.
Qed.

Lemma quiet_same_events w w' :
  events (db w') = events (db w) → outbox w' = outbox w → quiet w w'.
Proof.
  intros He Ho (e & Hhead & Hsent). split; [|done]. exists e. by rewrite He.
Qed.

(** An update of the rows of the events that keeps the flag. *)
Lemma updateEvent_quiet id f :
  (∀ e, Event.notificationsSent (f e) = Event.notificationsSent e) →
  keeps quiet (updateEvent id f).
Proof.
  intros Hf w (e & Hhead & Hsent). split; [|done]. unfold announced.
  assert (events (db (updateEvent id f w).2)
          = updateWhere Event.id id f (events (db w))) as -> by done.
  destruct (events (db w)) as [|e' rows]; [done|]. injection Hhead as ->.
  unfold updateWhere. simpl.
  destruct (decide (Event.id e = id)); eexists; split; try done.
  by rewrite Hf.
Qed.

Lemma createEvent_quiet name status scheduledDate :
  keeps quiet (createEvent name status scheduledDate).
Proof.
  intros w (e & Hhead & Hsent).
  set (updated := Event.mk (Event.id e) name scheduledDate status
                    (Event.matchingComplete e) (Event.notificationsSent e)
                    (Event.messageTemplate e)).
  assert (createEvent name status scheduledDate w
          = (Some updated,
             withDb (withEvents
                       (updateWhere Event.id (Event.id e) (λ _, updated))) w))
    as ->.
  { unfold createEvent, bind. cbn [getCurrentEvent gets]. by rewrite Hhead. }
  split; [|done]. exists updated. split; [|done].
  apply (head_updateWhere_events e (λ _, updated) _ Hhead).
Qed.

Lemma createAssignment_quiet eventId giverId receiverId :
  keeps quiet (createAssignment eventId giverId receiverId).
Proof.
  intros w. apply quiet_same_events; unfold createAssignment, bind; simpl;
    by repeat case_match.
Qed.

Lemma createAssignments_quiet eventId matching :
  keeps quiet (createAssignments eventId matching).
Proof.
  induction matching as [|chosen rest IH]; simpl; [by intros w|].
  apply keeps_bind; [apply _|apply createAssignment_quiet|done].
Qed.

Lemma generateMatching_quiet participantIds exclusionPairs :
  keeps quiet (Routes.generateMatching participantIds exclusionPairs).
Proof.
  intros w. apply quiet_same_events; unfold Routes.generateMatching;
    by destruct (Matching.generateMatchingRun _ _ _) as [[? ?] ?].
Qed.

Lemma postEventsMatch_quiet : keeps quiet postEventsMatch.
Proof.
  unfold postEventsMatch.
  repeat first
    [ apply createEvent_quiet | apply generateMatching_quiet
    | apply createAssignments_quiet
    | apply updateEvent_quiet; by intros ?
    | (intros w; apply quiet_same_events; done)
    | frame_step ].
Qed.

Lemma postEventsSchedule_quiet name scheduledDate :
  keeps quiet (postEventsSchedule name scheduledDate).
Proof.
  unfold postEventsSchedule.
  repeat first [ apply createEvent_quiet | frame_step ].
Qed.

Lemma checkScheduledEvents_quiet : keeps quiet checkScheduledEvents.
Proof.
  intros w (e & Hhead & Hsent). rewrite checkScheduledEvents_idle.
  - split; [by exists e|done].
  - intros e'. rewrite Hhead. intros [= <-] (_ & _ & Hn). by apply Hn.
Qed.

(** X23. The scheduler announces an event once and never again: when the
    notifications of the current event are marked as sent, then over
    every sequence of new matchings ([POST /api/events/match]), new names
    and dates ([POST /api/events/schedule]) and ticks of the scheduler
    the mark stays and no message is sent.  Neither route takes the mark
    back, so the assignments of a new matching are announced only by the
    manual pass. *)
Theorem announced_event_is_never_announced_again actions w :
  announced w →
  let w' := foldl doPlanAction w actions in
  announced w' ∧ outbox w' = outbox w.
Proof.
  simpl. change (quiet w (foldl doPlanAction w actions)).
  revert w. induction actions as [|action actions IH]; intros w; [done|].
  simpl. etrans; [|apply IH].
  destruct action as [|name scheduledDate|]; simpl.
  - apply postEventsMatch_quiet.
  - apply postEventsSchedule_quiet.
  - apply checkScheduledEvents_quiet.
Qed.

Lemma announced_event_is_never_announced_again_witness :
  let announcedEvent :=
    Event.mk "e1" (Event.Named "Secret Santa") (Some 0%Z) "complete"
      (Some true) (Some true) None in
  let w :=
    mkWorld
      (mkDatabase [Examples.alice; Examples.bob; Examples.carol; Examples.dave]
         [announcedEvent] [] [] [Examples.settings] [] [])
      None 100%Z Examples.alwaysOk 0 [] Matching.countingRng
      (λ n, String (ascii_of_nat (97 + n)) "-uuid") 0 in
  let w' := foldl doPlanAction w
              [Rematch; Reschedule "Secret Santa again" (Some 50%Z); Tick] in
  announced w' ∧ outbox w' = [].
Proof.
  intros announcedEvent w.
  apply (announced_event_is_never_announced_again
           [Rematch; Reschedule "Secret Santa again" (Some 50%Z); Tick] w).
  exists announcedEvent. split; reflexivity.
Defined.

End AfterTheAnnouncement.
